(** * Mortgage calculator: the calculation engine, input validation and
      scenario storage of [src/lib/mortgage-calculator.ts] and the
      [LocalStorageService] class, embedded over IEEE 754 binary64 numbers,
      with the code around them: the calculator component and page, the
      theme context and the export of a schedule to a sheet.

    A JavaScript [number] is a binary64 float: the embedding uses Rocq's
    primitive [float], whose operations are the processor's and are specified
    by [SpecFloat].  [Math.pow], [Date] and [JSON] belong to the host, not to
    the repository: they are parameters of the sections below. *)

From Stdlib Require Import ZArith List String Ascii Bool Lia.
From Stdlib Require Import Floats.
From Stdlib Require Uint63 DecimalString DecimalPos DecimalZ.
Import ListNotations.

Set Implicit Arguments.
Set Warnings "-inexact-float".

(** ** JavaScript numbers *)

Definition number := float.

Module JS.
Local Open Scope float_scope.

(** [ToBoolean] on a number: [+0], [-0] and [NaN] are falsy. *)
Definition truthy (x : number) : bool := negb (is_zero x || is_nan x).

(** [a > b], [a >= b] as JavaScript evaluates them (false on [NaN]). *)
Definition gtb (a b : number) : bool := b <? a.
Definition geb (a b : number) : bool := b <=? a.

(** [Math.max(a, b)]: [NaN] if either argument is [NaN], and [+0] is
    larger than [-0]. *)
Definition Math_max (a b : number) : number :=
  if is_nan a || is_nan b then nan
  else if a <? b then b
  else if b <? a then a
  else if get_sign a then b else a.

(** The loop counter [i] of a [for] loop that returns is a whole number
    below 2^32 (the array it fills cannot be longer), so it is carried as an
    integer and converted where the code uses it as a number. *)
Definition of_Z (i : Z) : number := PrimFloat.of_uint63 (Uint63.of_Z i).

(** [s.split("T")[0]]: the part of [s] before the first ["T"]. *)
Fixpoint beforeT (s : string) : string :=
  match s with
  | EmptyString => EmptyString
  | String c rest =>
      if Ascii.eqb c "T"%char then EmptyString else String c (beforeT rest)
  end.
End JS.

(** ** Data model *)

Module MortgageInputs.
Record t := mk {
  loanAmount : number;
  interestRate : number;
  loanTermYears : number;
  propertyTaxAnnual : number;
  homeInsuranceAnnual : number;
  pmiRate : option number;
  hoaFees : option number;
  downPayment : number;
  closingCosts : option number
}.
End MortgageInputs.

Module MortgageCalculation.
Record t := mk {
  loanAmount : number;
  downPayment : number;
  purchasePrice : number;
  principalAndInterest : number;
  propertyTaxMonthly : number;
  homeInsuranceMonthly : number;
  pmiMonthly : number;
  hoaFeesMonthly : number;
  totalMonthlyPayment : number;
  totalInterest : number;
  totalPayments : number;
  totalPMI : number;
  interestRate : number;
  loanTermYears : number;
  monthlyRate : number
}.
End MortgageCalculation.

Module AmortizationEntry.
Record t := mk {
  paymentNumber : number;
  paymentDate : string;
  beginningBalance : number;
  monthlyPayment : number;
  principalPayment : number;
  interestPayment : number;
  endingBalance : number;
  cumulativeInterest : number;
  cumulativePrincipal : number
}.
End AmortizationEntry.

(** ** class MortgageCalculator *)

Section MortgageCalculator.
Local Open Scope float_scope.
Import JS.

(** [Math.pow] of the host. *)
Variable pow : number -> number -> number.

(** The host's [Date]: valid dates, for which [toISOString] does not
    throw, with [getMonth], [setMonth] (which returns the date it has
    changed) and [toISOString].  The start date is always passed in; the
    default [new Date()] is the caller's to supply. *)
Variable Date : Type.
Variable getMonth : Date -> Z.
Variable setMonth : Date -> Z -> Date.
Variable toISOString : Date -> string.

Definition calculateMonthlyPayment (principal annualRate termYears : number)
  : number :=
  let monthlyRate := annualRate / 100 / 12 in
  let numPayments := termYears * 12 in
  if monthlyRate =? 0 then principal / numPayments
  else
    (principal * (monthlyRate * pow (1 + monthlyRate) numPayments)) /
    (pow (1 + monthlyRate) numPayments - 1).

Definition calculateTotalInterest (principal monthlyPayment termYears : number)
  : number :=
  let totalPayments := monthlyPayment * termYears * 12 in
  totalPayments - principal.

Definition calculatePMI (loanAmount pmiRate downPaymentPercent : number)
  : number :=
  if geb downPaymentPercent 20 then 0
  else (loanAmount * pmiRate) / 100 / 12.

Definition calculateMortgage (inputs : MortgageInputs.t) : MortgageCalculation.t :=
  let purchasePrice :=
    MortgageInputs.loanAmount inputs + MortgageInputs.downPayment inputs in
  let downPaymentPercent :=
    (MortgageInputs.downPayment inputs / purchasePrice) * 100 in
  let principalAndInterest :=
    calculateMonthlyPayment (MortgageInputs.loanAmount inputs)
      (MortgageInputs.interestRate inputs)
      (MortgageInputs.loanTermYears inputs) in
  let propertyTaxMonthly := MortgageInputs.propertyTaxAnnual inputs / 12 in
  let homeInsuranceMonthly := MortgageInputs.homeInsuranceAnnual inputs / 12 in
  let pmiMonthly :=
    match MortgageInputs.pmiRate inputs with
    | Some rate =>
        if truthy rate
        then calculatePMI (MortgageInputs.loanAmount inputs) rate
               downPaymentPercent
        else 0
    | None => 0
    end in
  let hoaFeesMonthly :=
    match MortgageInputs.hoaFees inputs with
    | Some fees => if truthy fees then fees else 0
    | None => 0
    end in
  let totalMonthlyPayment :=
    principalAndInterest + propertyTaxMonthly + homeInsuranceMonthly +
    pmiMonthly + hoaFeesMonthly in
  let totalInterest :=
    calculateTotalInterest (MortgageInputs.loanAmount inputs)
      principalAndInterest (MortgageInputs.loanTermYears inputs) in
  let totalPayments :=
    totalMonthlyPayment * MortgageInputs.loanTermYears inputs * 12 in
  let totalPMI := pmiMonthly * MortgageInputs.loanTermYears inputs * 12 in
  {| MortgageCalculation.loanAmount := MortgageInputs.loanAmount inputs;
     MortgageCalculation.downPayment := MortgageInputs.downPayment inputs;
     MortgageCalculation.purchasePrice := purchasePrice;
     MortgageCalculation.principalAndInterest := principalAndInterest;
     MortgageCalculation.propertyTaxMonthly := propertyTaxMonthly;
     MortgageCalculation.homeInsuranceMonthly := homeInsuranceMonthly;
     MortgageCalculation.pmiMonthly := pmiMonthly;
     MortgageCalculation.hoaFeesMonthly := hoaFeesMonthly;
     MortgageCalculation.totalMonthlyPayment := totalMonthlyPayment;
     MortgageCalculation.totalInterest := totalInterest;
     MortgageCalculation.totalPayments := totalPayments;
     MortgageCalculation.totalPMI := totalPMI;
     MortgageCalculation.interestRate := MortgageInputs.interestRate inputs;
     MortgageCalculation.loanTermYears := MortgageInputs.loanTermYears inputs;
     MortgageCalculation.monthlyRate :=
       MortgageInputs.interestRate inputs / 100 / 12 |}.

(** The [for] loop of [generateAmortizationTable], from counter [i] on.
    Each unit of [fuel] pays for one test of [i <= numPayments]; [None]
    means the loop was still running when the fuel ran out (with an
    infinite [numPayments] and a balance that is never paid off the source
    loop does not end). *)
Fixpoint amortizationLoop (monthlyPayment monthlyRate numPayments : number)
    (startDate : Date) (fuel : nat) (i : Z)
    (balance cumulativeInterest cumulativePrincipal : number)
  : option (list AmortizationEntry.t) :=
  match fuel with
  | O => None
  | S fuel' =>
      if of_Z i <=? numPayments then
        let interestPayment := balance * monthlyRate in
        let principalPayment := monthlyPayment - interestPayment in
        let endingBalance := Math_max 0 (balance - principalPayment) in
        let cumulativeInterest := cumulativeInterest + interestPayment in
        let cumulativePrincipal := cumulativePrincipal + principalPayment in
        let paymentDate := setMonth startDate (getMonth startDate + i)%Z in
        let entry :=
          {| AmortizationEntry.paymentNumber := of_Z i;
             AmortizationEntry.paymentDate := beforeT (toISOString paymentDate);
             AmortizationEntry.beginningBalance := balance;
             AmortizationEntry.monthlyPayment := monthlyPayment;
             AmortizationEntry.principalPayment := principalPayment;
             AmortizationEntry.interestPayment := interestPayment;
             AmortizationEntry.endingBalance := endingBalance;
             AmortizationEntry.cumulativeInterest := cumulativeInterest;
             AmortizationEntry.cumulativePrincipal := cumulativePrincipal |} in
        let balance := endingBalance in
        if balance <=? 0.01 then Some [entry]
        else
          option_map (cons entry)
            (amortizationLoop monthlyPayment monthlyRate numPayments startDate
               fuel' (i + 1)%Z balance cumulativeInterest cumulativePrincipal)
      else Some []
  end.

(** The entry the loop body pushes for counter [i], from the running
    balance and cumulative totals (used to state what the loop does). *)
Definition entryOf (monthlyPayment monthlyRate : number) (startDate : Date)
    (i : Z) (balance cumulativeInterest cumulativePrincipal : number)
  : AmortizationEntry.t :=
  let interestPayment := balance * monthlyRate in
  let principalPayment := monthlyPayment - interestPayment in
  let endingBalance := Math_max 0 (balance - principalPayment) in
  let cumulativeInterest := cumulativeInterest + interestPayment in
  let cumulativePrincipal := cumulativePrincipal + principalPayment in
  let paymentDate := setMonth startDate (getMonth startDate + i)%Z in
  {| AmortizationEntry.paymentNumber := of_Z i;
     AmortizationEntry.paymentDate := beforeT (toISOString paymentDate);
     AmortizationEntry.beginningBalance := balance;
     AmortizationEntry.monthlyPayment := monthlyPayment;
     AmortizationEntry.principalPayment := principalPayment;
     AmortizationEntry.interestPayment := interestPayment;
     AmortizationEntry.endingBalance := endingBalance;
     AmortizationEntry.cumulativeInterest := cumulativeInterest;
     AmortizationEntry.cumulativePrincipal := cumulativePrincipal |}.

Definition generateAmortizationTable (fuel : nat) (inputs : MortgageInputs.t)
    (startDate : Date) : option (list AmortizationEntry.t) :=
  let calculation := calculateMortgage inputs in
  let monthlyPayment := MortgageCalculation.principalAndInterest calculation in
  let monthlyRate := MortgageCalculation.monthlyRate calculation in
  let numPayments := MortgageInputs.loanTermYears inputs * 12 in
  amortizationLoop monthlyPayment monthlyRate numPayments startDate fuel 1%Z
    (MortgageInputs.loanAmount inputs) 0 0.

(** [table.find(entry => entry.paymentDate === targetDateStr)]. *)
Definition findByDate (table : list AmortizationEntry.t) (targetDateStr : string)
  : option AmortizationEntry.t :=
  find (fun entry => String.eqb (AmortizationEntry.paymentDate entry) targetDateStr)
    table.

Definition calculatePrincipalPaidByDate (fuel : nat) (inputs : MortgageInputs.t)
    (targetDate startDate : Date) : option number :=
  match generateAmortizationTable fuel inputs startDate with
  | None => None
  | Some amortizationTable =>
      let targetDateStr := beforeT (toISOString targetDate) in
      Some match findByDate amortizationTable targetDateStr with
           | Some entry => AmortizationEntry.cumulativePrincipal entry
           | None => 0
           end
  end.

Definition calculateRemainingBalance (fuel : nat) (inputs : MortgageInputs.t)
    (targetDate startDate : Date) : option number :=
  match generateAmortizationTable fuel inputs startDate with
  | None => None
  | Some amortizationTable =>
      let targetDateStr := beforeT (toISOString targetDate) in
      Some match findByDate amortizationTable targetDateStr with
           | Some entry => AmortizationEntry.endingBalance entry
           | None => MortgageInputs.loanAmount inputs
           end
  end.

Definition calculateInterestPaidByDate (fuel : nat) (inputs : MortgageInputs.t)
    (targetDate startDate : Date) : option number :=
  match generateAmortizationTable fuel inputs startDate with
  | None => None
  | Some amortizationTable =>
      let targetDateStr := beforeT (toISOString targetDate) in
      Some match findByDate amortizationTable targetDateStr with
           | Some entry => AmortizationEntry.cumulativeInterest entry
           | None => 0
           end
  end.
End MortgageCalculator.

(** ** class MortgageUtils *)

Module MortgageUtils.
Local Open Scope float_scope.
Import JS.

Definition interestRateError : string := "Interest rate must be between 0% and 50%".
Definition loanTermError : string := "Loan term must be between 1 and 50 years".
Definition downPaymentNegativeError : string := "Down payment cannot be negative".
Definition downPaymentTooLargeError : string :=
  "Down payment cannot be greater than purchase price".
Definition propertyTaxError : string := "Property tax cannot be negative".
Definition homeInsuranceError : string := "Home insurance cannot be negative".
Definition pmiRateError : string := "PMI rate must be between 0% and 10%".
Definition hoaFeesError : string := "HOA fees cannot be negative".
Definition closingCostsError : string := "Closing costs cannot be negative".

(** [if (cond) errors.push(msg)]. *)
Definition pushIf (cond : bool) (msg : string) (errors : list string)
  : list string :=
  if cond then errors ++ [msg] else errors.

(** [x && test(x)] on an optional number. *)
Definition andOpt (o : option number) (test : number -> bool) : bool :=
  match o with
  | Some x => truthy x && test x
  | None => false
  end.

Definition validateInputs (inputs : MortgageInputs.t) : list string :=
  let errors := [] in
  let errors :=
    pushIf ((MortgageInputs.interestRate inputs <? 0)
            || gtb (MortgageInputs.interestRate inputs) 50)
      interestRateError errors in
  let errors :=
    pushIf ((MortgageInputs.loanTermYears inputs <=? 0)
            || gtb (MortgageInputs.loanTermYears inputs) 50)
      loanTermError errors in
  let errors :=
    pushIf (MortgageInputs.downPayment inputs <? 0)
      downPaymentNegativeError errors in
  let purchasePrice :=
    MortgageInputs.loanAmount inputs + MortgageInputs.downPayment inputs in
  let errors :=
    pushIf (gtb (MortgageInputs.downPayment inputs) purchasePrice)
      downPaymentTooLargeError errors in
  let errors :=
    pushIf (MortgageInputs.propertyTaxAnnual inputs <? 0)
      propertyTaxError errors in
  let errors :=
    pushIf (MortgageInputs.homeInsuranceAnnual inputs <? 0)
      homeInsuranceError errors in
  let errors :=
    pushIf (andOpt (MortgageInputs.pmiRate inputs)
              (fun rate => (rate <? 0) || gtb rate 10))
      pmiRateError errors in
  let errors :=
    pushIf (andOpt (MortgageInputs.hoaFees inputs) (fun fees => fees <? 0))
      hoaFeesError errors in
  let errors :=
    pushIf (andOpt (MortgageInputs.closingCosts inputs) (fun costs => costs <? 0))
      closingCostsError errors in
  errors.

(** The nine checks of [validateInputs], each with its message, in the
    order of the source. *)
Definition checks (inputs : MortgageInputs.t) : list (bool * string) :=
  [ ((MortgageInputs.interestRate inputs <? 0)
     || gtb (MortgageInputs.interestRate inputs) 50, interestRateError);
    ((MortgageInputs.loanTermYears inputs <=? 0)
     || gtb (MortgageInputs.loanTermYears inputs) 50, loanTermError);
    (MortgageInputs.downPayment inputs <? 0, downPaymentNegativeError);
    (gtb (MortgageInputs.downPayment inputs)
       (MortgageInputs.loanAmount inputs + MortgageInputs.downPayment inputs),
     downPaymentTooLargeError);
    (MortgageInputs.propertyTaxAnnual inputs <? 0, propertyTaxError);
    (MortgageInputs.homeInsuranceAnnual inputs <? 0, homeInsuranceError);
    (andOpt (MortgageInputs.pmiRate inputs)
       (fun rate => (rate <? 0) || gtb rate 10), pmiRateError);
    (andOpt (MortgageInputs.hoaFees inputs) (fun fees => fees <? 0),
     hoaFeesError);
    (andOpt (MortgageInputs.closingCosts inputs) (fun costs => costs <? 0),
     closingCostsError) ].

Definition calculateLTV (loanAmount purchasePrice : number) : number :=
  (loanAmount / purchasePrice) * 100.

Definition calculateDTI (monthlyDebtPayments monthlyGrossIncome : number)
  : number :=
  (monthlyDebtPayments / monthlyGrossIncome) * 100.
End MortgageUtils.

(** ** class LocalStorageService *)

(** The service stores and returns its payload ([inputs], [calculation],
    [amortization]) without looking inside, so [SavedScenario] is generic in
    the three payload types. *)
Module SavedScenario.
Record t (Inputs Calculation Amortization : Type) := mk {
  id : string;
  name : string;
  inputs : Inputs;
  calculation : Calculation;
  amortization : Amortization;
  createdAt : string;
  updatedAt : string
}.
End SavedScenario.

Section LocalStorageService.
Variables Inputs Calculation Amortization : Type.

Let Scenario := SavedScenario.t Inputs Calculation Amortization.

(** What [JSON.parse (JSON.stringify v)] yields for a payload value [v]
    (a number that is [NaN] or infinite comes back as [null], for
    instance).  Strings come back unchanged. *)
Variable jsonInputs : Inputs -> Inputs.
Variable jsonCalculation : Calculation -> Calculation.
Variable jsonAmortization : Amortization -> Amortization.

(** Whether [localStorage.setItem] accepts the list (it throws when the
    quota is exceeded). *)
Variable quota : list Scenario -> bool.

Definition jsonScenario (s : Scenario) : Scenario :=
  {| SavedScenario.id := SavedScenario.id s;
     SavedScenario.name := SavedScenario.name s;
     SavedScenario.inputs := jsonInputs (SavedScenario.inputs s);
     SavedScenario.calculation := jsonCalculation (SavedScenario.calculation s);
     SavedScenario.amortization := jsonAmortization (SavedScenario.amortization s);
     SavedScenario.createdAt := SavedScenario.createdAt s;
     SavedScenario.updatedAt := SavedScenario.updatedAt s |}.

(** The item under [STORAGE_KEY]: absent, text that [JSON.parse] rejects,
    or the array of scenarios that parsing it gives. *)
Inductive Item :=
| Missing
| Garbled
| Stored (scenarios : list Scenario).

(** [localStorage.setItem(STORAGE_KEY, JSON.stringify(scenarios))]; [None]
    when it throws. *)
Definition setItem (scenarios : list Scenario) : option Item :=
  if quota scenarios then Some (Stored (map jsonScenario scenarios)) else None.

Definition getAllScenarios (storage : Item) : list Scenario :=
  match storage with
  | Stored scenarios => scenarios
  | Missing | Garbled => []
  end.

(** [`scenario_${Date.now()}`]. *)
Definition scenarioId (nowMs : Z) : string :=
  "scenario_" ++ DecimalString.NilZero.string_of_int (Z.to_int nowMs).

(** [now] is what [new Date().toISOString()] returned and [nowMs] what
    [Date.now()] returned; the result is the scenario returned and the new
    storage, or [None] when [setItem] threw. *)
Definition saveScenario (storage : Item) (now : string) (nowMs : Z)
    (name : string) (inputs : Inputs) (calculation : Calculation)
    (amortization : Amortization) : option (Scenario * Item) :=
  let scenarios := getAllScenarios storage in
  let scenario :=
    {| SavedScenario.id := scenarioId nowMs;
       SavedScenario.name := name;
       SavedScenario.inputs := inputs;
       SavedScenario.calculation := calculation;
       SavedScenario.amortization := amortization;
       SavedScenario.createdAt := now;
       SavedScenario.updatedAt := now |} in
  match setItem (scenarios ++ [scenario]) with
  | Some storage' => Some (scenario, storage')
  | None => None
  end.

Definition getScenario (storage : Item) (id : string) : option Scenario :=
  let scenarios := getAllScenarios storage in
  find (fun s => String.eqb (SavedScenario.id s) id) scenarios.

(** [scenarios.findIndex(pred)]; [None] stands for [-1]. *)
Fixpoint findIndex (pred : Scenario -> bool) (scenarios : list Scenario)
  : option nat :=
  match scenarios with
  | [] => None
  | s :: rest =>
      if pred s then Some O else option_map S (findIndex pred rest)
  end.

(** [scenarios[index] = s] for an index inside the array. *)
Fixpoint assignAt (index : nat) (s : Scenario) (scenarios : list Scenario)
  : list Scenario :=
  match scenarios, index with
  | [], _ => []
  | _ :: rest, O => s :: rest
  | s0 :: rest, S index' => s0 :: assignAt index' s rest
  end.

(** The outer [option] is [None] when [setItem] threw; the inner one is
    the [SavedScenario | null] the method returns.  [scenarios[index]] is
    read at the index [findIndex] found, so the second [None] branch is
    never taken. *)
Definition updateScenario (storage : Item) (now : string) (id : string)
    (name : string) (inputs : Inputs) (calculation : Calculation)
    (amortization : Amortization) : option (option Scenario * Item) :=
  let scenarios := getAllScenarios storage in
  match findIndex (fun s => String.eqb (SavedScenario.id s) id) scenarios with
  | None => Some (None, storage)
  | Some index =>
      match nth_error scenarios index with
      | None => Some (None, storage)
      | Some old =>
          let updatedScenario :=
            {| SavedScenario.id := SavedScenario.id old;
               SavedScenario.name := name;
               SavedScenario.inputs := inputs;
               SavedScenario.calculation := calculation;
               SavedScenario.amortization := amortization;
               SavedScenario.createdAt := SavedScenario.createdAt old;
               SavedScenario.updatedAt := now |} in
          match setItem (assignAt index updatedScenario scenarios) with
          | Some storage' => Some (Some updatedScenario, storage')
          | None => None
          end
      end
  end.

(** [deleteScenario]: the boolean it returns and the storage it leaves;
    [None] when [setItem] threw. *)
Definition deleteScenario (storage : Item) (id : string)
  : option (bool * Item) :=
  let scenarios := getAllScenarios storage in
  let filtered :=
    filter (fun s => negb (String.eqb (SavedScenario.id s) id)) scenarios in
  if Nat.eqb (List.length filtered) (List.length scenarios)
  then Some (false, storage)
  else
    match setItem filtered with
    | Some storage' => Some (true, storage')
    | None => None
    end.

(** [localStorage.removeItem(STORAGE_KEY)]. *)
Definition clearAllScenarios (storage : Item) : Item := Missing.

(** A JSON text as [JSON.parse] reads it: it throws, it gives a value that
    is not an array, or it gives an array, whose elements are taken to be
    scenarios as they are in the stored item. *)
Inductive Text :=
| Unparsable
| NotArray
| ArrayOf (scenarios : list Scenario).

(** [JSON.stringify(scenarios, null, 2)]: a text that parses to the
    scenarios as JSON carries them. *)
Definition exportScenarios (storage : Item) : Text :=
  let scenarios := getAllScenarios storage in
  ArrayOf (map jsonScenario scenarios).

(** [importScenarios]: the boolean it returns and the storage it leaves.
    The [try] covers [setItem], so a write that throws gives [false]. *)
Definition importScenarios (storage : Item) (jsonData : Text) : bool * Item :=
  match jsonData with
  | Unparsable => (false, storage)
  | NotArray => (false, storage)
  | ArrayOf scenarios =>
      match setItem scenarios with
      | Some storage' => (true, storage')
      | None => (false, storage)
      end
  end.
End LocalStorageService.

(** ** The calculator component and the calculator page

    [calculationResult] is the memoised value of
    [MortgageCalculatorComponent]: [null] when validation found errors, the
    calculation and its table otherwise.  The engine throws nothing for the
    valid dates of the model, so the [catch] branch is never taken; the
    outer [option] is [None] when the table's loop ran out of fuel. *)

Module CalculationResult.
Inductive t :=
| Null
| Result (calculation : MortgageCalculation.t)
    (amortization : list AmortizationEntry.t).
End CalculationResult.

Section MortgageCalculatorComponent.
Local Open Scope float_scope.
Import JS.

Variable pow : number -> number -> number.
Variable Date : Type.
Variable getMonth : Date -> Z.
Variable setMonth : Date -> Z -> Date.
Variable toISOString : Date -> string.

(** [today] is the [new Date()] that [generateAmortizationTable] takes as
    its default start date. *)
Definition calculationResult (fuel : nat) (today : Date)
    (inputs : MortgageInputs.t) : option CalculationResult.t :=
  let validationErrors := MortgageUtils.validateInputs inputs in
  if (0 <? List.length validationErrors)%nat then Some CalculationResult.Null
  else
    let calculation := calculateMortgage pow inputs in
    match generateAmortizationTable pow getMonth setMonth toISOString fuel
            inputs today with
    | Some amortization =>
        Some (CalculationResult.Result calculation amortization)
    | None => None
    end.
End MortgageCalculatorComponent.

(** [handleCalculationComplete] of the calculator page: the inputs it puts
    beside a calculation, to be saved with it.  [closingCosts] is not among
    them. *)
Definition handleCalculationComplete (calculation : MortgageCalculation.t)
  : MortgageInputs.t :=
  {| MortgageInputs.loanAmount := MortgageCalculation.loanAmount calculation;
     MortgageInputs.interestRate := MortgageCalculation.interestRate calculation;
     MortgageInputs.loanTermYears :=
       MortgageCalculation.loanTermYears calculation;
     MortgageInputs.propertyTaxAnnual :=
       (MortgageCalculation.propertyTaxMonthly calculation * 12)%float;
     MortgageInputs.homeInsuranceAnnual :=
       (MortgageCalculation.homeInsuranceMonthly calculation * 12)%float;
     MortgageInputs.pmiRate :=
       if JS.gtb (MortgageCalculation.pmiMonthly calculation) 0%float
       then Some (((MortgageCalculation.pmiMonthly calculation * 12)
                   / MortgageCalculation.loanAmount calculation) * 100)%float
       else None;
     MortgageInputs.hoaFees := Some (MortgageCalculation.hoaFeesMonthly calculation);
     MortgageInputs.downPayment := MortgageCalculation.downPayment calculation;
     MortgageInputs.closingCosts := None |}.

(** ** The theme context *)

Module ThemeContext.
Local Open Scope string_scope.

Definition THEMES : list string := ["caramellatte"; "luxury"; "halloween"].

(** [THEMES.includes(theme)]. *)
Definition isValidTheme (theme : string) : bool :=
  existsb (String.eqb theme) THEMES.

(** A call into the browser returns or throws. *)
Inductive Outcome (A : Type) :=
| Returns (a : A)
| Throws.
Arguments Returns {A} a.
Arguments Throws {A}.

(** The browser as the theme code sees it: the item under ["theme"] in
    [localStorage], whether [localStorage.getItem] returns rather than
    throws, and what
    [window.matchMedia("(prefers-color-scheme: dark)").matches] does.  On
    the server there is no [window]: [None]. *)
Record Browser := mkBrowser {
  item : option string;
  readable : bool;
  prefersDark : Outcome bool
}.

Definition getSystemTheme (window : option Browser) : string :=
  match window with
  | None => "caramellatte"
  | Some browser =>
      match prefersDark browser with
      | Returns true => "luxury"
      | Returns false => "caramellatte"
      | Throws => "caramellatte"
      end
  end.

(** [stored && isValidTheme(stored) ? stored : null]: the empty string is
    falsy. *)
Definition getStoredTheme (window : option Browser) : option string :=
  match window with
  | None => None
  | Some browser =>
      if readable browser then
        match item browser with
        | Some stored =>
            if negb (String.eqb stored EmptyString) && isValidTheme stored
            then Some stored else None
        | None => None
        end
      else None
  end.

(** What [ThemeProvider] holds once rendered: the [theme] state, the
    [data-theme] attribute of the document, the item under ["theme"] in
    [localStorage] and the [hasUserSetTheme] flag. *)
Record Provider := mkProvider {
  theme : string;
  dataTheme : string;
  storedItem : option string;
  hasUserSetTheme : bool
}.

(** The provider after its first effects: the state starts as
    ["caramellatte"], the mount effect replaces it by
    [storedTheme || systemTheme], and the theme effect copies it to the
    document.  The theme effect calls [window.matchMedia] outside any
    [try]: when that throws there is no provider, [None]. *)
Definition mount (browser : Browser) : option Provider :=
  let actualTheme :=
    match getStoredTheme (Some browser) with
    | Some storedTheme => storedTheme
    | None => getSystemTheme (Some browser)
    end in
  match prefersDark browser with
  | Returns _ =>
      Some {| theme := actualTheme;
              dataTheme := actualTheme;
              storedItem := item browser;
              hasUserSetTheme := false |}
  | Throws => None
  end.

(** [setTheme(newTheme)]; [writable] tells whether [localStorage.setItem]
    returns rather than throws. *)
Definition setTheme (writable : bool) (newTheme : string) (p : Provider)
  : Provider :=
  if negb (isValidTheme newTheme) then p
  else if writable then
    {| theme := newTheme;
       dataTheme := newTheme;
       storedItem := Some newTheme;
       hasUserSetTheme := true |}
  else
    {| theme := newTheme;
       dataTheme := newTheme;
       storedItem := storedItem p;
       hasUserSetTheme := hasUserSetTheme p |}.

(** The listener for changes of the system colour scheme, when it is
    called. *)
Definition handleChange (matches : bool) (p : Provider) : Provider :=
  if negb (hasUserSetTheme p) then
    let newTheme := if matches then "luxury" else "caramellatte" in
    {| theme := newTheme;
       dataTheme := newTheme;
       storedItem := storedItem p;
       hasUserSetTheme := hasUserSetTheme p |}
  else p.

(** What can happen to a rendered provider: a call of [setTheme], or a
    call of the listener. *)
Inductive Event :=
| SetTheme (writable : bool) (newTheme : string)
| SystemChange (matches : bool).

Definition step (p : Provider) (ev : Event) : Provider :=
  match ev with
  | SetTheme writable newTheme => setTheme writable newTheme p
  | SystemChange matches => handleChange matches p
  end.

Definition run (p : Provider) (events : list Event) : Provider :=
  fold_left step events p.
End ThemeContext.

(** ** The export of a schedule to a sheet *)

Module GoogleSheetsExportService.

(** A cell of a sheet: a number or a string. *)
Inductive Cell :=
| Num (x : number)
| Str (s : string).

(** A call [sheetsService.writeRange(range, values)]. *)
Record Write := mkWrite {
  range : string;
  values : list (list Cell)
}.

(** A whole number inside a template literal. *)
Definition decimal (n : nat) : string :=
  DecimalString.NilZero.string_of_uint (Nat.to_uint n).

Definition headers : list (list Cell) :=
  [ [ Str "Payment #"; Str "Date"; Str "Beginning Balance"; Str "Payment";
      Str "Principal"; Str "Interest"; Str "Ending Balance";
      Str "Cumulative Interest" ] ]%string.

Definition row (entry : AmortizationEntry.t) : list Cell :=
  [ Num (AmortizationEntry.paymentNumber entry);
    Str (AmortizationEntry.paymentDate entry);
    Num (AmortizationEntry.beginningBalance entry);
    Num (AmortizationEntry.monthlyPayment entry);
    Num (AmortizationEntry.principalPayment entry);
    Num (AmortizationEntry.interestPayment entry);
    Num (AmortizationEntry.endingBalance entry);
    Num (AmortizationEntry.cumulativeInterest entry) ].

Definition note : list (list Cell) :=
  [ [ Str "Note: Showing first 100 payments only"; Str EmptyString;
      Str EmptyString; Str EmptyString; Str EmptyString; Str EmptyString;
      Str EmptyString; Str EmptyString ] ]%string.

(** [populateAmortizationSheet]: the calls of [writeRange] it makes, in
    order, when each of them is fulfilled. *)
Definition populateAmortizationSheet (sheetName : string)
    (amortizationTable : list AmortizationEntry.t) : list Write :=
  let limitedData := map row (firstn 100 amortizationTable) in
  [ mkWrite (sheetName ++ "!A30:H30")%string headers ]
  ++ (if (0 <? List.length limitedData)%nat
      then [ mkWrite (sheetName ++ "!A31:H"
                      ++ decimal (30 + List.length limitedData))%string
               limitedData ]
      else [])
  ++ (if (100 <? List.length amortizationTable)%nat
      then [ mkWrite (sheetName ++ "!A"
                      ++ decimal (31 + List.length limitedData)
                      ++ ":H" ++ decimal (31 + List.length limitedData))%string
               note ]
      else []).
End GoogleSheetsExportService.

(** ** Concrete hosts, for evaluating the code on given inputs *)

Module Host.
Local Open Scope float_scope.

(** The whole number a float stands for, when it is one and is not
    negative. *)
Definition wholeNumber (x : number) : option N :=
  match Prim2SF x with
  | S754_zero _ => Some 0%N
  | S754_finite false m e =>
      match e with
      | Z0 => Some (Npos m)
      | Zpos p => Some (Npos (Pos.iter xO m p))
      | Zneg p =>
          let d := Pos.iter xO xH p in
          if (Npos m mod Npos d =? 0)%N then Some (Npos m / Npos d)%N else None
      end
  | _ => None
  end.

(** A stand-in for [Math.pow] on whole, non-negative exponents: the product
    of [exponent] copies of [base], and [NaN] for any other exponent.  Where
    every partial product is a binary64 number (powers of 1, -1, 2 and 1/2
    in range, among others) the product is the exact power, which is what
    [Math.pow] returns there. *)
Definition pow (base exponent : number) : number :=
  match wholeNumber exponent with
  | Some k => N.iter k (fun acc => acc * base) 1
  | None => nan
  end.

(** Calendar dates at midnight on a host whose time zone is UTC, for the
    years 0 to 9999: [month] is 0 to 11 as [getMonth] gives it. *)
Record Date := mkDate { year : Z; month : Z; day : Z }.

Definition isLeapYear (y : Z) : bool :=
  ((y mod 4 =? 0) && negb (y mod 100 =? 0) || (y mod 400 =? 0))%Z.

Definition daysInMonth (y m : Z) : Z :=
  (if m =? 1 then (if isLeapYear y then 29 else 28)
   else if (m =? 3) || (m =? 5) || (m =? 8) || (m =? 10) then 30
   else 31)%Z.

Definition getMonth (d : Date) : Z := month d.

(** [setMonth(m)]: months beyond 0..11 carry into the year, and a day the
    month does not have runs over into the next month. *)
Definition setMonth (d : Date) (m : Z) : Date :=
  let y := (year d + m / 12)%Z in
  let mo := (m mod 12)%Z in
  let dim := daysInMonth y mo in
  if (day d <=? dim)%Z then mkDate y mo (day d)
  else if (mo =? 11)%Z then mkDate (y + 1) 0 (day d - dim)
  else mkDate y (mo + 1) (day d - dim).

Definition digit (n : Z) : ascii := ascii_of_nat (48 + Z.to_nat (n mod 10)).

Definition twoDigits (n : Z) : string :=
  String (digit (n / 10)) (String (digit n) EmptyString).

Definition fourDigits (n : Z) : string :=
  (twoDigits (n / 100) ++ twoDigits n)%string.

Definition toISOString (d : Date) : string :=
  (fourDigits (year d) ++ "-" ++ twoDigits (month d + 1) ++ "-"
   ++ twoDigits (day d) ++ "T00:00:00.000Z")%string.
End Host.

(** ** Notions used to state the properties *)

Section Notions.
Local Open Scope float_scope.
Import JS.

(** The shape of a finite number in [SpecFloat]. *)
Definition SFfinite (x : spec_float) : bool :=
  match x with
  | S754_zero _ | S754_finite _ _ _ => true
  | S754_infinity _ | S754_nan => false
  end.

(** The annuity formula of [calculateMonthlyPayment] is defined for a rate
    and term: the monthly rate is 0 (the guarded case), or the factor
    [r * (1+r)^n] is finite and the denominator [(1+r)^n - 1] is a number
    other than 0. *)
Definition annuityDefined (pow : number -> number -> number)
    (annualRate termYears : number) : bool :=
  let r := annualRate / 100 / 12 in
  let n := termYears * 12 in
  (r =? 0)
  || (is_finite (r * pow (1 + r) n)
      && negb (is_nan (pow (1 + r) n - 1))
      && negb (is_zero (pow (1 + r) n - 1))).

(** What an amortization entry records about its own period. *)
Definition entryStep (monthlyPayment monthlyRate : number)
    (e : AmortizationEntry.t) : Prop :=
  AmortizationEntry.monthlyPayment e = monthlyPayment
  /\ AmortizationEntry.interestPayment e =
     AmortizationEntry.beginningBalance e * monthlyRate
  /\ AmortizationEntry.principalPayment e =
     AmortizationEntry.monthlyPayment e - AmortizationEntry.interestPayment e
  /\ AmortizationEntry.endingBalance e =
     Math_max 0 (AmortizationEntry.beginningBalance e
                 - AmortizationEntry.principalPayment e).
End Notions.

(** ** Further notions *)

(** The nine messages of [validateInputs], in the order of its checks. *)
Definition validationMessages : list string :=
  [ MortgageUtils.interestRateError; MortgageUtils.loanTermError;
    MortgageUtils.downPaymentNegativeError;
    MortgageUtils.downPaymentTooLargeError; MortgageUtils.propertyTaxError;
    MortgageUtils.homeInsuranceError; MortgageUtils.pmiRateError;
    MortgageUtils.hoaFeesError; MortgageUtils.closingCostsError ].

(** [errors.includes(msg)]. *)
Definition includes (errors : list string) (msg : string) : bool :=
  existsb (String.eqb msg) errors.

(** The numbers of an amortization entry, without its date. *)
Definition amounts (e : AmortizationEntry.t) : list number :=
  [ AmortizationEntry.paymentNumber e; AmortizationEntry.beginningBalance e;
    AmortizationEntry.monthlyPayment e; AmortizationEntry.principalPayment e;
    AmortizationEntry.interestPayment e; AmortizationEntry.endingBalance e;
    AmortizationEntry.cumulativeInterest e;
    AmortizationEntry.cumulativePrincipal e ].

(** ** Sample inputs *)

Module Sample.
Local Open Scope float_scope.

(** The engine on the concrete host. *)
Definition generate :=
  generateAmortizationTable Host.pow Host.getMonth Host.setMonth
    Host.toISOString.

Definition loan (loanAmount interestRate loanTermYears downPayment : number)
    (pmiRate : option number) : MortgageInputs.t :=
  {| MortgageInputs.loanAmount := loanAmount;
     MortgageInputs.interestRate := interestRate;
     MortgageInputs.loanTermYears := loanTermYears;
     MortgageInputs.propertyTaxAnnual := 3600;
     MortgageInputs.homeInsuranceAnnual := 1200;
     MortgageInputs.pmiRate := pmiRate;
     MortgageInputs.hoaFees := Some 100;
     MortgageInputs.downPayment := downPayment;
     MortgageInputs.closingCosts := Some 5000 |}.

(** The inputs of the specification's worked example. *)
Definition knownGood : MortgageInputs.t := loan 300000 6.5 30 60000 (Some 0.5).

(** 12000 over one year at 6 %. *)
Definition oneYear : MortgageInputs.t := loan 12000 6 1 3000 (Some 0.5).

(** 1000 over one year at -600 %: [1 + r] is 1/2, whose powers are exact. *)
Definition negativeRate : MortgageInputs.t := loan 1000 (-600) 1 0 None.

(** 1000 at 0 % over 1.05 years, 12.6 payments. *)
Definition fractionalTerm : MortgageInputs.t := loan 1000 0 1.05 0 None.

(** A down payment one unit in the last place short of 20 % of a purchase
    price of 262144. *)
Definition nearThreshold : MortgageInputs.t :=
  loan 209715.2 6.5 30 52428.799999999996 (Some 0.5).

(** A half-year loan with otherwise ordinary inputs. *)
Definition halfYear : MortgageInputs.t := loan 300000 6.5 0.5 60000 (Some 0.5).

(** Cash purchases (no loan): at an ordinary rate, at -2400 % (where
    [1 + r] is -1) and at a rate so small that [1 + r] rounds to 1. *)
Definition cashPurchase : MortgageInputs.t := loan 0 6.5 30 300000 (Some 0.5).
Definition cashPurchaseOddRate : MortgageInputs.t :=
  loan 0 (-2400) 1 300000 (Some 0.5).
Definition cashPurchaseTinyRate : MortgageInputs.t :=
  loan 0 1e-14 1 300000 (Some 0.5).

Definition startDate : Host.Date := Host.mkDate 2024 0 31.

(** The schedule of [oneYear] from 31 January 2024. *)
Definition oneYearTable : list AmortizationEntry.t :=
  Eval vm_compute in
    match generate 13 oneYear startDate with
    | Some table => table
    | None => []
    end.

(** The schedule of [cashPurchase]. *)
Definition cashTable : list AmortizationEntry.t :=
  Eval vm_compute in
    match generate 2 cashPurchase startDate with
    | Some table => table
    | None => []
    end.

(** Scenario storage with payloads that JSON carries unchanged and no
    quota. *)
Definition Scenario : Type :=
  SavedScenario.t MortgageInputs.t MortgageCalculation.t
    (list AmortizationEntry.t).

Definition save :=
  saveScenario (fun x : MortgageInputs.t => x)
    (fun x : MortgageCalculation.t => x)
    (fun x : list AmortizationEntry.t => x)
    (fun _ : list Scenario => true).

Definition update :=
  updateScenario (fun x : MortgageInputs.t => x)
    (fun x : MortgageCalculation.t => x)
    (fun x : list AmortizationEntry.t => x)
    (fun _ : list Scenario => true).

Definition clock : string := "2024-01-31T12:00:00.000Z".
Definition laterClock : string := "2024-02-01T08:30:00.000Z".
Definition clockMs : Z := 1706702400000.

(** The one-year loan as [saveScenario] stores it at [clock], and as
    [updateScenario] leaves it at [laterClock] under a new name. *)
Definition savedScenario : Scenario :=
  {| SavedScenario.id := "scenario_1706702400000";
     SavedScenario.name := "Starter home";
     SavedScenario.inputs := oneYear;
     SavedScenario.calculation := calculateMortgage Host.pow oneYear;
     SavedScenario.amortization := oneYearTable;
     SavedScenario.createdAt := clock;
     SavedScenario.updatedAt := clock |}.

Definition updatedScenario : Scenario :=
  {| SavedScenario.id := "scenario_1706702400000";
     SavedScenario.name := "First home";
     SavedScenario.inputs := oneYear;
     SavedScenario.calculation := calculateMortgage Host.pow oneYear;
     SavedScenario.amortization := oneYearTable;
     SavedScenario.createdAt := clock;
     SavedScenario.updatedAt := laterClock |}.

(** Inputs whose every number is [NaN], the worked example with a rate of
    [NaN], and a term of 0.05 years, which is 0.6 payments. *)
Definition allNaN : MortgageInputs.t :=
  {| MortgageInputs.loanAmount := nan;
     MortgageInputs.interestRate := nan;
     MortgageInputs.loanTermYears := nan;
     MortgageInputs.propertyTaxAnnual := nan;
     MortgageInputs.homeInsuranceAnnual := nan;
     MortgageInputs.pmiRate := Some nan;
     MortgageInputs.hoaFees := Some nan;
     MortgageInputs.downPayment := nan;
     MortgageInputs.closingCosts := Some nan |}.
Definition nanRate : MortgageInputs.t := loan 300000 nan 30 60000 (Some 0.5).
Definition shortTerm : MortgageInputs.t := loan 300000 6.5 0.05 60000 (Some 0.5).

Definition otherDate : Host.Date := Host.mkDate 2025 5 15.

(** A store that holds [savedScenario] alone, and what is left of it when
    that scenario is deleted. *)
Definition Store : Type :=
  Item MortgageInputs.t MortgageCalculation.t (list AmortizationEntry.t).

Definition delete :=
  deleteScenario (fun x : MortgageInputs.t => x)
    (fun x : MortgageCalculation.t => x)
    (fun x : list AmortizationEntry.t => x)
    (fun _ : list Scenario => true).

Definition import :=
  importScenarios (fun x : MortgageInputs.t => x)
    (fun x : MortgageCalculation.t => x)
    (fun x : list AmortizationEntry.t => x)
    (fun _ : list Scenario => true).

Definition export :=
  exportScenarios (fun x : MortgageInputs.t => x)
    (fun x : MortgageCalculation.t => x)
    (fun x : list AmortizationEntry.t => x).

Definition oneScenario : Store := Stored [savedScenario].
Definition emptied : Store := Stored [].

(** A second scenario, saved a second later. *)
Definition secondClock : string := "2024-01-31T12:00:01.000Z".
Definition secondClockMs : Z := 1706702401000.
Definition secondScenario : Scenario :=
  {| SavedScenario.id := "scenario_1706702401000";
     SavedScenario.name := "Cash offer";
     SavedScenario.inputs := cashPurchase;
     SavedScenario.calculation := calculateMortgage Host.pow cashPurchase;
     SavedScenario.amortization := cashTable;
     SavedScenario.createdAt := secondClock;
     SavedScenario.updatedAt := secondClock |}.
Definition twoScenarios : Store := Stored [savedScenario; secondScenario].

(** The worked example with a rate of 55 % and a term of 0 years. *)
Definition twoErrors : MortgageInputs.t := loan 300000 55 0 60000 (Some 0.5).

(** A browser that prefers dark and has ["halloween"] stored, the same
    with an item that is no theme, the provider mounted in the latter, and
    what may happen to a provider:
    a theme that does not exist, the colour-scheme listener, a theme that
    is stored, the listener again. *)
Definition browser : ThemeContext.Browser :=
  ThemeContext.mkBrowser (Some "halloween"%string) true
    (ThemeContext.Returns true).
Definition strangeBrowser : ThemeContext.Browser :=
  ThemeContext.mkBrowser (Some "neon"%string) true (ThemeContext.Returns true).
Definition mounted : ThemeContext.Provider :=
  {| ThemeContext.theme := "luxury";
     ThemeContext.dataTheme := "luxury";
     ThemeContext.storedItem := Some "neon"%string;
     ThemeContext.hasUserSetTheme := false |}.
Definition events : list ThemeContext.Event :=
  [ ThemeContext.SetTheme true "neon"%string;
    ThemeContext.SystemChange false;
    ThemeContext.SetTheme true "halloween"%string;
    ThemeContext.SystemChange true ].
End Sample.

(** * Properties *)

Unset Implicit Arguments.

(** ** Binary64 facts used below, from the specification in [SpecFloat] *)

Section FloatFacts.
Local Open Scope float_scope.

Lemma SFcompare_refl (x : spec_float) :
  x <> S754_nan -> SFcompare x x = Some Eq.
Proof.
  destruct x as [s | s | | s m e]; simpl; intros H; try congruence.
  - destruct s; reflexivity.
  - destruct s; rewrite Z.compare_refl, Pos.compare_cont_refl; reflexivity.
Qed.

Lemma is_nan_spec (x : number) :
  is_nan x = true <-> Prim2SF x = S754_nan.
Proof.
  unfold is_nan. rewrite eqb_spec. unfold SFeqb. split.
  - destruct (Prim2SF x) eqn:E; try reflexivity;
      rewrite SFcompare_refl by discriminate; discriminate.
  - intros ->. reflexivity.
Qed.

Lemma is_nan_false_spec (x : number) :
  is_nan x = false <-> Prim2SF x <> S754_nan.
Proof.
  rewrite <- is_nan_spec. destruct (is_nan x); split; congruence.
Qed.

Lemma Prim2SF_zero : Prim2SF 0 = S754_zero false.
Proof. reflexivity. Qed.

Lemma is_zero_spec (x : number) :
  is_zero x = true <-> exists s, Prim2SF x = S754_zero s.
Proof.
  unfold is_zero. rewrite eqb_spec. change (Prim2SF zero) with (S754_zero false).
  unfold SFeqb. split.
  - destruct (Prim2SF x) as [s | s | | s m e]; simpl; try discriminate.
    + eauto.
    + destruct s; discriminate.
    + destruct s; discriminate.
  - intros [s ->]. reflexivity.
Qed.

Lemma is_infinity_spec (x : number) :
  is_infinity x = true <-> exists s, Prim2SF x = S754_infinity s.
Proof.
  unfold is_infinity. rewrite eqb_spec, abs_spec.
  change (Prim2SF infinity) with (S754_infinity false).
  unfold SFeqb. split.
  - destruct (Prim2SF x) as [s | s | | s m e]; simpl; try discriminate; eauto.
  - intros [s ->]. reflexivity.
Qed.

Lemma is_finite_spec (x : number) : is_finite x = SFfinite (Prim2SF x).
Proof.
  unfold is_finite.
  destruct (Prim2SF x) as [s | s | | s m e] eqn:E; simpl.
  - assert (Hn : is_nan x = false) by (apply is_nan_false_spec; congruence).
    assert (Hi : is_infinity x = false).
    { destruct (is_infinity x) eqn:Hi; [|reflexivity].
      apply is_infinity_spec in Hi. destruct Hi; congruence. }
    rewrite Hn, Hi. reflexivity.
  - assert (Hi : is_infinity x = true) by (apply is_infinity_spec; eauto).
    rewrite Hi, orb_true_r. reflexivity.
  - assert (Hn : is_nan x = true) by (apply is_nan_spec; assumption).
    rewrite Hn. reflexivity.
  - assert (Hn : is_nan x = false) by (apply is_nan_false_spec; congruence).
    assert (Hi : is_infinity x = false).
    { destruct (is_infinity x) eqn:Hi; [|reflexivity].
      apply is_infinity_spec in Hi. destruct Hi; congruence. }
    rewrite Hn, Hi. reflexivity.
Qed.

Lemma is_zero_finite (x : number) : is_zero x = true -> is_finite x = true.
Proof.
  intros [s Hs]%is_zero_spec. rewrite is_finite_spec, Hs. reflexivity.
Qed.

Lemma is_zero_not_nan (x : number) : is_zero x = true -> is_nan x = false.
Proof.
  intros [s Hs]%is_zero_spec. apply is_nan_false_spec. congruence.
Qed.

(** A zero times a finite number is a zero. *)
Lemma mul_zero_l (z x : number) :
  is_zero z = true -> is_finite x = true -> is_zero (z * x) = true.
Proof.
  intros [s Hs]%is_zero_spec Hx. rewrite is_finite_spec in Hx.
  apply is_zero_spec. rewrite mul_spec, Hs. unfold SF64mul.
  destruct (Prim2SF x) as [s' | s' | | s' m e]; simpl in *;
    try discriminate; eauto.
Qed.

Lemma mul_zero_r (x z : number) :
  is_finite x = true -> is_zero z = true -> is_zero (x * z) = true.
Proof.
  intros Hx [s Hs]%is_zero_spec. rewrite is_finite_spec in Hx.
  apply is_zero_spec. rewrite mul_spec, Hs. unfold SF64mul.
  destruct (Prim2SF x) as [s' | s' | | s' m e]; simpl in *;
    try discriminate; eauto.
Qed.

(** A zero divided by a number other than zero is a zero. *)
Lemma div_zero_l (z x : number) :
  is_zero z = true -> is_nan x = false -> is_zero x = false ->
  is_zero (z / x) = true.
Proof.
  intros [s Hs]%is_zero_spec Hn Hz. apply is_nan_false_spec in Hn.
  apply is_zero_spec. rewrite div_spec, Hs. unfold SF64div.
  destruct (Prim2SF x) as [s' | s' | | s' m e] eqn:E; simpl; eauto.
  - assert (is_zero x = true) by (apply is_zero_spec; eauto). congruence.
  - congruence.
Qed.

Lemma sub_zero_zero (a b : number) :
  is_zero a = true -> is_zero b = true -> is_zero (a - b) = true.
Proof.
  intros [s Hs]%is_zero_spec [s' Hs']%is_zero_spec.
  apply is_zero_spec. rewrite sub_spec, Hs, Hs'.
  destruct s, s'; simpl; eauto.
Qed.

(** Added to [+0], a zero of either sign gives [+0] itself. *)
Lemma add_pos_zero_l (z : number) : is_zero z = true -> 0 + z = 0.
Proof.
  intros [s Hs]%is_zero_spec. apply Prim2SF_inj.
  rewrite add_spec, Hs, Prim2SF_zero. destruct s; reflexivity.
Qed.

Lemma eqb_zero_zero (a b : number) :
  is_zero a = true -> is_zero b = true -> (a =? b) = true.
Proof.
  intros [s Hs]%is_zero_spec [s' Hs']%is_zero_spec.
  rewrite eqb_spec, Hs, Hs'. reflexivity.
Qed.

Lemma ltb_zero_zero (a b : number) :
  is_zero a = true -> is_zero b = true -> (a <? b) = false.
Proof.
  intros [s Hs]%is_zero_spec [s' Hs']%is_zero_spec.
  rewrite ltb_spec, Hs, Hs'. reflexivity.
Qed.

(** [Math.max(0, z)] is [+0] for a zero [z] of either sign. *)
Lemma Math_max_zero (z : number) :
  is_zero z = true -> JS.Math_max 0 z = 0.
Proof.
  intros Hz. unfold JS.Math_max.
  rewrite (is_zero_not_nan _ Hz).
  rewrite (ltb_zero_zero 0 z), (ltb_zero_zero z 0) by (assumption || reflexivity).
  reflexivity.
Qed.

(** A finite product has finite factors. *)
Lemma mul_finite_l (a b : number) :
  is_finite (a * b) = true -> is_finite a = true.
Proof.
  rewrite !is_finite_spec, mul_spec. unfold SF64mul.
  destruct (Prim2SF a) as [s | s | | s m e];
    destruct (Prim2SF b) as [s' | s' | | s' m' e']; simpl; congruence.
Qed.

(** A number that 1 does not exceed is neither [NaN] nor a zero. *)
Lemma one_leb_not_nan (x : number) : (1 <=? x) = true -> is_nan x = false.
Proof.
  rewrite leb_spec. intros H. apply is_nan_false_spec. intros E.
  rewrite E in H. discriminate.
Qed.

Lemma one_leb_not_zero (x : number) : (1 <=? x) = true -> is_zero x = false.
Proof.
  rewrite leb_spec. intros H. destruct (is_zero x) eqn:Hz; [|reflexivity].
  apply is_zero_spec in Hz. destruct Hz as [s Hs]. rewrite Hs in H.
  discriminate.
Qed.
End FloatFacts.

(** ** How far rounding can move a product

    [SpecFloat] rounds a product in two steps, [shr_fexp] before and after
    [round_nearest_even].  The lemmas below bound the exponent and the
    mantissa that come out, enough to compare [t * 12] and [x * 100] with
    constants. *)

Section Magnitude.
Local Open Scope Z_scope.

(** A positive [p] has exactly [digits2_pos p] binary digits. *)
Lemma digits2_pos_bounds (p : positive) :
  2 ^ (Zpos (digits2_pos p) - 1) <= Zpos p < 2 ^ Zpos (digits2_pos p).
Proof.
  induction p as [p IH | p IH | ]; simpl digits2_pos.
  - rewrite Pos2Z.inj_succ.
    replace (Z.succ (Zpos (digits2_pos p)) - 1) with (Z.succ (Zpos (digits2_pos p) - 1)) by lia.
    rewrite !Z.pow_succ_r by lia. lia.
  - rewrite Pos2Z.inj_succ.
    replace (Z.succ (Zpos (digits2_pos p)) - 1) with (Z.succ (Zpos (digits2_pos p) - 1)) by lia.
    rewrite !Z.pow_succ_r by lia. lia.
  - simpl. lia.
Qed.

(** [shr_1] halves a mantissa; [iter_pos shr_1 n] divides it by [2 ^ n]. *)
Lemma shr_m_shr_1 (mrs : shr_record) :
  0 <= shr_m mrs -> shr_m (shr_1 mrs) = shr_m mrs / 2.
Proof.
  destruct mrs as [m r s]. cbn [shr_1 shr_m]. intros Hm.
  destruct m as [|[p|p|]|p]; cbn [shr_m]; try reflexivity; try lia.
  - apply Z.div_unique with 1; lia.
  - apply Z.div_unique with 0; lia.
Qed.

Lemma shr_m_iter_pos (n : positive) :
  forall mrs, 0 <= shr_m mrs ->
    shr_m (iter_pos shr_1 n mrs) = shr_m mrs / 2 ^ Zpos n.
Proof.
  assert (Hpow : forall k, 0 < 2 ^ Zpos k) by (intros; apply Z.pow_pos_nonneg; lia).
  induction n as [n IH | n IH | ]; intros mrs Hm; simpl iter_pos.
  - assert (H1 : 0 <= shr_m (shr_1 mrs)).
    { rewrite shr_m_shr_1 by assumption. apply Z.div_pos; lia. }
    assert (H2 : 0 <= shr_m (iter_pos shr_1 n (shr_1 mrs))).
    { rewrite IH by assumption. apply Z.div_pos; [lia|apply Hpow]. }
    rewrite IH, IH, shr_m_shr_1 by assumption.
    assert (Hp : 2 ^ Zpos n~1 = 2 * 2 ^ Zpos n * 2 ^ Zpos n).
    { change (Zpos n~1) with (2 * Zpos n + 1).
      replace (2 * Zpos n + 1) with (1 + Zpos n + Zpos n) by lia.
      rewrite !Z.pow_add_r by lia. reflexivity. }
    rewrite Hp. pose proof (Hpow n).
    rewrite !Z.div_div by lia. f_equal; lia.
  - assert (H2 : 0 <= shr_m (iter_pos shr_1 n mrs)).
    { rewrite IH by assumption. apply Z.div_pos; [lia|apply Hpow]. }
    rewrite IH, IH by assumption.
    assert (Hp : 2 ^ Zpos n~0 = 2 ^ Zpos n * 2 ^ Zpos n).
    { change (Zpos n~0) with (2 * Zpos n). apply Z.pow_twice_r. }
    rewrite Hp. pose proof (Hpow n).
    rewrite !Z.div_div by lia. f_equal; lia.
  - rewrite shr_m_shr_1 by assumption. reflexivity.
Qed.

(** The number of digits against powers of two. *)
Lemma digits2_pos_lower (M : positive) (k : Z) :
  2 ^ k <= Zpos M -> k < Zpos (digits2_pos M).
Proof.
  intros Hk. destruct (digits2_pos_bounds M) as [_ Hup].
  destruct (Z.lt_ge_cases k (Zpos (digits2_pos M))) as [Hlt|Hge]; [exact Hlt|].
  exfalso. assert (2 ^ Zpos (digits2_pos M) <= 2 ^ k)
    by (apply Z.pow_le_mono_r; lia). lia.
Qed.

Lemma shr_m_of_loc (m : Z) (l : location) : shr_m (shr_record_of_loc m l) = m.
Proof. destruct l as [|[]]; reflexivity. Qed.

(** Above the subnormal range [shr_fexp] leaves a positive mantissa and
    loses no magnitude. *)
Lemma shr_fexp_pos (M : positive) (E : Z) (l : location) :
  emin <= Zpos (digits2_pos M) + E - prec ->
  exists mrs e' m',
    shr_fexp prec emax (Zpos M) E l = (mrs, e')
    /\ shr_m mrs = Zpos m'
    /\ Zpos (digits2_pos M) + E - prec <= e'
    /\ Zpos (digits2_pos M) + E <= Zpos (digits2_pos m') + e'.
Proof.
  intros Hmin. unfold shr_fexp, fexp. cbn [Zdigits2].
  set (d := Zpos (digits2_pos M)) in *.
  replace (Z.sub (Z.max (Z.sub (Z.add d E) prec) emin) E) with (d - prec)
    by (unfold emin in *; lia).
  destruct (digits2_pos_bounds M) as [Hlow Hup]. fold d in Hlow, Hup.
  destruct (d - prec) as [|p|p] eqn:Hn; cbn [shr].
  - exists (shr_record_of_loc (Zpos M) l), E, M.
    rewrite shr_m_of_loc. repeat split; fold d; lia.
  - assert (Hq : 2 ^ (d - 1 - Zpos p) <= Zpos M / 2 ^ Zpos p).
    { apply Z.div_le_lower_bound; [apply Z.pow_pos_nonneg; lia|].
      rewrite <- Z.pow_add_r by (unfold prec in *; lia).
      replace (Zpos p + (d - 1 - Zpos p)) with (d - 1) by lia. exact Hlow. }
    assert (Hpos : 0 < 2 ^ (d - 1 - Zpos p))
      by (apply Z.pow_pos_nonneg; unfold prec in *; lia).
    destruct (Zpos M / 2 ^ Zpos p) as [|m'|m'] eqn:Hdiv; try lia.
    exists (iter_pos shr_1 p (shr_record_of_loc (Zpos M) l)), (E + Zpos p), m'.
    rewrite shr_m_iter_pos by (rewrite shr_m_of_loc; lia).
    rewrite shr_m_of_loc, Hdiv.
    pose proof (digits2_pos_lower m' _ Hq).
    repeat split; lia.
  - exists (shr_record_of_loc (Zpos M) l), E, M.
    rewrite shr_m_of_loc. repeat split; fold d; lia.
Qed.

(** Rounding to nearest even never lowers a mantissa. *)
Lemma round_nearest_even_pos (m : positive) (l : location) :
  exists m', round_nearest_even (Zpos m) l = Zpos m' /\ Zpos m <= Zpos m'.
Proof.
  destruct l as [|[]]; cbn [round_nearest_even];
    try (exists m; split; [reflexivity|lia]).
  - destruct (Z.even (Zpos m)); [exists m; split; [reflexivity|lia]|].
    exists (m + 1)%positive. split; [reflexivity|lia].
  - exists (m + 1)%positive. split; [reflexivity|lia].
Qed.

Lemma digits2_pos_mono (a b : positive) :
  Zpos a <= Zpos b -> Zpos (digits2_pos a) <= Zpos (digits2_pos b).
Proof.
  intros Hab. destruct (digits2_pos_bounds a) as [Hlow _].
  assert (H := digits2_pos_lower b (Zpos (digits2_pos a) - 1)).
  lia.
Qed.

(** Above the subnormal range a positive mantissa rounds to an infinity or
    to a finite number whose exponent is at least the canonical one. *)
Lemma binary_round_aux_pos (s : bool) (M : positive) (E : Z) (l : location) :
  emin <= Zpos (digits2_pos M) + E - prec ->
  binary_round_aux prec emax s (Zpos M) E l = S754_infinity s
  \/ exists m' e',
       binary_round_aux prec emax s (Zpos M) E l = S754_finite s m' e'
       /\ Zpos (digits2_pos M) + E - prec <= e'.
Proof.
  intros Hmin. unfold binary_round_aux.
  destruct (shr_fexp_pos M E l Hmin) as (mrs & e1 & m1 & -> & Hm1 & He1 & Hd1).
  rewrite Hm1.
  destruct (round_nearest_even_pos m1 (loc_of_shr_record mrs))
    as (m2 & -> & Hm2).
  apply digits2_pos_mono in Hm2.
  assert (Hmin2 : emin <= Zpos (digits2_pos m2) + e1 - prec) by lia.
  destruct (shr_fexp_pos m2 e1 loc_Exact Hmin2)
    as (mrs' & e2 & m3 & -> & -> & He2 & Hd2).
  destruct (Z.leb e2 (Z.sub emax prec)); [right|now left].
  exists m3, e2. split; [reflexivity|lia].
Qed.

(** A term of at least one year has at least one payment. *)
Lemma one_leb_mul_twelve (t : number) :
  (1 <=? t)%float = true -> (1 <=? t * 12)%float = true.
Proof.
  rewrite !leb_spec, mul_spec. pose proof (Prim2SF_valid t) as Hvalid.
  change (Prim2SF 1) with (S754_finite false 4503599627370496 (-52)).
  change (Prim2SF 12) with (S754_finite false 6755399441055744 (-49)).
  destruct (Prim2SF t) as [s | s | | s m e]; try discriminate.
  - destruct s; [discriminate|]. reflexivity.
  - destruct s; [discriminate|]. intros Hle.
    assert (He : -52 <= e).
    { unfold SFleb in Hle. cbn [SFcompare] in Hle.
      destruct (Z.compare_spec (-52) e); try lia; discriminate. }
    cbn [valid_binary] in Hvalid. unfold bounded, canonical_mantissa, fexp in Hvalid.
    apply andb_prop in Hvalid. destruct Hvalid as [Hcanon _].
    apply Z.eqb_eq in Hcanon. unfold emin, prec, emax in Hcanon.
    assert (Hd : Zpos (digits2_pos m) = 53) by lia.
    destruct (digits2_pos_bounds m) as [Hm _]. rewrite Hd in Hm.
    unfold SF64mul, SFmul. cbn [xorb].
    set (M := (m * 6755399441055744)%positive).
    assert (HM : 104 < Zpos (digits2_pos M)).
    { apply digits2_pos_lower. unfold M. rewrite Pos2Z.inj_mul.
      change (2 ^ 104) with (2 ^ 52 * 2 ^ 52). change (2 ^ (53 - 1)) with (2 ^ 52) in Hm.
      apply Z.mul_le_mono_nonneg; lia. }
    destruct (binary_round_aux_pos false M (e + -49) loc_Exact)
      as [-> | (m' & e' & -> & He')].
    + unfold emin, prec, emax. lia.
    + reflexivity.
    + unfold SFleb. cbn [SFcompare].
      unfold prec in He'.
      destruct (Z.compare_spec (-52) e'); try lia; reflexivity.
Qed.

Lemma digits2_pos_upper (M : positive) (k : Z) :
  Zpos M < 2 ^ k -> Zpos (digits2_pos M) <= k.
Proof.
  intros Hk. destruct (digits2_pos_bounds M) as [Hlow _].
  destruct (Z.le_gt_cases (Zpos (digits2_pos M)) k) as [Hle|Hgt]; [exact Hle|].
  exfalso. assert (2 ^ k <= 2 ^ (Zpos (digits2_pos M) - 1))
    by (apply Z.pow_le_mono_r; lia). lia.
Qed.

(** The exponent [shr_fexp] settles on, and the size of the mantissa it leaves. *)
Lemma shr_fexp_upper (M : positive) (E : Z) (l : location) :
  exists mrs e',
    shr_fexp prec emax (Zpos M) E l = (mrs, e')
    /\ 0 <= shr_m mrs < 2 ^ prec
    /\ e' <= Z.max E (Z.max (Zpos (digits2_pos M) + E - prec) emin).
Proof.
  unfold shr_fexp, fexp. cbn [Zdigits2].
  set (d := Zpos (digits2_pos M)) in *.
  destruct (digits2_pos_bounds M) as [Hlow Hup]. fold d in Hlow, Hup.
  set (n := Z.sub (Z.max (Z.sub (Z.add d E) prec) emin) E).
  assert (Hn : d - prec <= n) by (unfold n; lia).
  assert (Hn' : n = Z.max (d + E - prec) emin - E) by reflexivity.
  destruct n as [|p|p] eqn:En; cbn [shr].
  - eexists. eexists. split; [reflexivity|]. rewrite shr_m_of_loc. split; [|lia].
    split; [lia|]. apply Z.lt_le_trans with (2 ^ d); [exact Hup|].
    apply Z.pow_le_mono_r; lia.
  - eexists. eexists. split; [reflexivity|].
    rewrite shr_m_iter_pos by (rewrite shr_m_of_loc; lia).
    rewrite shr_m_of_loc. split; [|lia]. split.
    + apply Z.div_pos; [lia | apply Z.pow_pos_nonneg; lia].
    + apply Z.div_lt_upper_bound; [apply Z.pow_pos_nonneg; lia|].
      rewrite <- Z.pow_add_r by (unfold prec; lia).
      apply Z.lt_le_trans with (2 ^ d); [exact Hup|].
      apply Z.pow_le_mono_r; lia.
  - eexists. eexists. split; [reflexivity|]. rewrite shr_m_of_loc. split; [|lia].
    split; [lia|]. apply Z.lt_le_trans with (2 ^ d); [exact Hup|].
    apply Z.pow_le_mono_r; lia.
Qed.

(** A zero mantissa stays zero. *)
Lemma shr_fexp_zero (E : Z) (l : location) :
  exists mrs e', shr_fexp prec emax 0 E l = (mrs, e') /\ shr_m mrs = 0.
Proof.
  unfold shr_fexp. destruct (Z.sub _ E) as [|p|p]; cbn [shr];
    eexists; eexists; (split; [reflexivity|]);
    try apply shr_m_of_loc.
  rewrite shr_m_iter_pos by (rewrite shr_m_of_loc; lia).
  rewrite shr_m_of_loc. apply Z.div_0_l.
  apply Z.pow_nonzero; lia.
Qed.

(** Rounding to nearest even raises a mantissa by at most one. *)
Lemma round_nearest_even_upper (m : Z) (l : location) :
  0 <= m -> 0 <= round_nearest_even m l <= m + 1.
Proof.
  intros Hm. destruct l as [|[]]; cbn [round_nearest_even];
    try destruct (Z.even m); lia.
Qed.

(** Rounding a positive mantissa whose exponent is bounded gives a zero or a
    finite number whose exponent is bounded. *)
Lemma binary_round_aux_upper (s : bool) (M : positive) (E : Z) (l : location) :
  let b := Z.max E (Z.max (Zpos (digits2_pos M) + E - prec) emin) in
  b + 1 <= emax - prec ->
  binary_round_aux prec emax s (Zpos M) E l = S754_zero s
  \/ exists m' e',
       binary_round_aux prec emax s (Zpos M) E l = S754_finite s m' e'
       /\ e' <= b + 1.
Proof.
  intros b Hb. unfold binary_round_aux.
  destruct (shr_fexp_upper M E l) as (mrs & e1 & -> & Hm1 & He1). fold b in He1.
  destruct (round_nearest_even_upper (shr_m mrs) (loc_of_shr_record mrs))
    as [Hr0 Hr1]; [lia|].
  destruct (round_nearest_even (shr_m mrs) (loc_of_shr_record mrs))
    as [|m2|m2] eqn:Hround; [| |lia].
  - destruct (shr_fexp_zero e1 loc_Exact) as (mrs' & e2 & -> & ->). now left.
  - destruct (shr_fexp_upper m2 e1 loc_Exact) as (mrs' & e2 & -> & Hm3 & He2).
    assert (Hd2 : Zpos (digits2_pos m2) <= prec + 1).
    { apply digits2_pos_upper.
      rewrite Z.pow_add_r by (unfold prec; lia). change (2 ^ 1) with 2. lia. }
    assert (He2' : e2 <= b + 1) by (unfold emin, prec, emax in *; lia).
    destruct (shr_m mrs') as [|m3|m3] eqn:Hm3'; [now left| |lia].
    right. replace (Z.leb e2 (Z.sub emax prec)) with true
      by (symmetry; apply Z.leb_le; lia).
    exists m3, e2. now split.
Qed.

(** A term of at most 50 years has fewer than 2048 payments. *)
Lemma mul_twelve_below_2048 (t : number) :
  (t <=? 50)%float = true -> (2048 <=? t * 12)%float = false.
Proof.
  rewrite !leb_spec, mul_spec. pose proof (Prim2SF_valid t) as Hvalid.
  change (Prim2SF 50) with (S754_finite false 7036874417766400 (-47)).
  change (Prim2SF 12) with (S754_finite false 6755399441055744 (-49)).
  change (Prim2SF 2048) with (S754_finite false 4503599627370496 (-41)).
  destruct (Prim2SF t) as [s | s | | s m e]; try discriminate.
  - reflexivity.
  - destruct s; [reflexivity|discriminate].
  - intros Hle. unfold SF64mul, SFmul.
    destruct s; cbn [xorb].
    + unfold binary_round_aux.
      destruct (shr_fexp _ _ _ _ _) as [mrs1 e1].
      destruct (shr_fexp _ _ _ _ _) as [mrs2 e2].
      destruct (shr_m mrs2); [reflexivity| |reflexivity].
      destruct (Z.leb _ _); reflexivity.
    + assert (He : e <= -47).
      { unfold SFleb in Hle. cbn [SFcompare] in Hle.
        destruct (Z.compare_spec e (-47)); try lia; discriminate. }
      cbn [valid_binary] in Hvalid.
      unfold bounded, canonical_mantissa, fexp in Hvalid.
      apply andb_prop in Hvalid. destruct Hvalid as [Hcanon _].
      apply Z.eqb_eq in Hcanon. unfold emin, prec, emax in Hcanon.
      assert (Hd : Zpos (digits2_pos m) <= 53) by lia.
      destruct (digits2_pos_bounds m) as [_ Hm].
      set (M := (m * 6755399441055744)%positive).
      assert (HM : Zpos (digits2_pos M) <= 106).
      { apply digits2_pos_upper. unfold M. rewrite Pos2Z.inj_mul.
        change (2 ^ 106) with (2 ^ 53 * 2 ^ 53).
        assert (2 ^ Zpos (digits2_pos m) <= 2 ^ 53)
          by (apply Z.pow_le_mono_r; lia).
        apply Z.mul_lt_mono_nonneg; lia. }
      destruct (binary_round_aux_upper false M (e + -49) loc_Exact)
        as [-> | (m' & e' & -> & He')].
      * unfold emin, prec, emax. lia.
      * reflexivity.
      * unfold SFleb. cbn [SFcompare].
        unfold emin, prec, emax in He'.
        destruct (Z.compare_spec (-41) e'); try lia; reflexivity.
Qed.

(** Above the subnormal range, the exponent and mantissa [shr_fexp]
    gives. *)
Lemma shr_fexp_exact (M : positive) (E : Z) (l : location) :
  emin <= Zpos (digits2_pos M) + E - prec ->
  exists mrs,
    shr_fexp prec emax (Zpos M) E l
    = (mrs, Z.max E (Zpos (digits2_pos M) + E - prec))
    /\ shr_m mrs = Zpos M / 2 ^ Z.max 0 (Zpos (digits2_pos M) - prec).
Proof.
  intros Hmin. unfold shr_fexp, fexp. cbn [Zdigits2].
  set (d := Zpos (digits2_pos M)) in *.
  replace (Z.sub (Z.max (Z.sub (Z.add d E) prec) emin) E) with (d - prec)
    by (unfold emin in *; lia).
  destruct (d - prec) as [|p|p] eqn:Hn; cbn [shr].
  - eexists. split; [f_equal; lia|].
    rewrite shr_m_of_loc. cbn [Z.max Z.compare]. now rewrite Z.div_1_r.
  - eexists. split; [f_equal; lia|].
    rewrite shr_m_iter_pos by (rewrite shr_m_of_loc; lia).
    rewrite shr_m_of_loc. reflexivity.
  - eexists. split; [f_equal; lia|].
    rewrite shr_m_of_loc. cbn [Z.max Z.compare]. now rewrite Z.div_1_r.
Qed.

(** A mantissa of at least [prec] digits rounds to an infinity, to a
    larger exponent than the canonical one, or at that exponent to a
    mantissa no smaller than the truncated one. *)
Lemma binary_round_aux_lower (s : bool) (M : positive) (E : Z) (l : location) :
  let d := Zpos (digits2_pos M) in
  emin <= d + E - prec ->
  prec <= d ->
  binary_round_aux prec emax s (Zpos M) E l = S754_infinity s
  \/ exists m' e',
       binary_round_aux prec emax s (Zpos M) E l = S754_finite s m' e'
       /\ (d + E - prec < e'
           \/ (e' = d + E - prec /\ Zpos M / 2 ^ (d - prec) <= Zpos m')).
Proof.
  intros d Hmin Hd. unfold binary_round_aux.
  destruct (shr_fexp_exact M E l Hmin) as (mrs & -> & Hm1). fold d in Hm1 |- *.
  replace (Z.max 0 (d - prec)) with (d - prec) in Hm1 by lia.
  replace (Z.max E (d + E - prec)) with (d + E - prec) by lia.
  destruct (digits2_pos_bounds M) as [Hlow _]. fold d in Hlow.
  assert (Hq : 2 ^ (prec - 1) <= Zpos M / 2 ^ (d - prec)).
  { apply Z.div_le_lower_bound; [apply Z.pow_pos_nonneg; lia|].
    rewrite <- Z.pow_add_r by (unfold prec in *; lia).
    replace (d - prec + (prec - 1)) with (d - 1) by lia. exact Hlow. }
  assert (Hpos : 0 < 2 ^ (prec - 1)) by (apply Z.pow_pos_nonneg; unfold prec; lia).
  destruct (shr_m mrs) as [|m1|m1] eqn:Em1; try lia.
  destruct (round_nearest_even_pos m1 (loc_of_shr_record mrs))
    as (m2 & -> & Hm2).
  assert (Hd2 : prec <= Zpos (digits2_pos m2)).
  { assert (H := digits2_pos_lower m2 (prec - 1)). lia. }
  assert (Hmin2 : emin <= Zpos (digits2_pos m2) + (d + E - prec) - prec) by lia.
  destruct (shr_fexp_exact m2 (d + E - prec) loc_Exact Hmin2) as (mrs' & -> & Hm3).
  set (d2 := Zpos (digits2_pos m2)) in *.
  destruct (digits2_pos_bounds m2) as [Hlow2 _]. fold d2 in Hlow2.
  assert (Hq2 : 2 ^ (prec - 1) <= Zpos m2 / 2 ^ Z.max 0 (d2 - prec)).
  { apply Z.div_le_lower_bound; [apply Z.pow_pos_nonneg; lia|].
    rewrite <- Z.pow_add_r by (unfold prec in *; lia).
    apply Z.le_trans with (2 ^ (d2 - 1)); [|exact Hlow2].
    apply Z.pow_le_mono_r; lia. }
  rewrite Hm3.
  destruct (Zpos m2 / 2 ^ Z.max 0 (d2 - prec)) as [|m3|m3] eqn:Em3; try lia.
  destruct (Z.leb _ _); [right|now left].
  eexists. eexists. split; [reflexivity|].
  destruct (Z.eq_dec d2 prec) as [Heq|Hne].
  - right. split; [lia|].
    replace (Z.max 0 (d2 - prec)) with 0 in Em3 by lia.
    rewrite Z.div_1_r in Em3. injection Em3 as <-. lia.
  - left. lia.
Qed.

(** A ratio of at least 0.20 is at least 20 as a percentage. *)
Lemma fifth_times_hundred (x : number) :
  (0.2 <=? x)%float = true -> (20 <=? x * 100)%float = true.
Proof.
  rewrite !leb_spec, mul_spec. pose proof (Prim2SF_valid x) as Hvalid.
  change (Prim2SF 0.2) with (S754_finite false 7205759403792794 (-55)).
  change (Prim2SF 100) with (S754_finite false 7036874417766400 (-46)).
  change (Prim2SF 20) with (S754_finite false 5629499534213120 (-48)).
  destruct (Prim2SF x) as [s | s | | s m e]; try discriminate.
  - destruct s; [discriminate|]. reflexivity.
  - destruct s; [discriminate|]. intros Hle.
    assert (He : -55 <= e /\ (e = -55 -> 7205759403792794 <= Zpos m)).
    { unfold SFleb in Hle. cbn [SFcompare] in Hle.
      destruct (Z.compare_spec (-55) e) as [Heq|Hlt|Hgt];
        [|split; lia|discriminate].
      split; [lia|]. intros _.
      change (Pos.compare_cont Eq 7205759403792794 m)
        with (Zpos 7205759403792794 ?= Zpos m) in Hle.
      destruct (Z.compare_spec (Zpos 7205759403792794) (Zpos m));
        try lia; discriminate. }
    destruct He as [He Hm0].
    cbn [valid_binary] in Hvalid. unfold bounded, canonical_mantissa, fexp in Hvalid.
    apply andb_prop in Hvalid. destruct Hvalid as [Hcanon _].
    apply Z.eqb_eq in Hcanon. unfold emin, prec, emax in Hcanon.
    assert (Hd : Zpos (digits2_pos m) = 53) by lia.
    destruct (digits2_pos_bounds m) as [Hm Hm']. rewrite Hd in Hm, Hm'.
    change (2 ^ (53 - 1)) with 4503599627370496 in Hm.
    change (2 ^ 53) with 9007199254740992 in Hm'.
    unfold SF64mul, SFmul. cbn [xorb].
    set (M := (m * 7036874417766400)%positive).
    assert (HMval : Zpos M = Zpos m * 7036874417766400)
      by (unfold M; apply Pos2Z.inj_mul).
    assert (HM : 105 <= Zpos (digits2_pos M) <= 106).
    { split.
      - assert (H := digits2_pos_lower M 104).
        change (2 ^ 104) with 20282409603651670423947251286016 in H. lia.
      - apply digits2_pos_upper.
        change (2 ^ 106) with 81129638414606681695789005144064. lia. }
    assert (Hfin : forall m' e',
               -48 < e' \/ (e' = -48 /\ 5629499534213120 <= Zpos m') ->
               SFleb (S754_finite false 5629499534213120 (-48))
                 (S754_finite false m' e') = true).
    { intros m' e' Hcase. unfold SFleb. cbn [SFcompare].
      destruct (Z.compare_spec (-48) e') as [Heq|Hlt|Hgt]; try lia;
        try reflexivity.
      change (Pos.compare_cont Eq 5629499534213120 m')
        with (Zpos 5629499534213120 ?= Zpos m').
      destruct (Z.compare_spec (Zpos 5629499534213120) (Zpos m'));
        try lia; reflexivity. }
    destruct (binary_round_aux_lower false M (e + -46) loc_Exact)
      as [-> | (m' & e' & -> & He')].
    + unfold emin, prec, emax. lia.
    + unfold prec. lia.
    + reflexivity.
    + apply Hfin. unfold prec in He'.
      destruct (Z.eq_dec e (-55)) as [E55|N55].
      * specialize (Hm0 E55).
        assert (Hd106 : Zpos (digits2_pos M) = 106).
        { assert (H := digits2_pos_lower M 105).
          change (2 ^ 105) with 40564819207303340847894502572032 in H. lia. }
        rewrite Hd106 in He'. subst e.
        destruct He' as [He'|[He' Hm'']]; [left; lia|]. right. split; [lia|].
        eapply Z.le_trans; [|exact Hm''].
        apply Z.div_le_lower_bound; [reflexivity|].
        change (2 ^ (106 - 53)) with 9007199254740992. lia.
      * destruct (Z.eq_dec e (-54)) as [E54|N54].
        -- subst e.
           destruct (Z.eq_dec (Zpos (digits2_pos M)) 105) as [D105|ND105].
           ++ rewrite D105 in He'.
              destruct He' as [He'|[He' Hm'']]; [left; lia|]. right. split; [lia|].
              eapply Z.le_trans; [|exact Hm''].
              apply Z.div_le_lower_bound; [reflexivity|].
              change (2 ^ (105 - 53)) with 4503599627370496. lia.
           ++ left. destruct He' as [He'|[He' _]]; lia.
        -- left. destruct He' as [He'|[He' _]]; lia.
Qed.

(** A positive mantissa rounds to a zero, an infinity or a finite number,
    with the sign it was given. *)
Lemma binary_round_aux_sign (s : bool) (M : positive) (E : Z) (l : location) :
  binary_round_aux prec emax s (Zpos M) E l = S754_zero s
  \/ binary_round_aux prec emax s (Zpos M) E l = S754_infinity s
  \/ exists m' e', binary_round_aux prec emax s (Zpos M) E l = S754_finite s m' e'.
Proof.
  unfold binary_round_aux.
  destruct (shr_fexp_upper M E l) as (mrs & e1 & -> & Hm1 & _).
  destruct (round_nearest_even_upper (shr_m mrs) (loc_of_shr_record mrs))
    as [Hr0 _]; [lia|].
  destruct (round_nearest_even (shr_m mrs) (loc_of_shr_record mrs))
    as [|m2|m2]; [| |lia].
  - destruct (shr_fexp_zero e1 loc_Exact) as (mrs' & e2 & -> & ->). now left.
  - destruct (shr_fexp_upper m2 e1 loc_Exact) as (mrs' & e2 & -> & Hm3 & _).
    destruct (shr_m mrs') as [|m3|m3]; [now left| |lia].
    right. destruct (Z.leb _ _); [right; eauto | now left].
Qed.

(** A term of at least 0 years has a payment count of at least 0. *)
Lemma mul_twelve_nonneg (t : number) :
  (0 <=? t)%float = true -> (0 <=? t * 12)%float = true.
Proof.
  rewrite !leb_spec, mul_spec.
  change (Prim2SF 0) with (S754_zero false).
  change (Prim2SF 12) with (S754_finite false 6755399441055744 (-49)).
  destruct (Prim2SF t) as [s | s | | s m e]; try discriminate.
  - reflexivity.
  - destruct s; [discriminate|]. reflexivity.
  - destruct s; [discriminate|]. intros _. unfold SF64mul, SFmul. cbn [xorb].
    destruct (binary_round_aux_sign false (m * 6755399441055744) (e + -49) loc_Exact)
      as [-> | [-> | (m' & e' & ->)]]; reflexivity.
Qed.
End Magnitude.

(** ** Order facts *)

Section OrderFacts.
Local Open Scope float_scope.

Lemma SFcompare_antisym (x y : spec_float) :
  SFcompare y x = option_map CompOpp (SFcompare x y).
Proof.
  destruct x as [s | s | | s m e]; destruct y as [s' | s' | | s' m' e'];
    simpl; try reflexivity; try (destruct s; reflexivity);
    try (destruct s'; reflexivity); try (destruct s, s'; reflexivity).
  destruct s, s'; simpl; try reflexivity;
    rewrite (Z.compare_antisym e e');
    destruct (e ?= e')%Z; simpl; try reflexivity;
    rewrite (Pos.compare_cont_antisym m m' Eq); simpl;
    destruct (Pos.compare_cont Eq m m'); reflexivity.
Qed.

(** [a < b] excludes [a >= b]. *)
Lemma ltb_not_geb (a b : number) : (a <? b) = true -> JS.geb a b = false.
Proof.
  unfold JS.geb. rewrite ltb_spec, leb_spec. unfold SFltb, SFleb.
  rewrite (SFcompare_antisym (Prim2SF a) (Prim2SF b)).
  destruct (SFcompare (Prim2SF a) (Prim2SF b)) as [[ | | ] | ]; simpl; congruence.
Qed.

End OrderFacts.

(** ** The calculation engine *)

Section EngineProperties.
Local Open Scope float_scope.
Import JS.

Variable pow : number -> number -> number.

(** C1. [calculateMonthlyPayment] returns [P / n] when the monthly rate
    [r = annualRate / 100 / 12] equals 0 (as [===] decides it), and the
    annuity value [P * (r * (1+r)^n) / ((1+r)^n - 1)] otherwise, with
    [n = termYears * 12]; the products are grouped as the code groups them. *)
Theorem calculateMonthlyPayment_formula (P annualRate termYears : number) :
  let r := annualRate / 100 / 12 in
  let n := termYears * 12 in
  ((r =? 0) = true ->
     calculateMonthlyPayment pow P annualRate termYears = P / n) /\
  ((r =? 0) = false ->
     calculateMonthlyPayment pow P annualRate termYears =
     P * (r * pow (1 + r) n) / (pow (1 + r) n - 1)).
Proof.
  intros r n. unfold calculateMonthlyPayment. fold r n.
  split; intros H; rewrite H; reflexivity.
Qed.

(** C5. [totalInterest] is the nominal schedule total, the monthly
    principal-and-interest payment times [loanTermYears] times 12, less the
    loan amount; no amortization table enters it. *)
Theorem totalInterest_nominal (inputs : MortgageInputs.t) :
  let calculation := calculateMortgage pow inputs in
  MortgageCalculation.totalInterest calculation =
    MortgageCalculation.principalAndInterest calculation
      * MortgageInputs.loanTermYears inputs * 12
    - MortgageInputs.loanAmount inputs
  /\ MortgageCalculation.principalAndInterest calculation =
     calculateMonthlyPayment pow (MortgageInputs.loanAmount inputs)
       (MortgageInputs.interestRate inputs)
       (MortgageInputs.loanTermYears inputs).
Proof.
  split; reflexivity.
Qed.

(** C4, as amended. [pmiMonthly] is 0 whenever
    [downPayment / purchasePrice] is at least 0.20, and whenever the
    percentage the code tests, that ratio times 100, is at least 20,
    whatever the PMI rate.  Whenever the percentage is below 20 and a PMI
    rate other than 0 and [NaN] is supplied, [pmiMonthly] is
    [loanAmount * pmiRate / 100 / 12].  A supplied rate of 0 or [NaN], like
    no rate, gives 0, which for a rate of 0 and a finite loan amount is what
    the formula gives. *)
Theorem pmiMonthly_rule (inputs : MortgageInputs.t) :
  let purchasePrice :=
    MortgageInputs.loanAmount inputs + MortgageInputs.downPayment inputs in
  let ratio := MortgageInputs.downPayment inputs / purchasePrice in
  let pmiMonthly :=
    MortgageCalculation.pmiMonthly (calculateMortgage pow inputs) in
  ((0.20 <=? ratio) = true -> pmiMonthly = 0) /\
  ((20 <=? ratio * 100) = true -> pmiMonthly = 0) /\
  (forall rate,
     (ratio * 100 <? 20) = true ->
     MortgageInputs.pmiRate inputs = Some rate ->
     truthy rate = true ->
     pmiMonthly = MortgageInputs.loanAmount inputs * rate / 100 / 12) /\
  (forall rate,
     MortgageInputs.pmiRate inputs = Some rate ->
     truthy rate = false -> pmiMonthly = 0) /\
  (forall rate,
     MortgageInputs.pmiRate inputs = Some rate ->
     (rate =? 0) = true ->
     is_finite (MortgageInputs.loanAmount inputs) = true ->
     (pmiMonthly =? MortgageInputs.loanAmount inputs * rate / 100 / 12) = true) /\
  (MortgageInputs.pmiRate inputs = None -> pmiMonthly = 0).
Proof.
  intros purchasePrice ratio pmiMonthly.
  assert (Hge : (20 <=? ratio * 100) = true -> pmiMonthly = 0).
  { intros H. subst pmiMonthly. simpl.
    destruct (MortgageInputs.pmiRate inputs) as [rate|]; [|reflexivity].
    destruct (truthy rate); [|reflexivity].
    unfold calculatePMI, geb. fold purchasePrice. fold ratio.
    rewrite H. reflexivity. }
  assert (Hfalsy : forall rate,
             MortgageInputs.pmiRate inputs = Some rate ->
             truthy rate = false -> pmiMonthly = 0).
  { intros rate Hrate Hfalsy. subst pmiMonthly. simpl.
    rewrite Hrate, Hfalsy. reflexivity. }
  split; [|split; [|split; [|split; [|split]]]].
  - intros H. apply Hge. now apply fifth_times_hundred.
  - exact Hge.
  - intros rate Hlt Hrate Htruthy. subst pmiMonthly. simpl.
    rewrite Hrate, Htruthy. unfold calculatePMI.
    fold purchasePrice. fold ratio.
    rewrite (ltb_not_geb _ _ Hlt). reflexivity.
  - exact Hfalsy.
  - intros rate Hrate Hzero Hfin.
    change (is_zero rate = true) in Hzero.
    rewrite (Hfalsy rate Hrate) by (unfold truthy; now rewrite Hzero).
    apply eqb_zero_zero; [reflexivity|].
    apply div_zero_l; [|reflexivity|reflexivity].
    apply div_zero_l; [|reflexivity|reflexivity].
    now apply mul_zero_r.
  - intros Hnone. subst pmiMonthly. simpl. rewrite Hnone. reflexivity.
Qed.
End EngineProperties.

(** ** Input validation *)

Section ValidationProperties.
Local Open Scope float_scope.
Import JS MortgageUtils.

Lemma pushIf_fold (cs : list (bool * string)) (errors : list string) :
  fold_left (fun acc c => pushIf (fst c) (snd c) acc) cs errors =
  errors ++ map snd (filter fst cs).
Proof.
  revert errors. induction cs as [|[c msg] cs IH]; intros errors; simpl.
  - now rewrite app_nil_r.
  - rewrite IH. unfold pushIf. destruct c; simpl.
    + now rewrite <- app_assoc.
    + reflexivity.
Qed.

(** One message for each check that fires and nothing else, in the order
    of the checks. *)
Lemma validateInputs_checks (inputs : MortgageInputs.t) :
  validateInputs inputs = map snd (filter fst (checks inputs)).
Proof.
  change (validateInputs inputs)
    with (fold_left (fun acc c => pushIf (fst c) (snd c) acc) (checks inputs) []).
  now rewrite pushIf_fold.
Qed.

(** The list is empty exactly when no check fires. *)
Lemma validateInputs_nil_iff (inputs : MortgageInputs.t) :
  validateInputs inputs = [] <->
  forall c, In c (checks inputs) -> fst c = false.
Proof.
  rewrite validateInputs_checks.
  generalize (checks inputs) as cs.
  induction cs as [|[c msg] cs IH]; simpl.
  - split; [intros _ ? [] | reflexivity].
  - destruct c; simpl.
    + split; [discriminate|].
      intros H. specialize (H (true, msg) (or_introl eq_refl)). discriminate.
    + rewrite IH. split.
      * intros H c' [<-|Hin]; [reflexivity|auto].
      * intros H c' Hin. apply H. now right.
Qed.

(** Whether a message is in the list, once the checks are laid out: by
    cases on the nine conditions. *)
Ltac settle_membership :=
  repeat match goal with
         | |- context [if ?c then _ else _] => destruct c
         end;
  simpl; split; intros H; try discriminate; try reflexivity;
  try (repeat (first [left; reflexivity | right]); fail);
  repeat (destruct H as [H|H]; try discriminate H); try contradiction.

(** The interest-rate message is there exactly when the rate is below 0 or
    above 50. *)
Lemma validateInputs_interestRate (inputs : MortgageInputs.t) :
  In interestRateError (validateInputs inputs) <->
  (MortgageInputs.interestRate inputs <? 0) = true
  \/ gtb (MortgageInputs.interestRate inputs) 50 = true.
Proof.
  rewrite validateInputs_checks. unfold checks. simpl.
  rewrite <- orb_true_iff.
  settle_membership.
Qed.

(** The loan-term message is there exactly when the term is at most 0 or
    above 50. *)
Lemma validateInputs_loanTerm (inputs : MortgageInputs.t) :
  In loanTermError (validateInputs inputs) <->
  (MortgageInputs.loanTermYears inputs <=? 0) = true
  \/ gtb (MortgageInputs.loanTermYears inputs) 50 = true.
Proof.
  rewrite validateInputs_checks. unfold checks. simpl.
  rewrite <- orb_true_iff.
  settle_membership.
Qed.

Lemma ltb_zero_truthy (x : number) : (x <? 0) = true -> truthy x = true.
Proof.
  unfold truthy. rewrite ltb_spec. intros H.
  assert (Hz : is_zero x = false).
  { destruct (is_zero x) eqn:Hz; [|reflexivity].
    apply is_zero_spec in Hz. destruct Hz as [s Hs]. rewrite Hs in H.
    discriminate. }
  assert (Hn : is_nan x = false).
  { apply is_nan_false_spec. intros E. rewrite E in H. discriminate. }
  now rewrite Hz, Hn.
Qed.

Lemma gtb_ten_truthy (x : number) : gtb x 10 = true -> truthy x = true.
Proof.
  unfold truthy, gtb. rewrite ltb_spec. intros H.
  assert (Hz : is_zero x = false).
  { destruct (is_zero x) eqn:Hz; [|reflexivity].
    apply is_zero_spec in Hz. destruct Hz as [s Hs]. rewrite Hs in H.
    discriminate. }
  assert (Hn : is_nan x = false).
  { apply is_nan_false_spec. intros E. rewrite E in H. discriminate. }
  now rewrite Hz, Hn.
Qed.

(** The PMI message is there exactly when a PMI rate is present and is
    below 0 or above 10. *)
Lemma validateInputs_pmiRate (inputs : MortgageInputs.t) :
  In pmiRateError (validateInputs inputs) <->
  exists rate, MortgageInputs.pmiRate inputs = Some rate
               /\ ((rate <? 0) = true \/ gtb rate 10 = true).
Proof.
  assert (Hand : andOpt (MortgageInputs.pmiRate inputs)
                   (fun rate => (rate <? 0) || gtb rate 10) = true <->
                 exists rate, MortgageInputs.pmiRate inputs = Some rate
                   /\ ((rate <? 0) = true \/ gtb rate 10 = true)).
  { unfold andOpt. destruct (MortgageInputs.pmiRate inputs) as [rate|].
    - rewrite andb_true_iff, orb_true_iff. split.
      + intros [_ H]. eauto.
      + intros (rate' & [= <-] & H). split; [|exact H].
        destruct H; [now apply ltb_zero_truthy | now apply gtb_ten_truthy].
    - split; [discriminate | intros (rate & H & _); discriminate]. }
  rewrite <- Hand. rewrite validateInputs_checks. unfold checks. simpl.
  settle_membership.
Qed.

(** The loan-term check is silent on every term strictly between 0 and 1. *)
Lemma loanTerm_check_silent_below_one (t : number) :
  (0 <? t) = true -> (t <? 1) = true ->
  ((t <=? 0) || gtb t 50) = false.
Proof.
  unfold gtb. rewrite !ltb_spec, leb_spec.
  change (Prim2SF 0) with (S754_zero false).
  change (Prim2SF 1) with (S754_finite false 4503599627370496 (-52)).
  change (Prim2SF 50) with (S754_finite false 7036874417766400 (-47)).
  destruct (Prim2SF t) as [s | s | | s m e]; try discriminate.
  - destruct s; discriminate.
  - destruct s; [discriminate|]. intros _.
    unfold SFltb, SFleb. cbn [SFcompare].
    destruct (Z.compare_spec e (-52)) as [He|He|He]; try discriminate;
      destruct (Z.compare_spec (-47) e); try lia; reflexivity.
Qed.

Lemma validateInputs_silent_below_one (inputs : MortgageInputs.t) :
  (0 <? MortgageInputs.loanTermYears inputs) = true ->
  (MortgageInputs.loanTermYears inputs <? 1) = true ->
  ~ In loanTermError (validateInputs inputs).
Proof.
  intros Hpos Hlt Hin. apply validateInputs_loanTerm in Hin.
  apply orb_true_iff in Hin.
  rewrite (loanTerm_check_silent_below_one _ Hpos Hlt) in Hin. discriminate.
Qed.

(** C6. A term of half a year lies outside [1, 50], yet [validateInputs]
    reports no error for it: the loan-term check fires for terms of at
    most 0 or above 50, not for terms below 1. *)
Theorem validateInputs_accepts_half_year :
  (MortgageInputs.loanTermYears Sample.halfYear <? 1) = true
  /\ validateInputs Sample.halfYear = []
  /\ ~ In loanTermError (validateInputs Sample.halfYear).
Proof.
  split; [reflexivity|]. split; [reflexivity|]. intros [].
Qed.
End ValidationProperties.

(** ** The amortization schedule *)

Section AmortizationProperties.
Local Open Scope float_scope.
Import JS.

Variable Date : Type.
Variable getMonth : Date -> Z.
Variable setMonth : Date -> Z -> Date.
Variable toISOString : Date -> string.

Variables monthlyPayment monthlyRate numPayments : number.
Variable startDate : Date.

Local Abbreviation loop :=
  (amortizationLoop getMonth setMonth toISOString monthlyPayment monthlyRate
     numPayments startDate).

Local Abbreviation entryOf :=
  (entryOf getMonth setMonth toISOString monthlyPayment monthlyRate startDate).
Local Abbreviation entryStep := (entryStep monthlyPayment monthlyRate).

Lemma loop_unfold (fuel : nat) (i : Z) (b ci cp : number) :
  loop (S fuel) i b ci cp =
  if of_Z i <=? numPayments then
    let e := entryOf i b ci cp in
    if AmortizationEntry.endingBalance e <=? 0.01 then Some [e]
    else option_map (cons e)
           (loop fuel (i + 1)%Z (AmortizationEntry.endingBalance e)
              (AmortizationEntry.cumulativeInterest e)
              (AmortizationEntry.cumulativePrincipal e))
  else Some [].
Proof. reflexivity. Qed.

(** One turn of the loop, read backwards from its result. *)
Lemma loop_inv (fuel : nat) (i : Z) (b ci cp : number)
    (table : list AmortizationEntry.t) :
  loop (S fuel) i b ci cp = Some table ->
  ((of_Z i <=? numPayments) = false /\ table = [])
  \/ ((of_Z i <=? numPayments) = true
      /\ exists rest, table = entryOf i b ci cp :: rest
         /\ (((AmortizationEntry.endingBalance (entryOf i b ci cp) <=? 0.01) = true
              /\ rest = [])
             \/ ((AmortizationEntry.endingBalance (entryOf i b ci cp) <=? 0.01) = false
                 /\ loop fuel (i + 1)%Z
                      (AmortizationEntry.endingBalance (entryOf i b ci cp))
                      (AmortizationEntry.cumulativeInterest (entryOf i b ci cp))
                      (AmortizationEntry.cumulativePrincipal (entryOf i b ci cp))
                    = Some rest))).
Proof.
  rewrite loop_unfold.
  destruct (of_Z i <=? numPayments); [|intros [= <-]; now left].
  cbv zeta. right. split; [reflexivity|].
  destruct (AmortizationEntry.endingBalance (entryOf i b ci cp) <=? 0.01) eqn:Hpaid.
  - injection H as <-. eexists. split; [reflexivity|]. now left.
  - destruct (loop fuel _ _ _ _) as [rest|] eqn:Hrest; [|discriminate].
    injection H as <-. exists rest. split; [reflexivity|]. right. now split.
Qed.

Lemma entryOf_step (i : Z) (b ci cp : number) : entryStep (entryOf i b ci cp).
Proof. repeat split. Qed.

Ltac loop_cases H :=
  apply loop_inv in H;
  destruct H as [[? ->] | [? [rest [-> [[? ->] | [? H]]]]]].

Lemma loop_entries (fuel : nat) :
  forall i b ci cp table,
    loop fuel i b ci cp = Some table -> Forall entryStep table.
Proof.
  induction fuel as [|fuel IH]; intros i b ci cp table H; [discriminate|].
  loop_cases H.
  - constructor.
  - constructor; [apply entryOf_step | constructor].
  - constructor; [apply entryOf_step | eapply IH; eassumption].
Qed.

Lemma loop_head (fuel : nat) (i : Z) (b ci cp : number)
    (table : list AmortizationEntry.t) (e : AmortizationEntry.t) :
  loop fuel i b ci cp = Some table ->
  hd_error table = Some e ->
  AmortizationEntry.beginningBalance e = b.
Proof.
  destruct fuel as [|fuel]; [discriminate|]. intros H.
  loop_cases H; simpl; intros [= <-]; reflexivity.
Qed.

(** Each entry starts from the balance the entry before it ended with. *)
Lemma loop_chain (fuel : nat) :
  forall i b ci cp table k e e',
    loop fuel i b ci cp = Some table ->
    nth_error table k = Some e ->
    nth_error table (S k) = Some e' ->
    AmortizationEntry.endingBalance e = AmortizationEntry.beginningBalance e'.
Proof.
  induction fuel as [|fuel IH]; intros i b ci cp table k e e' H; [discriminate|].
  loop_cases H.
  - destruct k; discriminate.
  - destruct k as [|[|k]]; discriminate.
  - destruct k as [|k]; simpl.
    + intros [= <-] Hnext. symmetry.
      eapply loop_head; [eassumption|]. destruct rest; [discriminate|].
      simpl in *. congruence.
    + intros He He'. eapply IH; eassumption.
Qed.

(** Entry [k] carries the counter [i + k], which the loop test accepted. *)
Lemma loop_numbers (fuel : nat) :
  forall i b ci cp table k e,
    loop fuel i b ci cp = Some table ->
    nth_error table k = Some e ->
    AmortizationEntry.paymentNumber e = of_Z (i + Z.of_nat k)
    /\ (of_Z (i + Z.of_nat k) <=? numPayments) = true.
Proof.
  induction fuel as [|fuel IH]; intros i b ci cp table k e H; [discriminate|].
  loop_cases H.
  - destruct k; discriminate.
  - destruct k as [|k]; [|destruct k; discriminate].
    intros [= <-]. rewrite Z.add_0_r. now split.
  - destruct k as [|k]; simpl.
    + intros [= <-]. rewrite Z.add_0_r. now split.
    + intros He. replace (i + Z.pos (Pos.of_succ_nat k))%Z
        with ((i + 1) + Z.of_nat k)%Z by lia.
      eapply IH; eassumption.
Qed.

(** The loop ends because the counter passed [numPayments], or at an entry
    whose ending balance is at most 0.01. *)
Lemma loop_exit (fuel : nat) :
  forall i b ci cp table,
    loop fuel i b ci cp = Some table ->
    (of_Z (i + Z.of_nat (List.length table)) <=? numPayments) = false
    \/ exists pre e,
         table = pre ++ [e]
         /\ (AmortizationEntry.endingBalance e <=? 0.01) = true.
Proof.
  induction fuel as [|fuel IH]; intros i b ci cp table H; [discriminate|].
  loop_cases H.
  - left. simpl. now rewrite Z.add_0_r.
  - right. exists [], (entryOf i b ci cp). now split.
  - destruct (IH _ _ _ _ _ H) as [Hover | (pre & e & -> & Hpaid)].
    + left.
      replace (i + Z.of_nat (List.length (entryOf i b ci cp :: rest)))%Z
        with ((i + 1) + Z.of_nat (List.length rest))%Z
        by (cbn [List.length]; lia).
      exact Hover.
    + right. exists (entryOf i b ci cp :: pre), e. now split.
Qed.

(** More fuel does not change a result. *)
Lemma loop_fuel_mono (fuel : nat) :
  forall fuel' i b ci cp table,
    loop fuel i b ci cp = Some table ->
    (fuel <= fuel')%nat ->
    loop fuel' i b ci cp = Some table.
Proof.
  induction fuel as [|fuel IH]; intros fuel' i b ci cp table H Hle;
    [discriminate|].
  destruct fuel' as [|fuel']; [lia|].
  rewrite loop_unfold in *.
  destruct (of_Z i <=? numPayments); [|assumption].
  cbv zeta in *.
  destruct (AmortizationEntry.endingBalance (entryOf i b ci cp) <=? 0.01);
    [assumption|].
  destruct (loop fuel _ _ _ _) as [rest|] eqn:Hrest; [|discriminate].
  rewrite (IH fuel' _ _ _ _ rest Hrest) by lia. assumption.
Qed.

(** The loop returns as soon as the fuel reaches a counter value that
    exceeds [numPayments]. *)
Lemma loop_returns (fuel : nat) :
  forall i K b ci cp,
    (of_Z K <=? numPayments) = false ->
    (i <= K)%Z -> (K - i < Z.of_nat fuel)%Z ->
    exists table, loop fuel i b ci cp = Some table.
Proof.
  induction fuel as [|fuel IH]; intros i K b ci cp HK Hi Hfuel; [lia|].
  rewrite loop_unfold.
  destruct (of_Z i <=? numPayments) eqn:Hin; [|eauto].
  cbv zeta.
  destruct (AmortizationEntry.endingBalance (entryOf i b ci cp) <=? 0.01);
    [eauto|].
  assert (i <> K) by congruence.
  destruct (IH (i + 1)%Z K (AmortizationEntry.endingBalance (entryOf i b ci cp))
              (AmortizationEntry.cumulativeInterest (entryOf i b ci cp))
              (AmortizationEntry.cumulativePrincipal (entryOf i b ci cp)))
    as [rest ->]; try assumption; try lia.
  simpl. eauto.
Qed.
End AmortizationProperties.

Section TableProperties.
Local Open Scope float_scope.
Import JS.

Variable pow : number -> number -> number.
Variable Date : Type.
Variable getMonth : Date -> Z.
Variable setMonth : Date -> Z -> Date.
Variable toISOString : Date -> string.

Local Abbreviation generate :=
  (generateAmortizationTable pow getMonth setMonth toISOString).

(** C2, as amended. In the table [generateAmortizationTable] returns, the
    first entry begins with the loan amount; every entry has
    [monthlyPayment] the principal-and-interest payment,
    [interestPayment = beginningBalance * monthlyRate],
    [principalPayment = monthlyPayment - interestPayment] and
    [endingBalance = max(0, beginningBalance - principalPayment)]; and each
    entry begins with the balance the entry before it ended with. *)
Theorem amortization_table_invariant (fuel : nat) (inputs : MortgageInputs.t)
    (startDate : Date) (table : list AmortizationEntry.t) :
  generate fuel inputs startDate = Some table ->
  let calculation := calculateMortgage pow inputs in
  (forall e, hd_error table = Some e ->
     AmortizationEntry.beginningBalance e = MortgageInputs.loanAmount inputs)
  /\ (forall e, In e table ->
        AmortizationEntry.monthlyPayment e =
          MortgageCalculation.principalAndInterest calculation
        /\ AmortizationEntry.interestPayment e =
           AmortizationEntry.beginningBalance e
           * MortgageCalculation.monthlyRate calculation
        /\ AmortizationEntry.principalPayment e =
           AmortizationEntry.monthlyPayment e
           - AmortizationEntry.interestPayment e
        /\ AmortizationEntry.endingBalance e =
           Math_max 0 (AmortizationEntry.beginningBalance e
                       - AmortizationEntry.principalPayment e))
  /\ (forall k e e',
        nth_error table k = Some e ->
        nth_error table (S k) = Some e' ->
        AmortizationEntry.endingBalance e =
        AmortizationEntry.beginningBalance e').
Proof.
  intros H calculation. unfold generateAmortizationTable in H.
  split; [|split].
  - intros e He. eapply loop_head; eassumption.
  - intros e He. apply loop_entries in H.
    rewrite Forall_forall in H. exact (H e He).
  - intros k e e'. eapply loop_chain; eassumption.
Qed.

(** C3, as amended. For a term of at least 0 years (and whenever the table
    is not empty) the table is no longer than
    [numPayments = loanTermYears * 12]; and when a further whole payment
    would still fit, [length + 1 <= numPayments], the table has a final
    entry and its ending balance is at most 0.01. *)
Theorem amortization_table_length (fuel : nat) (inputs : MortgageInputs.t)
    (startDate : Date) (table : list AmortizationEntry.t) :
  generate fuel inputs startDate = Some table ->
  let numPayments := MortgageInputs.loanTermYears inputs * 12 in
  let len := Z.of_nat (List.length table) in
  ((0 <=? MortgageInputs.loanTermYears inputs) = true \/ table <> [] ->
     (of_Z len <=? numPayments) = true)
  /\ ((of_Z (len + 1) <=? numPayments) = true ->
        exists pre e,
          table = pre ++ [e]
          /\ (AmortizationEntry.endingBalance e <=? 0.01) = true).
Proof.
  intros H numPayments len. unfold generateAmortizationTable in H. split.
  - intros Hne.
    assert (Hcase : table = [] \/ table <> [])
      by (destruct table; [now left | right; discriminate]).
    destruct Hcase as [Hnil|Hnil].
    + destruct Hne as [Hne|Hne]; [|contradiction].
      unfold len. rewrite Hnil. apply mul_twelve_nonneg. exact Hne.
    + destruct (exists_last Hnil) as (pre & e & Epre).
      assert (Hnth : nth_error table (List.length pre) = Some e).
      { rewrite Epre, nth_error_app2, Nat.sub_diag by lia. reflexivity. }
      destruct (loop_numbers _ _ _ _ _ _ _ _ _ _ _ _ _ _ _ _ H Hnth) as [_ Hle].
      replace (1 + Z.of_nat (List.length pre))%Z with len in Hle;
        [exact Hle|].
      unfold len. rewrite Epre, length_app. cbn [List.length]. lia.
  - intros Hfit.
    destruct (loop_exit _ _ _ _ _ _ _ _ _ _ _ _ _ _ H) as [Hover|Hpaid];
      [|exact Hpaid].
    replace (1 + Z.of_nat (List.length table))%Z with (len + 1)%Z in Hover
      by (unfold len; lia).
    fold numPayments in Hover. congruence.
Qed.

Lemma find_first {A : Type} (p : A -> bool) (l pre post : list A) (x : A) :
  l = pre ++ x :: post ->
  p x = true ->
  (forall y, In y pre -> p y = false) ->
  find p l = Some x.
Proof.
  intros -> Hx. induction pre as [|y pre IH]; simpl; intros Hpre.
  - now rewrite Hx.
  - rewrite (Hpre y) by now left. apply IH. intros z Hz. apply Hpre. now right.
Qed.

Lemma find_absent {A : Type} (p : A -> bool) (l : list A) :
  (forall y, In y l -> p y = false) -> find p l = None.
Proof.
  induction l as [|y l IH]; simpl; intros H; [reflexivity|].
  rewrite (H y) by now left. apply IH. intros z Hz. apply H. now right.
Qed.

(** C8. When [generateAmortizationTable] returns a table, the three
    point-in-time lookups return the cumulative principal, the cumulative
    interest and the ending balance of the first entry whose payment date
    is the target date as [YYYY-MM-DD]; when no entry has that date they
    return 0, 0 and the loan amount. *)
Theorem lookups_by_date (fuel : nat) (inputs : MortgageInputs.t)
    (targetDate startDate : Date) (table : list AmortizationEntry.t) :
  generate fuel inputs startDate = Some table ->
  let targetDateStr := beforeT (toISOString targetDate) in
  let principalPaid :=
    calculatePrincipalPaidByDate pow getMonth setMonth toISOString fuel inputs
      targetDate startDate in
  let interestPaid :=
    calculateInterestPaidByDate pow getMonth setMonth toISOString fuel inputs
      targetDate startDate in
  let remaining :=
    calculateRemainingBalance pow getMonth setMonth toISOString fuel inputs
      targetDate startDate in
  (forall pre entry post,
     table = pre ++ entry :: post ->
     AmortizationEntry.paymentDate entry = targetDateStr ->
     (forall e, In e pre -> AmortizationEntry.paymentDate e <> targetDateStr) ->
     principalPaid = Some (AmortizationEntry.cumulativePrincipal entry)
     /\ interestPaid = Some (AmortizationEntry.cumulativeInterest entry)
     /\ remaining = Some (AmortizationEntry.endingBalance entry))
  /\ ((forall e, In e table -> AmortizationEntry.paymentDate e <> targetDateStr) ->
      principalPaid = Some 0
      /\ interestPaid = Some 0
      /\ remaining = Some (MortgageInputs.loanAmount inputs)).
Proof.
  intros H targetDateStr principalPaid interestPaid remaining.
  subst principalPaid interestPaid remaining.
  unfold calculatePrincipalPaidByDate, calculateInterestPaidByDate,
    calculateRemainingBalance.
  rewrite H. cbv zeta. fold targetDateStr. unfold findByDate. split.
  - intros pre entry post Et Hdate Hpre.
    rewrite (find_first _ table pre post entry Et).
    + repeat split.
    + now apply String.eqb_eq.
    + intros e He. apply String.eqb_neq. now apply Hpre.
  - intros Hnone. rewrite find_absent; [repeat split|].
    intros e He. apply String.eqb_neq. now apply Hnone.
Qed.

(** With enough fuel to reach a counter value beyond [numPayments], the
    table is returned. *)
Lemma generateAmortizationTable_returns (fuel : nat) (K : Z)
    (inputs : MortgageInputs.t) (startDate : Date) :
  (of_Z K <=? MortgageInputs.loanTermYears inputs * 12) = false ->
  (1 <= K)%Z -> (K <= Z.of_nat fuel)%Z ->
  exists table, generate fuel inputs startDate = Some table.
Proof.
  intros HK H1 Hfuel. unfold generateAmortizationTable.
  eapply loop_returns; [exact HK | exact H1 | lia].
Qed.

(** For every term [validateInputs] accepts (at most 50 years), and every
    term below that, the loop ends within 2048 tests: the table is
    returned. *)
Theorem table_returned_for_validated_term (fuel : nat)
    (inputs : MortgageInputs.t) (startDate : Date) :
  (MortgageInputs.loanTermYears inputs <=? 50) = true ->
  (2048 <= fuel)%nat ->
  exists table, generate fuel inputs startDate = Some table.
Proof.
  intros Hterm Hfuel.
  apply generateAmortizationTable_returns with (K := 2048%Z); try lia.
  change (of_Z 2048) with 2048. now apply mul_twelve_below_2048.
Qed.
End TableProperties.

(** ** Scenario storage *)

Section StorageProperties.
Variables Inputs Calculation Amortization : Type.
Variable jsonInputs : Inputs -> Inputs.
Variable jsonCalculation : Calculation -> Calculation.
Variable jsonAmortization : Amortization -> Amortization.
Variable quota : list (SavedScenario.t Inputs Calculation Amortization) -> bool.

Local Abbreviation Scenario := (SavedScenario.t Inputs Calculation Amortization).
Local Abbreviation json :=
  (jsonScenario jsonInputs jsonCalculation jsonAmortization).
Local Abbreviation hasId :=
  (fun (id : string) (s : Scenario) => String.eqb (SavedScenario.id s) id).

Lemma find_hasId_json (id : string) (scenarios : list Scenario) :
  find (hasId id) (map json scenarios) =
  option_map json (find (hasId id) scenarios).
Proof.
  induction scenarios as [|s rest IH]; simpl; [reflexivity|].
  destruct (String.eqb (SavedScenario.id s) id); [reflexivity | exact IH].
Qed.

Lemma find_hasId_fresh (id : string) (scenarios : list Scenario) (s : Scenario) :
  (forall s0, In s0 scenarios -> SavedScenario.id s0 <> id) ->
  SavedScenario.id s = id ->
  find (hasId id) (scenarios ++ [s]) = Some s.
Proof.
  intros Hfresh Hs. induction scenarios as [|s0 rest IH]; simpl.
  - now rewrite (proj2 (String.eqb_eq _ _) Hs).
  - rewrite (proj2 (String.eqb_neq _ _) (Hfresh s0 (or_introl eq_refl))).
    apply IH. intros s1 H1. apply Hfresh. now right.
Qed.

(** [findIndex] and [find] stop at the same element. *)
Lemma findIndex_find (id : string) (scenarios : list Scenario) (old : Scenario) :
  find (hasId id) scenarios = Some old ->
  exists index,
    findIndex (hasId id) scenarios = Some index
    /\ nth_error scenarios index = Some old.
Proof.
  induction scenarios as [|s rest IH]; simpl; [discriminate|].
  destruct (String.eqb (SavedScenario.id s) id).
  - intros [= <-]. now exists O.
  - intros H. destruct (IH H) as (index & -> & Hnth). now exists (S index).
Qed.

Lemma find_assignAt (id : string) (scenarios : list Scenario)
    (index : nat) (s : Scenario) :
  findIndex (hasId id) scenarios = Some index ->
  SavedScenario.id s = id ->
  find (hasId id) (assignAt index s scenarios) = Some s.
Proof.
  intros Hidx Hs. revert index Hidx.
  induction scenarios as [|s0 rest IH]; simpl; intros index; [discriminate|].
  destruct (String.eqb (SavedScenario.id s0) id) eqn:E0.
  - intros [= <-]. simpl. now rewrite (proj2 (String.eqb_eq _ _) Hs).
  - destruct (findIndex _ rest) as [n|]; [|discriminate].
    intros [= <-]. simpl. rewrite E0. now apply IH.
Qed.

(** C9, as amended. When the store holds no scenario with the new id,
    [saveScenario] followed by [getScenario] on the returned id gives the
    saved scenario as JSON carries it (its strings unchanged, its payload
    passed through [JSON.stringify] and [JSON.parse]).  [updateScenario] on
    an id that is in the store returns the stored scenario with its id and
    [createdAt] kept, [name], [inputs], [calculation] and [amortization]
    replaced and [updatedAt] set to the clock reading, and [getScenario]
    then gives that scenario as JSON carries it. *)
Theorem scenario_round_trip :
  (forall storage now nowMs name inputs calculation amortization
          scenario storage',
     saveScenario jsonInputs jsonCalculation jsonAmortization quota
       storage now nowMs name inputs calculation amortization
     = Some (scenario, storage') ->
     (forall s, In s (getAllScenarios storage) ->
                SavedScenario.id s <> scenarioId nowMs) ->
     scenario =
       {| SavedScenario.id := scenarioId nowMs;
          SavedScenario.name := name;
          SavedScenario.inputs := inputs;
          SavedScenario.calculation := calculation;
          SavedScenario.amortization := amortization;
          SavedScenario.createdAt := now;
          SavedScenario.updatedAt := now |}
     /\ getScenario storage' (SavedScenario.id scenario)
        = Some (json scenario))
  /\
  (forall storage now id name inputs calculation amortization
          old result storage',
     getScenario storage id = Some old ->
     updateScenario jsonInputs jsonCalculation jsonAmortization quota
       storage now id name inputs calculation amortization
     = Some (result, storage') ->
     exists updated,
       result = Some updated
       /\ updated =
          {| SavedScenario.id := SavedScenario.id old;
             SavedScenario.name := name;
             SavedScenario.inputs := inputs;
             SavedScenario.calculation := calculation;
             SavedScenario.amortization := amortization;
             SavedScenario.createdAt := SavedScenario.createdAt old;
             SavedScenario.updatedAt := now |}
       /\ SavedScenario.id updated = id
       /\ getScenario storage' id = Some (json updated)).
Proof.
  split.
  - intros storage now nowMs name inputs calculation amortization
      scenario storage' Hsave Hfresh.
    unfold saveScenario, setItem in Hsave.
    destruct (quota _); [|discriminate].
    injection Hsave as <- <-. split; [reflexivity|].
    unfold getScenario. simpl getAllScenarios.
    rewrite find_hasId_json, find_hasId_fresh; auto.
  - intros storage now id name inputs calculation amortization
      old result storage' Hold Hupdate.
    unfold getScenario in Hold.
    destruct (findIndex_find _ _ _ Hold) as (index & Hidx & Hnth).
    assert (Hid : SavedScenario.id old = id).
    { apply find_some in Hold. now apply String.eqb_eq. }
    unfold updateScenario, setItem in Hupdate.
    rewrite Hidx, Hnth in Hupdate.
    destruct (quota _); [|discriminate].
    injection Hupdate as <- <-.
    eexists. split; [reflexivity|]. split; [reflexivity|].
    split; [exact Hid|].
    unfold getScenario. simpl getAllScenarios.
    rewrite find_hasId_json.
    erewrite find_assignAt; [reflexivity | exact Hidx | exact Hid].
Qed.
End StorageProperties.

(** ** Cash purchases: a loan amount of zero *)

Section ZeroLoan.
Local Open Scope float_scope.
Import JS.

Variable pow : number -> number -> number.

Lemma annuityDefined_rate_finite (annualRate termYears : number) :
  annuityDefined pow annualRate termYears = true ->
  is_finite (annualRate / 100 / 12) = true.
Proof.
  unfold annuityDefined. intros H. apply orb_prop in H.
  destruct H as [H|H].
  - now apply is_zero_finite.
  - apply andb_prop in H. destruct H as [H _].
    apply andb_prop in H. destruct H as [H _].
    exact (mul_finite_l _ _ H).
Qed.

(** With no principal the payment is a zero, for every term of at least a
    year and every rate at which the annuity formula is defined. *)
Lemma zero_principal_payment (principal annualRate termYears : number) :
  is_zero principal = true ->
  (1 <=? termYears) = true ->
  annuityDefined pow annualRate termYears = true ->
  is_zero (calculateMonthlyPayment pow principal annualRate termYears) = true.
Proof.
  intros Hp Hterm Hrate. apply one_leb_mul_twelve in Hterm.
  unfold calculateMonthlyPayment. unfold annuityDefined in Hrate.
  destruct (annualRate / 100 / 12 =? 0).
  - apply div_zero_l;
      [exact Hp | now apply one_leb_not_nan | now apply one_leb_not_zero].
  - simpl in Hrate.
    apply andb_prop in Hrate. destruct Hrate as [Hrate Hzero].
    apply andb_prop in Hrate. destruct Hrate as [Hfin Hnan].
    apply negb_true_iff in Hzero, Hnan.
    apply div_zero_l; [|exact Hnan|exact Hzero].
    now apply mul_zero_l.
Qed.

Lemma div_zero_const (z c : number) :
  is_zero z = true -> is_nan c = false -> is_zero c = false ->
  is_zero (z / c) = true.
Proof. apply div_zero_l. Qed.

(** C7, as amended. For a loan amount of 0, a finite term of at least one
    year, a rate at which the annuity formula is defined (the monthly rate
    is 0, or [r * (1+r)^n] is finite and [(1+r)^n - 1] is a number other
    than 0) and a PMI rate that, if supplied, is finite,
    [calculateMortgage] returns [principalAndInterest], [totalInterest],
    [pmiMonthly] and [totalPMI] equal to 0 and a finite [monthlyRate]. *)
Theorem zero_loan_calculation (inputs : MortgageInputs.t) :
  (MortgageInputs.loanAmount inputs =? 0) = true ->
  (1 <=? MortgageInputs.loanTermYears inputs) = true ->
  is_finite (MortgageInputs.loanTermYears inputs) = true ->
  annuityDefined pow (MortgageInputs.interestRate inputs)
    (MortgageInputs.loanTermYears inputs) = true ->
  (forall rate, MortgageInputs.pmiRate inputs = Some rate ->
                is_finite rate = true) ->
  let calculation := calculateMortgage pow inputs in
  (MortgageCalculation.principalAndInterest calculation =? 0) = true
  /\ (MortgageCalculation.totalInterest calculation =? 0) = true
  /\ (MortgageCalculation.pmiMonthly calculation =? 0) = true
  /\ (MortgageCalculation.totalPMI calculation =? 0) = true
  /\ is_finite (MortgageCalculation.monthlyRate calculation) = true.
Proof.
  intros Hloan Hterm Hfin Hrate Hpmi calculation.
  change (is_zero (MortgageInputs.loanAmount inputs) = true) in Hloan.
  assert (Hpay : is_zero (MortgageCalculation.principalAndInterest calculation)
                 = true)
    by (apply zero_principal_payment; assumption).
  assert (Hpmi0 : is_zero (MortgageCalculation.pmiMonthly calculation) = true).
  { subst calculation. simpl.
    destruct (MortgageInputs.pmiRate inputs) as [rate|] eqn:Erate;
      [|reflexivity].
    destruct (truthy rate); [|reflexivity].
    unfold calculatePMI. destruct (geb _ 20); [reflexivity|].
    apply div_zero_const; [|reflexivity|reflexivity].
    apply div_zero_const; [|reflexivity|reflexivity].
    apply mul_zero_l; [exact Hloan | now apply Hpmi]. }
  assert (Htimes : forall z, is_zero z = true ->
                   is_zero (z * MortgageInputs.loanTermYears inputs * 12) = true).
  { intros z Hz. apply mul_zero_l; [|reflexivity]. now apply mul_zero_l. }
  change ((?x =? 0) = true) with (is_zero x = true).
  repeat split.
  - exact Hpay.
  - subst calculation. simpl. unfold calculateTotalInterest.
    apply sub_zero_zero; [|exact Hloan]. apply Htimes. exact Hpay.
  - exact Hpmi0.
  - apply Htimes. exact Hpmi0.
  - now apply annuityDefined_rate_finite with (termYears := MortgageInputs.loanTermYears inputs).
Qed.

Variable Date : Type.
Variable getMonth : Date -> Z.
Variable setMonth : Date -> Z -> Date.
Variable toISOString : Date -> string.

(** C10, as amended. For a loan amount of 0, a term of at least one year
    and a rate at which the annuity formula is defined,
    [generateAmortizationTable] returns exactly one entry: payment number 1
    with beginning balance, payment, principal, interest, ending balance and
    both cumulative totals equal to 0. *)
Theorem zero_loan_table (fuel : nat) (inputs : MortgageInputs.t)
    (startDate : Date) :
  (MortgageInputs.loanAmount inputs =? 0) = true ->
  (1 <=? MortgageInputs.loanTermYears inputs) = true ->
  annuityDefined pow (MortgageInputs.interestRate inputs)
    (MortgageInputs.loanTermYears inputs) = true ->
  (1 <= fuel)%nat ->
  exists e,
    generateAmortizationTable pow getMonth setMonth toISOString fuel inputs
      startDate = Some [e]
    /\ AmortizationEntry.paymentNumber e = 1
    /\ (AmortizationEntry.beginningBalance e =? 0) = true
    /\ (AmortizationEntry.monthlyPayment e =? 0) = true
    /\ (AmortizationEntry.principalPayment e =? 0) = true
    /\ (AmortizationEntry.interestPayment e =? 0) = true
    /\ (AmortizationEntry.endingBalance e =? 0) = true
    /\ (AmortizationEntry.cumulativeInterest e =? 0) = true
    /\ (AmortizationEntry.cumulativePrincipal e =? 0) = true.
Proof.
  intros Hloan Hterm Hrate Hfuel.
  change (is_zero (MortgageInputs.loanAmount inputs) = true) in Hloan.
  destruct fuel as [|fuel]; [lia|].
  unfold generateAmortizationTable.
  set (calculation := calculateMortgage pow inputs).
  assert (Hpay : is_zero (MortgageCalculation.principalAndInterest calculation)
                 = true)
    by (apply zero_principal_payment; assumption).
  assert (Hr : is_finite (MortgageCalculation.monthlyRate calculation) = true)
    by (apply annuityDefined_rate_finite
          with (termYears := MortgageInputs.loanTermYears inputs); assumption).
  set (mp := MortgageCalculation.principalAndInterest calculation) in *.
  set (r := MortgageCalculation.monthlyRate calculation) in *.
  set (P := MortgageInputs.loanAmount inputs) in *.
  assert (Hi : is_zero (P * r) = true) by now apply mul_zero_l.
  assert (Hpr : is_zero (mp - P * r) = true) by now apply sub_zero_zero.
  assert (Hend : Math_max 0 (P - (mp - P * r)) = 0)
    by (apply Math_max_zero; now apply sub_zero_zero).
  rewrite loop_unfold.
  change (of_Z 1) with 1.
  rewrite (one_leb_mul_twelve _ Hterm). cbv zeta.
  set (e := entryOf getMonth setMonth toISOString mp r startDate 1 P 0 0).
  assert (He : AmortizationEntry.endingBalance e = 0) by exact Hend.
  rewrite He. change (0 <=? 0.01) with true. cbv iota.
  exists e. split; [reflexivity|].
  change ((?x =? 0) = true) with (is_zero x = true).
  repeat split; try assumption.
  - rewrite He. reflexivity.
  - unfold e, entryOf. cbn [AmortizationEntry.cumulativeInterest].
    rewrite add_pos_zero_l by assumption. reflexivity.
  - unfold e, entryOf. cbn [AmortizationEntry.cumulativePrincipal].
    rewrite add_pos_zero_l by assumption. reflexivity.
Qed.
End ZeroLoan.

(** ** The properties on concrete inputs *)

Section ConcreteInputs.
Local Open Scope float_scope.
Import JS.

(** C1 on a ten-year loan of 120000 at 0 % and on a one-year loan of 1000
    at 1200 %, whose monthly rate is 1. *)
Lemma calculateMonthlyPayment_formula_witness :
  calculateMonthlyPayment Host.pow 120000 0 10 = 120000 / (10 * 12)
  /\ calculateMonthlyPayment Host.pow 1000 1200 1 =
     1000 * (1200 / 100 / 12
             * Host.pow (1 + 1200 / 100 / 12) (1 * 12))
     / (Host.pow (1 + 1200 / 100 / 12) (1 * 12) - 1).
Proof.
  split.
  - apply (proj1 (calculateMonthlyPayment_formula Host.pow 120000 0 10)).
    reflexivity.
  - apply (proj2 (calculateMonthlyPayment_formula Host.pow 1000 1200 1)).
    reflexivity.
Defined.

Lemma oneYearTable_generated :
  Sample.generate 13 Sample.oneYear Sample.startDate
  = Some Sample.oneYearTable.
Proof. vm_compute. reflexivity. Qed.

(** C2 on the one-year schedule. *)
Lemma amortization_table_invariant_witness :
  (forall e, hd_error Sample.oneYearTable = Some e ->
     AmortizationEntry.beginningBalance e = 12000)
  /\ (forall k e e',
        nth_error Sample.oneYearTable k = Some e ->
        nth_error Sample.oneYearTable (S k) = Some e' ->
        AmortizationEntry.endingBalance e =
        AmortizationEntry.beginningBalance e').
Proof.
  destruct (amortization_table_invariant Host.pow Host.Date Host.getMonth Host.setMonth
              Host.toISOString 13 Sample.oneYear Sample.startDate
              Sample.oneYearTable oneYearTable_generated)
    as (Hhead & _ & Hchain).
  split; assumption.
Defined.

(** C2, the claim as stated fails: at -600 % the first entry of a one-year
    schedule for 1000 has principal 500.12210012210011 and interest -500,
    whose sum 0.12210012210010746 is not the payment 0.1221001221001221. *)
Lemma principal_plus_interest_inexact :
  exists table e,
    Sample.generate 13 Sample.negativeRate Sample.startDate = Some table
    /\ hd_error table = Some e
    /\ AmortizationEntry.principalPayment e =
       AmortizationEntry.monthlyPayment e - AmortizationEntry.interestPayment e
    /\ (AmortizationEntry.principalPayment e
        + AmortizationEntry.interestPayment e
        =? AmortizationEntry.monthlyPayment e) = false.
Proof.
  eexists. eexists. split; [vm_compute; reflexivity|].
  split; [reflexivity|]. split; vm_compute; reflexivity.
Qed.

Lemma cashTable_generated :
  Sample.generate 2 Sample.cashPurchase Sample.startDate
  = Some Sample.cashTable.
Proof. vm_compute. reflexivity. Qed.

(** C3 on the one-year schedule, twelve entries for twelve payments, and
    on the schedule of a cash purchase, which stops after one entry with 359
    payments to go. *)
Lemma amortization_table_length_witness :
  (of_Z (Z.of_nat (List.length Sample.oneYearTable))
   <=? MortgageInputs.loanTermYears Sample.oneYear * 12) = true
  /\ exists pre e,
       Sample.cashTable = pre ++ [e]
       /\ (AmortizationEntry.endingBalance e <=? 0.01) = true.
Proof.
  split.
  - apply (proj1 (amortization_table_length Host.pow Host.Date Host.getMonth
                    Host.setMonth Host.toISOString 13 Sample.oneYear
                    Sample.startDate Sample.oneYearTable oneYearTable_generated)).
    left. reflexivity.
  - apply (proj2 (amortization_table_length Host.pow Host.Date Host.getMonth
                    Host.setMonth Host.toISOString 2 Sample.cashPurchase
                    Sample.startDate Sample.cashTable cashTable_generated)).
    reflexivity.
Defined.

(** C3, the claim as stated fails: a term of 1.05 years gives 12.6
    payments; the table has 12 entries, fewer than 12.6, and its last entry
    still owes 47.62. *)
Lemma fractional_term_stops_unpaid :
  exists table e,
    Sample.generate 14 Sample.fractionalTerm Sample.startDate = Some table
    /\ List.length table = 12%nat
    /\ nth_error table 11 = Some e
    /\ (of_Z (Z.of_nat (List.length table))
        <? MortgageInputs.loanTermYears Sample.fractionalTerm * 12) = true
    /\ (AmortizationEntry.endingBalance e <=? 0.01) = false.
Proof.
  eexists. eexists.
  split; [vm_compute; reflexivity|].
  split; [reflexivity|].
  split; [reflexivity|].
  split; vm_compute; reflexivity.
Qed.

(** A negative term gives an empty table, whose length 0 is not at most
    [loanTermYears * 12]. *)
Lemma negative_term_table_is_empty :
  Sample.generate 1 (Sample.loan 1000 0 (-1) 0 None) Sample.startDate = Some []
  /\ (of_Z 0 <=? -1 * 12) = false.
Proof.
  split; vm_compute; reflexivity.
Qed.

(** C4 on the worked example: a down payment of 16.7 % and a PMI rate of
    0.5 % give 125 a month. *)
Lemma pmiMonthly_rule_witness :
  MortgageCalculation.pmiMonthly (calculateMortgage Host.pow Sample.knownGood)
  = 300000 * 0.5 / 100 / 12.
Proof.
  apply (proj1 (proj2 (proj2 (pmiMonthly_rule Host.pow Sample.knownGood))) 0.5);
    reflexivity.
Defined.

(** C4, the claim as stated fails: a down payment of 52428.799999999996 on
    a price of 262144 is the ratio 0.19999999999999998, below 0.20, and a
    PMI rate is supplied, yet times 100 the ratio rounds to 20 and
    [pmiMonthly] is 0, not [loanAmount * pmiRate / 100 / 12]. *)
Lemma pmi_threshold_rounding :
  let inputs := Sample.nearThreshold in
  let purchasePrice :=
    MortgageInputs.loanAmount inputs + MortgageInputs.downPayment inputs in
  (MortgageInputs.downPayment inputs / purchasePrice <? 0.20) = true
  /\ MortgageInputs.pmiRate inputs = Some 0.5
  /\ MortgageCalculation.pmiMonthly (calculateMortgage Host.pow inputs) = 0
  /\ (MortgageCalculation.pmiMonthly (calculateMortgage Host.pow inputs)
      =? MortgageInputs.loanAmount inputs * 0.5 / 100 / 12) = false.
Proof.
  repeat split; vm_compute; reflexivity.
Qed.

(** The nominal total of C5 is not the sum of the interest column: for
    1000 over one year at -600 % the last cumulative interest is
    -998.53479853479837 and [totalInterest] is -998.53479853479848. *)
Lemma totalInterest_is_not_the_interest_column :
  exists table e,
    Sample.generate 13 Sample.negativeRate Sample.startDate = Some table
    /\ List.length table = 12%nat
    /\ nth_error table 11 = Some e
    /\ (AmortizationEntry.cumulativeInterest e
        =? MortgageCalculation.totalInterest
             (calculateMortgage Host.pow Sample.negativeRate)) = false.
Proof.
  eexists. eexists.
  split; [vm_compute; reflexivity|].
  split; [reflexivity|]. split; [reflexivity|].
  vm_compute. reflexivity.
Qed.

(** C7 on a cash purchase at 6.5 % over 30 years. *)
Lemma zero_loan_calculation_witness :
  let calculation := calculateMortgage Host.pow Sample.cashPurchase in
  (MortgageCalculation.principalAndInterest calculation =? 0) = true
  /\ (MortgageCalculation.totalInterest calculation =? 0) = true
  /\ (MortgageCalculation.pmiMonthly calculation =? 0) = true
  /\ (MortgageCalculation.totalPMI calculation =? 0) = true
  /\ is_finite (MortgageCalculation.monthlyRate calculation) = true.
Proof.
  apply (zero_loan_calculation Host.pow Sample.cashPurchase);
    try (vm_compute; reflexivity).
  intros rate [= <-]. reflexivity.
Defined.

(** C7, the claim as stated fails: for a cash purchase over one year at
    -2400 %, where [1 + r] is -1 and [(1+r)^12 - 1] is 0, the payment is
    0/0: [principalAndInterest], [totalInterest], [totalMonthlyPayment] and
    [totalPayments] are [NaN]. *)
Lemma zero_loan_nan_at_odd_rate :
  let calculation := calculateMortgage Host.pow Sample.cashPurchaseOddRate in
  MortgageInputs.loanAmount Sample.cashPurchaseOddRate = 0
  /\ (1 <=? MortgageInputs.loanTermYears Sample.cashPurchaseOddRate) = true
  /\ is_nan (MortgageCalculation.principalAndInterest calculation) = true
  /\ is_nan (MortgageCalculation.totalInterest calculation) = true
  /\ is_nan (MortgageCalculation.totalMonthlyPayment calculation) = true
  /\ is_nan (MortgageCalculation.totalPayments calculation) = true.
Proof.
  repeat split; vm_compute; reflexivity.
Qed.

(** The same 0/0 inside the range [validateInputs] accepts: at a rate of
    1e-14 % the monthly rate is not 0 but [1 + r] rounds to 1, and the
    payment of a cash purchase is [NaN] (that of a loan, infinite). *)
Lemma zero_loan_nan_at_tiny_rate :
  MortgageUtils.validateInputs Sample.cashPurchaseTinyRate = []
  /\ is_nan (MortgageCalculation.principalAndInterest
               (calculateMortgage Host.pow Sample.cashPurchaseTinyRate)) = true
  /\ calculateMonthlyPayment Host.pow 300000 1e-14 30 = infinity
  /\ option_map (@List.length _)
       (Sample.generate 13 Sample.cashPurchaseTinyRate Sample.startDate)
     = Some 12%nat.
Proof.
  repeat split; vm_compute; reflexivity.
Qed.

(** Why C7 asks for a finite term and a finite PMI rate: with no loan, an
    infinite term makes [totalInterest] the product of 0 and an infinity,
    and an infinite PMI rate does the same to [pmiMonthly]. *)
Lemma zero_loan_nan_at_infinite_inputs :
  is_nan (MortgageCalculation.totalInterest
            (calculateMortgage Host.pow (Sample.loan 0 0 infinity 300000 None)))
  = true
  /\ is_nan (MortgageCalculation.pmiMonthly
               (calculateMortgage Host.pow
                  (Sample.loan 0 0 30 0 (Some infinity))))
     = true.
Proof.
  split; vm_compute; reflexivity.
Qed.

(** C8 on the one-year schedule from 31 January 2024: 1 May 2024 is the
    date of the third payment (the first two fall on 2 and 31 March), and no
    payment falls on 15 June 2024. *)
Lemma lookups_by_date_witness :
  (exists entry,
     nth_error Sample.oneYearTable 2 = Some entry
     /\ calculatePrincipalPaidByDate Host.pow Host.getMonth Host.setMonth
          Host.toISOString 13 Sample.oneYear (Host.mkDate 2024 4 1)
          Sample.startDate
        = Some (AmortizationEntry.cumulativePrincipal entry)
     /\ calculateInterestPaidByDate Host.pow Host.getMonth Host.setMonth
          Host.toISOString 13 Sample.oneYear (Host.mkDate 2024 4 1)
          Sample.startDate
        = Some (AmortizationEntry.cumulativeInterest entry)
     /\ calculateRemainingBalance Host.pow Host.getMonth Host.setMonth
          Host.toISOString 13 Sample.oneYear (Host.mkDate 2024 4 1)
          Sample.startDate
        = Some (AmortizationEntry.endingBalance entry))
  /\ (calculatePrincipalPaidByDate Host.pow Host.getMonth Host.setMonth
         Host.toISOString 13 Sample.oneYear (Host.mkDate 2024 5 15)
         Sample.startDate
       = Some 0
      /\ calculateInterestPaidByDate Host.pow Host.getMonth Host.setMonth
           Host.toISOString 13 Sample.oneYear (Host.mkDate 2024 5 15)
           Sample.startDate
         = Some 0
      /\ calculateRemainingBalance Host.pow Host.getMonth Host.setMonth
           Host.toISOString 13 Sample.oneYear (Host.mkDate 2024 5 15)
           Sample.startDate
         = Some 12000).
Proof.
  split.
  - destruct (nth_error Sample.oneYearTable 2) as [entry|] eqn:Hentry;
      [|discriminate].
    exists entry. split; [reflexivity|].
    apply (proj1 (lookups_by_date Host.pow Host.Date Host.getMonth Host.setMonth
                    Host.toISOString 13 Sample.oneYear (Host.mkDate 2024 4 1)
                    Sample.startDate Sample.oneYearTable oneYearTable_generated)
             (firstn 2 Sample.oneYearTable) entry (skipn 3 Sample.oneYearTable)).
    + injection Hentry as <-. reflexivity.
    + injection Hentry as <-. reflexivity.
    + intros e He. vm_compute in He.
      destruct He as [<-|[<-|[]]]; vm_compute; discriminate.
  - apply (proj2 (lookups_by_date Host.pow Host.Date Host.getMonth Host.setMonth
                    Host.toISOString 13 Sample.oneYear (Host.mkDate 2024 5 15)
                    Sample.startDate Sample.oneYearTable oneYearTable_generated)).
    intros e He. vm_compute in He.
    repeat (destruct He as [<-|He]; [vm_compute; discriminate|]).
    destruct He.
Defined.
End ConcreteInputs.

Section ConcreteScenarios.
Local Open Scope float_scope.
Import JS.

(** C10 on a cash purchase at 6.5 % over 30 years. *)
Lemma zero_loan_table_witness :
  exists e,
    Sample.generate 400 Sample.cashPurchase Sample.startDate = Some [e]
    /\ AmortizationEntry.paymentNumber e = 1
    /\ (AmortizationEntry.beginningBalance e =? 0) = true
    /\ (AmortizationEntry.monthlyPayment e =? 0) = true
    /\ (AmortizationEntry.principalPayment e =? 0) = true
    /\ (AmortizationEntry.interestPayment e =? 0) = true
    /\ (AmortizationEntry.endingBalance e =? 0) = true
    /\ (AmortizationEntry.cumulativeInterest e =? 0) = true
    /\ (AmortizationEntry.cumulativePrincipal e =? 0) = true.
Proof.
  apply (zero_loan_table Host.pow Host.Date Host.getMonth Host.setMonth
           Host.toISOString 400 Sample.cashPurchase Sample.startDate);
    try (vm_compute; reflexivity).
  lia.
Defined.

(** C10, the claim as stated fails: for a cash purchase over one year at
    -2400 % the payment is [NaN], no balance ever compares as paid off,
    and the table has twelve entries whose payment is [NaN]. *)
Lemma zero_loan_table_at_odd_rate :
  exists table e,
    MortgageInputs.loanAmount Sample.cashPurchaseOddRate = 0
    /\ (1 <=? MortgageInputs.loanTermYears Sample.cashPurchaseOddRate) = true
    /\ Sample.generate 13 Sample.cashPurchaseOddRate Sample.startDate
       = Some table
    /\ List.length table = 12%nat
    /\ hd_error table = Some e
    /\ is_nan (AmortizationEntry.monthlyPayment e) = true
    /\ is_nan (AmortizationEntry.endingBalance e) = true.
Proof.
  eexists. eexists.
  split; [reflexivity|]. split; [reflexivity|].
  split; [vm_compute; reflexivity|].
  split; [reflexivity|]. split; [reflexivity|].
  split; vm_compute; reflexivity.
Qed.

(** C9 on an empty store: the one-year loan saved and read back, then
    renamed by an update a day later and read back again. *)
Lemma scenario_round_trip_witness :
  Sample.save (Missing _ _ _) Sample.clock Sample.clockMs "Starter home"%string
    Sample.oneYear (calculateMortgage Host.pow Sample.oneYear)
    Sample.oneYearTable
  = Some (Sample.savedScenario, Stored [Sample.savedScenario])
  /\ getScenario (Stored [Sample.savedScenario]) "scenario_1706702400000"%string
     = Some Sample.savedScenario
  /\ Sample.update (Stored [Sample.savedScenario]) Sample.laterClock
       "scenario_1706702400000"%string "First home"%string Sample.oneYear
       (calculateMortgage Host.pow Sample.oneYear) Sample.oneYearTable
     = Some (Some Sample.updatedScenario, Stored [Sample.updatedScenario])
  /\ getScenario (Stored [Sample.updatedScenario]) "scenario_1706702400000"%string
     = Some Sample.updatedScenario.
Proof.
  pose (rt := scenario_round_trip MortgageInputs.t MortgageCalculation.t
                (list AmortizationEntry.t) (fun x => x) (fun x => x)
                (fun x => x) (fun _ => true)).
  assert (Hsave :
    Sample.save (Missing _ _ _) Sample.clock Sample.clockMs "Starter home"%string
      Sample.oneYear (calculateMortgage Host.pow Sample.oneYear)
      Sample.oneYearTable
    = Some (Sample.savedScenario, Stored [Sample.savedScenario]))
    by reflexivity.
  assert (Hupdate :
    Sample.update (Stored [Sample.savedScenario]) Sample.laterClock
      "scenario_1706702400000"%string "First home"%string Sample.oneYear
      (calculateMortgage Host.pow Sample.oneYear) Sample.oneYearTable
    = Some (Some Sample.updatedScenario, Stored [Sample.updatedScenario]))
    by reflexivity.
  assert (Hget :
    getScenario (Stored [Sample.savedScenario]) "scenario_1706702400000"%string
    = Some Sample.savedScenario).
  { refine (proj2 (proj1 rt _ _ _ _ _ _ _ _ _ Hsave _)). intros s []. }
  split; [exact Hsave|]. split; [exact Hget|]. split; [exact Hupdate|].
  destruct (proj2 rt _ _ _ _ _ _ _ _ _ _ Hget Hupdate)
    as (updated & [= <-] & _ & _ & Hget').
  exact Hget'.
Defined.

(** C9, the claim as stated fails: two scenarios saved within the same
    millisecond get the same id, and [getScenario] on the id returned for
    the second gives the first. *)
Lemma same_millisecond_ids_collide :
  exists first storage1 second storage2,
    Sample.save (Missing _ _ _) Sample.clock Sample.clockMs "First"%string
      Sample.knownGood (calculateMortgage Host.pow Sample.knownGood) []
    = Some (first, storage1)
    /\ Sample.save storage1 Sample.clock Sample.clockMs "Second"%string
         Sample.oneYear (calculateMortgage Host.pow Sample.oneYear)
         Sample.oneYearTable
       = Some (second, storage2)
    /\ getScenario storage2 (SavedScenario.id second) = Some first
    /\ SavedScenario.name first <> SavedScenario.name second.
Proof.
  eexists. eexists. eexists. eexists.
  split; [reflexivity|]. split; [reflexivity|].
  split; [reflexivity|]. discriminate.
Qed.
End ConcreteScenarios.

(** * Further properties of the code *)

(** ** More binary64 facts *)

Section NaNFacts.
Local Open Scope float_scope.

(** [NaN] spreads through the four operations. *)
Lemma nan_mul_l (a b : number) : is_nan a = true -> is_nan (a * b) = true.
Proof.
  intros H%is_nan_spec. apply is_nan_spec. rewrite mul_spec, H. reflexivity.
Qed.

Lemma nan_mul_r (a b : number) : is_nan b = true -> is_nan (a * b) = true.
Proof.
  intros H%is_nan_spec. apply is_nan_spec. rewrite mul_spec, H.
  unfold SF64mul. destruct (Prim2SF a) as [s | s | | s m e]; reflexivity.
Qed.

Lemma nan_div_l (a b : number) : is_nan a = true -> is_nan (a / b) = true.
Proof.
  intros H%is_nan_spec. apply is_nan_spec. rewrite div_spec, H. reflexivity.
Qed.

Lemma nan_div_r (a b : number) : is_nan b = true -> is_nan (a / b) = true.
Proof.
  intros H%is_nan_spec. apply is_nan_spec. rewrite div_spec, H.
  unfold SF64div. destruct (Prim2SF a) as [s | s | | s m e]; reflexivity.
Qed.

Lemma nan_add_l (a b : number) : is_nan a = true -> is_nan (a + b) = true.
Proof.
  intros H%is_nan_spec. apply is_nan_spec. rewrite add_spec, H. reflexivity.
Qed.

Lemma nan_add_r (a b : number) : is_nan b = true -> is_nan (a + b) = true.
Proof.
  intros H%is_nan_spec. apply is_nan_spec. rewrite add_spec, H.
  unfold SF64add. destruct (Prim2SF a) as [s | s | | s m e]; reflexivity.
Qed.

Lemma nan_sub_l (a b : number) : is_nan a = true -> is_nan (a - b) = true.
Proof.
  intros H%is_nan_spec. apply is_nan_spec. rewrite sub_spec, H. reflexivity.
Qed.

(** Every comparison with [NaN] is false. *)
Lemma nan_ltb_l (a b : number) : is_nan a = true -> (a <? b) = false.
Proof. intros H%is_nan_spec. rewrite ltb_spec, H. reflexivity. Qed.

Lemma nan_ltb_r (a b : number) : is_nan b = true -> (a <? b) = false.
Proof.
  intros H%is_nan_spec. rewrite ltb_spec, H. unfold SFltb.
  destruct (Prim2SF a) as [s | s | | s m e]; reflexivity.
Qed.

Lemma nan_leb_l (a b : number) : is_nan a = true -> (a <=? b) = false.
Proof. intros H%is_nan_spec. rewrite leb_spec, H. reflexivity. Qed.

Lemma nan_leb_r (a b : number) : is_nan b = true -> (a <=? b) = false.
Proof.
  intros H%is_nan_spec. rewrite leb_spec, H. unfold SFleb.
  destruct (Prim2SF a) as [s | s | | s m e]; reflexivity.
Qed.

Lemma nan_eqb_l (a b : number) : is_nan a = true -> (a =? b) = false.
Proof. intros H%is_nan_spec. rewrite eqb_spec, H. reflexivity. Qed.

(** [a < b] gives [a <= b]. *)
Lemma ltb_leb (a b : number) : (a <? b) = true -> (a <=? b) = true.
Proof.
  rewrite ltb_spec, leb_spec. unfold SFltb, SFleb.
  destruct (SFcompare (Prim2SF a) (Prim2SF b)) as [[ | | ] | ]; congruence.
Qed.

(** No number is below itself. *)
Lemma ltb_irrefl (a : number) : (a <? a) = false.
Proof.
  rewrite ltb_spec. unfold SFltb.
  destruct (Prim2SF a) as [s | s | | s m e] eqn:E; try reflexivity.
  - destruct s; reflexivity.
  - rewrite SFcompare_refl by discriminate. reflexivity.
Qed.

(** [0 + d] has the value of [d]. *)
Lemma zero_add_not_above (z d : number) :
  is_zero z = true -> (z + d <? d) = false.
Proof.
  intros [s Hs]%is_zero_spec. rewrite ltb_spec, add_spec, Hs.
  unfold SF64add, SFadd, SFltb.
  destruct (Prim2SF d) as [s' | s' | | s' m e] eqn:E; try reflexivity.
  - destruct s, s'; reflexivity.
  - destruct s'; reflexivity.
  - rewrite SFcompare_refl by discriminate. reflexivity.
Qed.

(** [Math.max(0, x)] is [NaN] exactly when [x] is, and at least 0
    otherwise. *)
Lemma Math_max_zero_nan (x : number) :
  is_nan (JS.Math_max 0 x) = is_nan x.
Proof.
  unfold JS.Math_max. change (is_nan 0) with false. cbn [orb].
  destruct (is_nan x) eqn:Hn; [reflexivity|].
  destruct (0 <? x); [exact Hn|].
  destruct (x <? 0); [reflexivity|].
  change (get_sign 0) with false. reflexivity.
Qed.

Lemma Math_max_zero_nonneg (x : number) :
  is_nan x = false -> (0 <=? JS.Math_max 0 x) = true.
Proof.
  intros Hn. unfold JS.Math_max. change (is_nan 0) with false. cbn [orb].
  rewrite Hn.
  destruct (0 <? x) eqn:Hlt; [now apply ltb_leb|].
  destruct (x <? 0); [reflexivity|].
  change (get_sign 0) with false. reflexivity.
Qed.
End NaNFacts.

(** ** [validateInputs], check by check *)

Section MoreValidation.
Local Open Scope float_scope.
Import JS MortgageUtils.

Lemma includes_In (errors : list string) (msg : string) :
  includes errors msg = true <-> In msg errors.
Proof.
  unfold includes. rewrite existsb_exists. split.
  - intros (x & Hin & Heq). apply String.eqb_eq in Heq. now subst.
  - intros Hin. exists msg. split; [exact Hin | apply String.eqb_refl].
Qed.

(** The messages of nine checks, whatever their outcomes: each is there
    exactly when its check fired, and they come in the order of the
    checks. *)
Lemma messages_of_checks (c1 c2 c3 c4 c5 c6 c7 c8 c9 : bool) :
  let errors :=
    map snd
      (filter fst
         [ (c1, interestRateError); (c2, loanTermError);
           (c3, downPaymentNegativeError); (c4, downPaymentTooLargeError);
           (c5, propertyTaxError); (c6, homeInsuranceError);
           (c7, pmiRateError); (c8, hoaFeesError); (c9, closingCostsError) ]) in
  errors = filter (includes errors) validationMessages
  /\ includes errors interestRateError = c1
  /\ includes errors loanTermError = c2
  /\ includes errors downPaymentNegativeError = c3
  /\ includes errors downPaymentTooLargeError = c4
  /\ includes errors propertyTaxError = c5
  /\ includes errors homeInsuranceError = c6
  /\ includes errors pmiRateError = c7
  /\ includes errors hoaFeesError = c8
  /\ includes errors closingCostsError = c9.
Proof.
  destruct c1, c2, c3, c4, c5, c6, c7, c8, c9; vm_compute;
    repeat split; reflexivity.
Qed.

Lemma andOpt_true_iff (o : option number) (test : number -> bool) :
  (forall x, test x = true -> truthy x = true) ->
  andOpt o test = true <-> exists x, o = Some x /\ test x = true.
Proof.
  intros Htruthy. unfold andOpt. destruct o as [x|].
  - rewrite andb_true_iff. split.
    + intros [_ H]. eauto.
    + intros (x' & [= <-] & H). split; [now apply Htruthy | exact H].
  - split; [discriminate | intros (x & H & _); discriminate].
Qed.

(** Which messages [validateInputs] reports, as booleans. *)
Lemma validateInputs_includes (inputs : MortgageInputs.t) :
  let errors := validateInputs inputs in
  errors = filter (includes errors) validationMessages
  /\ includes errors interestRateError =
     (MortgageInputs.interestRate inputs <? 0)
     || gtb (MortgageInputs.interestRate inputs) 50
  /\ includes errors loanTermError =
     (MortgageInputs.loanTermYears inputs <=? 0)
     || gtb (MortgageInputs.loanTermYears inputs) 50
  /\ includes errors downPaymentNegativeError =
     (MortgageInputs.downPayment inputs <? 0)
  /\ includes errors downPaymentTooLargeError =
     gtb (MortgageInputs.downPayment inputs)
       (MortgageInputs.loanAmount inputs + MortgageInputs.downPayment inputs)
  /\ includes errors propertyTaxError =
     (MortgageInputs.propertyTaxAnnual inputs <? 0)
  /\ includes errors homeInsuranceError =
     (MortgageInputs.homeInsuranceAnnual inputs <? 0)
  /\ includes errors pmiRateError =
     andOpt (MortgageInputs.pmiRate inputs)
       (fun rate => (rate <? 0) || gtb rate 10)
  /\ includes errors hoaFeesError =
     andOpt (MortgageInputs.hoaFees inputs) (fun fees => fees <? 0)
  /\ includes errors closingCostsError =
     andOpt (MortgageInputs.closingCosts inputs) (fun costs => costs <? 0).
Proof.
  intros errors. subst errors. rewrite validateInputs_checks. unfold checks.
  apply messages_of_checks.
Qed.

Lemma not_In_includes (errors : list string) (msg : string) :
  includes errors msg = false -> ~ In msg errors.
Proof.
  intros H Hin. apply includes_In in Hin. congruence.
Qed.

(** An optional number that is [NaN] fails every [x && test(x)]. *)
Lemma andOpt_nan (o : option number) (test : number -> bool) (x : number) :
  o = Some x -> is_nan x = true -> andOpt o test = false.
Proof.
  intros -> Hn. unfold andOpt, truthy. rewrite Hn, orb_true_r. reflexivity.
Qed.

(** X1. [validateInputs] reports each of its nine messages exactly when
    that message's own condition holds, whatever the other fields are, and
    the messages it reports come in the order of the checks, none of them
    twice. *)
Theorem validateInputs_reports (inputs : MortgageInputs.t) :
  let errors := validateInputs inputs in
  errors = filter (includes errors) validationMessages
  /\ (In interestRateError errors <->
      (MortgageInputs.interestRate inputs <? 0) = true
      \/ gtb (MortgageInputs.interestRate inputs) 50 = true)
  /\ (In loanTermError errors <->
      (MortgageInputs.loanTermYears inputs <=? 0) = true
      \/ gtb (MortgageInputs.loanTermYears inputs) 50 = true)
  /\ (In downPaymentNegativeError errors <->
      (MortgageInputs.downPayment inputs <? 0) = true)
  /\ (In downPaymentTooLargeError errors <->
      gtb (MortgageInputs.downPayment inputs)
        (MortgageInputs.loanAmount inputs + MortgageInputs.downPayment inputs)
      = true)
  /\ (In propertyTaxError errors <->
      (MortgageInputs.propertyTaxAnnual inputs <? 0) = true)
  /\ (In homeInsuranceError errors <->
      (MortgageInputs.homeInsuranceAnnual inputs <? 0) = true)
  /\ (In pmiRateError errors <->
      exists rate, MortgageInputs.pmiRate inputs = Some rate
                   /\ ((rate <? 0) = true \/ gtb rate 10 = true))
  /\ (In hoaFeesError errors <->
      exists fees, MortgageInputs.hoaFees inputs = Some fees
                   /\ (fees <? 0) = true)
  /\ (In closingCostsError errors <->
      exists costs, MortgageInputs.closingCosts inputs = Some costs
                    /\ (costs <? 0) = true).
Proof.
  intros errors.
  destruct (validateInputs_includes inputs)
    as (Horder & H1 & H2 & H3 & H4 & H5 & H6 & H7 & H8 & H9).
  fold errors in Horder, H1, H2, H3, H4, H5, H6, H7, H8, H9.
  pose proof (andOpt_true_iff (MortgageInputs.pmiRate inputs)
                (fun rate => (rate <? 0) || gtb rate 10)) as Hpmi.
  pose proof (andOpt_true_iff (MortgageInputs.hoaFees inputs)
                (fun fees => fees <? 0) ltb_zero_truthy) as Hhoa.
  pose proof (andOpt_true_iff (MortgageInputs.closingCosts inputs)
                (fun costs => costs <? 0) ltb_zero_truthy) as Hclosing.
  cbv beta in Hpmi, Hhoa, Hclosing.
  destruct Hpmi as [Hpmi1 Hpmi2].
  { intros x Hx. apply orb_prop in Hx.
    destruct Hx; [now apply ltb_zero_truthy | now apply gtb_ten_truthy]. }
  split; [exact Horder|].
  rewrite <- !includes_In, H1, H2, H3, H4, H5, H6, H7, H8, H9.
  rewrite !orb_true_iff.
  repeat split; try tauto.
  - intros H. destruct (Hpmi1 H) as (rate & Hrate & Htest).
    exists rate. split; [exact Hrate | now apply orb_true_iff].
  - intros (rate & Hrate & Htest). apply Hpmi2. exists rate.
    split; [exact Hrate | now apply orb_true_iff].
Qed.

(** X2. No check of [validateInputs] fires on [NaN]: a field that is
    [NaN] never has its message reported, and inputs whose numbers are all
    [NaN] pass validation. *)
Theorem validateInputs_silent_on_nan (inputs : MortgageInputs.t) :
  let errors := validateInputs inputs in
  (is_nan (MortgageInputs.interestRate inputs) = true ->
     ~ In interestRateError errors)
  /\ (is_nan (MortgageInputs.loanTermYears inputs) = true ->
        ~ In loanTermError errors)
  /\ (is_nan (MortgageInputs.downPayment inputs) = true ->
        ~ In downPaymentNegativeError errors
        /\ ~ In downPaymentTooLargeError errors)
  /\ (is_nan (MortgageInputs.loanAmount inputs) = true ->
        ~ In downPaymentTooLargeError errors)
  /\ (is_nan (MortgageInputs.propertyTaxAnnual inputs) = true ->
        ~ In propertyTaxError errors)
  /\ (is_nan (MortgageInputs.homeInsuranceAnnual inputs) = true ->
        ~ In homeInsuranceError errors)
  /\ (forall rate, MortgageInputs.pmiRate inputs = Some rate ->
        is_nan rate = true -> ~ In pmiRateError errors)
  /\ (forall fees, MortgageInputs.hoaFees inputs = Some fees ->
        is_nan fees = true -> ~ In hoaFeesError errors)
  /\ (forall costs, MortgageInputs.closingCosts inputs = Some costs ->
        is_nan costs = true -> ~ In closingCostsError errors)
  /\ (is_nan (MortgageInputs.interestRate inputs) = true ->
      is_nan (MortgageInputs.loanTermYears inputs) = true ->
      is_nan (MortgageInputs.downPayment inputs) = true ->
      is_nan (MortgageInputs.propertyTaxAnnual inputs) = true ->
      is_nan (MortgageInputs.homeInsuranceAnnual inputs) = true ->
      (forall rate, MortgageInputs.pmiRate inputs = Some rate ->
                    is_nan rate = true) ->
      (forall fees, MortgageInputs.hoaFees inputs = Some fees ->
                    is_nan fees = true) ->
      (forall costs, MortgageInputs.closingCosts inputs = Some costs ->
                     is_nan costs = true) ->
      errors = []).
Proof.
  intros errors.
  destruct (validateInputs_includes inputs)
    as (_ & H1 & H2 & H3 & H4 & H5 & H6 & H7 & H8 & H9).
  fold errors in H1, H2, H3, H4, H5, H6, H7, H8, H9.
  unfold gtb in H1, H2, H4, H7.
  assert (Hrate : is_nan (MortgageInputs.interestRate inputs) = true ->
                  ~ In interestRateError errors).
  { intros Hn. apply not_In_includes.
    now rewrite H1, nan_ltb_l, nan_ltb_r. }
  assert (Hterm : is_nan (MortgageInputs.loanTermYears inputs) = true ->
                  ~ In loanTermError errors).
  { intros Hn. apply not_In_includes.
    now rewrite H2, nan_leb_l, nan_ltb_r. }
  assert (Hdown : is_nan (MortgageInputs.downPayment inputs) = true ->
                  ~ In downPaymentNegativeError errors
                  /\ ~ In downPaymentTooLargeError errors).
  { intros Hn. split; apply not_In_includes.
    - now rewrite H3, nan_ltb_l.
    - now rewrite H4, nan_ltb_r. }
  assert (Hloan : is_nan (MortgageInputs.loanAmount inputs) = true ->
                  ~ In downPaymentTooLargeError errors).
  { intros Hn. apply not_In_includes.
    rewrite H4, nan_ltb_l; [reflexivity | now apply nan_add_l]. }
  assert (Htax : is_nan (MortgageInputs.propertyTaxAnnual inputs) = true ->
                 ~ In propertyTaxError errors).
  { intros Hn. apply not_In_includes. now rewrite H5, nan_ltb_l. }
  assert (Hins : is_nan (MortgageInputs.homeInsuranceAnnual inputs) = true ->
                 ~ In homeInsuranceError errors).
  { intros Hn. apply not_In_includes. now rewrite H6, nan_ltb_l. }
  assert (Hpmi : forall rate, MortgageInputs.pmiRate inputs = Some rate ->
                   is_nan rate = true -> ~ In pmiRateError errors).
  { intros rate Hsome Hn. apply not_In_includes.
    rewrite H7. now apply andOpt_nan with rate. }
  assert (Hhoa : forall fees, MortgageInputs.hoaFees inputs = Some fees ->
                   is_nan fees = true -> ~ In hoaFeesError errors).
  { intros fees Hsome Hn. apply not_In_includes.
    rewrite H8. now apply andOpt_nan with fees. }
  assert (Hclosing : forall costs,
                       MortgageInputs.closingCosts inputs = Some costs ->
                       is_nan costs = true -> ~ In closingCostsError errors).
  { intros costs Hsome Hn. apply not_In_includes.
    rewrite H9. now apply andOpt_nan with costs. }
  repeat (split; [assumption|]).
  intros N1 N2 N3 N5 N6 N7 N8 N9.
  apply validateInputs_nil_iff. unfold checks.
  intros c Hc. simpl in Hc. unfold gtb in Hc.
  assert (A7 : andOpt (MortgageInputs.pmiRate inputs)
                 (fun rate => (rate <? 0) || (10 <? rate)) = false).
  { destruct (MortgageInputs.pmiRate inputs) as [rate|] eqn:E;
      [|reflexivity].
    apply andOpt_nan with rate; [reflexivity | now apply N7]. }
  assert (A8 : andOpt (MortgageInputs.hoaFees inputs) (fun fees => fees <? 0)
               = false).
  { destruct (MortgageInputs.hoaFees inputs) as [fees|] eqn:E;
      [|reflexivity].
    apply andOpt_nan with fees; [reflexivity | now apply N8]. }
  assert (A9 : andOpt (MortgageInputs.closingCosts inputs)
                 (fun costs => costs <? 0) = false).
  { destruct (MortgageInputs.closingCosts inputs) as [costs|] eqn:E;
      [|reflexivity].
    apply andOpt_nan with costs; [reflexivity | now apply N9]. }
  rewrite A7, A8, A9 in Hc.
  rewrite !(nan_ltb_l _ _ N1), !(nan_ltb_r _ _ N1), (nan_leb_l _ _ N2),
    (nan_ltb_r _ _ N2), !(nan_ltb_l _ _ N3), (nan_ltb_r _ _ N3),
    (nan_ltb_l _ _ N5), (nan_ltb_l _ _ N6) in Hc.
  repeat (destruct Hc as [<-|Hc]; [reflexivity|]). destruct Hc.
Qed.
End MoreValidation.

(** ** The engine at the edges of its inputs *)

Section EngineEdges.
Local Open Scope float_scope.
Import JS MortgageUtils.

Variable pow : number -> number -> number.

(** X3. An interest rate of [NaN] is not reported by [validateInputs], and
    [calculateMortgage] then returns [NaN] as the monthly rate, the
    principal-and-interest payment, the total monthly payment, the total
    interest and the total of payments, whatever [Math.pow] returns. *)
Theorem nan_interest_rate_reaches_every_total (inputs : MortgageInputs.t) :
  is_nan (MortgageInputs.interestRate inputs) = true ->
  let calculation := calculateMortgage pow inputs in
  ~ In interestRateError (validateInputs inputs)
  /\ is_nan (MortgageCalculation.monthlyRate calculation) = true
  /\ is_nan (MortgageCalculation.principalAndInterest calculation) = true
  /\ is_nan (MortgageCalculation.totalMonthlyPayment calculation) = true
  /\ is_nan (MortgageCalculation.totalInterest calculation) = true
  /\ is_nan (MortgageCalculation.totalPayments calculation) = true.
Proof.
  intros Hn calculation.
  assert (Hr : is_nan (MortgageInputs.interestRate inputs / 100 / 12) = true)
    by (apply nan_div_l; now apply nan_div_l).
  assert (Hpi : is_nan (MortgageCalculation.principalAndInterest calculation)
                = true).
  { subst calculation. cbn [calculateMortgage MortgageCalculation.principalAndInterest].
    unfold calculateMonthlyPayment.
    rewrite (nan_eqb_l _ 0 Hr).
    apply nan_div_l. apply nan_mul_r. now apply nan_mul_l. }
  assert (Htotal : is_nan (MortgageCalculation.totalMonthlyPayment calculation)
                   = true).
  { subst calculation.
    cbn [calculateMortgage MortgageCalculation.totalMonthlyPayment].
    do 4 apply nan_add_l. exact Hpi. }
  split; [|split; [|split; [|split; [|split]]]].
  - destruct (validateInputs_includes inputs) as (_ & H1 & _).
    apply not_In_includes. rewrite H1. unfold gtb.
    now rewrite nan_ltb_l, nan_ltb_r.
  - exact Hr.
  - exact Hpi.
  - exact Htotal.
  - subst calculation. cbn [calculateMortgage MortgageCalculation.totalInterest].
    unfold calculateTotalInterest. apply nan_sub_l.
    apply nan_mul_l. apply nan_mul_l. exact Hpi.
  - subst calculation. cbn [calculateMortgage MortgageCalculation.totalPayments].
    apply nan_mul_l. apply nan_mul_l. exact Htotal.
Qed.

(** X4. A cash purchase is never taken for a down payment that is too
    large: with a loan amount of 0 (of either sign) the check of the down
    payment against the purchase price does not fire, whatever the down
    payment is. *)
Theorem cash_purchase_not_reported (inputs : MortgageInputs.t) :
  (MortgageInputs.loanAmount inputs =? 0) = true ->
  ~ In downPaymentTooLargeError (validateInputs inputs).
Proof.
  intros Hloan. change (is_zero (MortgageInputs.loanAmount inputs) = true) in Hloan.
  destruct (validateInputs_includes inputs) as (_ & _ & _ & _ & H4 & _).
  apply not_In_includes. rewrite H4. unfold gtb.
  now apply zero_add_not_above.
Qed.

(** X5. [calculateLTV] and [calculateDTI] divide without a guard: a
    denominator of 0 gives [NaN] when the numerator is 0 or [NaN] and an
    infinity otherwise, never a finite percentage. *)
Theorem ratios_over_zero (x z : number) :
  (z =? 0) = true ->
  calculateDTI x z = calculateLTV x z
  /\ is_finite (calculateLTV x z) = false
  /\ (is_nan (calculateLTV x z) = is_zero x || is_nan x)
  /\ (is_infinity (calculateLTV x z) = negb (is_zero x || is_nan x)).
Proof.
  intros Hz. change (is_zero z = true) in Hz.
  apply is_zero_spec in Hz. destruct Hz as [s Hs].
  split; [reflexivity|].
  unfold calculateLTV.
  assert (Hq : Prim2SF (x / z * 100) =
               match Prim2SF x with
               | S754_zero _ | S754_nan => S754_nan
               | S754_infinity sx | S754_finite sx _ _ =>
                   S754_infinity (xorb (xorb sx s) false)
               end).
  { rewrite mul_spec, div_spec, Hs.
    change (Prim2SF 100) with (S754_finite false 7036874417766400 (-46)).
    destruct (Prim2SF x) as [sx | sx | | sx m e]; reflexivity. }
  assert (Hzero : is_zero x = match Prim2SF x with
                              | S754_zero _ => true | _ => false end).
  { destruct (is_zero x) eqn:E.
    - apply is_zero_spec in E. destruct E as [sx ->]. reflexivity.
    - destruct (Prim2SF x) as [sx | sx | | sx m e] eqn:Ex; try reflexivity.
      assert (is_zero x = true) by (apply is_zero_spec; eauto). congruence. }
  assert (Hnan : is_nan x = match Prim2SF x with
                            | S754_nan => true | _ => false end).
  { destruct (is_nan x) eqn:E.
    - apply is_nan_spec in E. now rewrite E.
    - apply is_nan_false_spec in E.
      destruct (Prim2SF x) as [sx | sx | | sx m e]; congruence. }
  assert (Hnan' : is_nan (x / z * 100) = is_zero x || is_nan x).
  { rewrite Hzero, Hnan. destruct (is_nan (x / z * 100)) eqn:E.
    - apply is_nan_spec in E. rewrite Hq in E.
      destruct (Prim2SF x) as [sx | sx | | sx m e]; try reflexivity;
        discriminate.
    - apply is_nan_false_spec in E. rewrite Hq in E.
      destruct (Prim2SF x) as [sx | sx | | sx m e]; try reflexivity;
        congruence. }
  assert (Hinf' : is_infinity (x / z * 100) = negb (is_zero x || is_nan x)).
  { rewrite Hzero, Hnan. destruct (is_infinity (x / z * 100)) eqn:E.
    - apply is_infinity_spec in E. destruct E as [s' E]. rewrite Hq in E.
      destruct (Prim2SF x) as [sx | sx | | sx m e]; try reflexivity;
        discriminate.
    - destruct (Prim2SF x) as [sx | sx | | sx m e] eqn:Ex; try reflexivity;
        (assert (is_infinity (x / z * 100) = true)
           by (apply is_infinity_spec; rewrite Hq; eauto); congruence). }
  split; [|split; [exact Hnan' | exact Hinf']].
  unfold is_finite. rewrite Hnan', Hinf'.
  destruct (is_zero x || is_nan x); reflexivity.
Qed.
End EngineEdges.

(** ** More on the amortization loop *)

Section ScheduleLoop.
Local Open Scope float_scope.
Import JS.

Variable Date : Type.
Variable getMonth : Date -> Z.
Variable setMonth : Date -> Z -> Date.
Variable toISOString : Date -> string.

Variables monthlyPayment monthlyRate numPayments : number.
Variable startDate : Date.

Local Abbreviation loop :=
  (amortizationLoop getMonth setMonth toISOString monthlyPayment monthlyRate
     numPayments startDate).
Local Abbreviation entryOf :=
  (entryOf getMonth setMonth toISOString monthlyPayment monthlyRate startDate).

Ltac turn H :=
  apply loop_inv in H;
  destruct H as [[? ->] | [? [rest [-> [[? ->] | [? H]]]]]].

(** Entry [k] is dated [i + k] months after the start date. *)
Lemma loop_dates (fuel : nat) :
  forall i b ci cp table k e,
    loop fuel i b ci cp = Some table ->
    nth_error table k = Some e ->
    AmortizationEntry.paymentDate e =
    beforeT (toISOString
               (setMonth startDate (getMonth startDate + (i + Z.of_nat k))%Z)).
Proof.
  induction fuel as [|fuel IH]; intros i b ci cp table k e H; [discriminate|].
  turn H.
  - destruct k; discriminate.
  - destruct k as [|k]; [|destruct k; discriminate].
    intros [= <-]. rewrite Z.add_0_r. reflexivity.
  - destruct k as [|k]; simpl.
    + intros [= <-]. rewrite Z.add_0_r. reflexivity.
    + intros He. replace (i + Z.pos (Pos.of_succ_nat k))%Z
        with ((i + 1) + Z.of_nat k)%Z by lia.
      eapply IH; eassumption.
Qed.

(** The cumulative totals of entry [k] are the totals the loop started
    with, plus the interest and the principal of the entries up to [k],
    added one after the other. *)
Lemma loop_cumulative (fuel : nat) :
  forall i b ci cp table k e,
    loop fuel i b ci cp = Some table ->
    nth_error table k = Some e ->
    AmortizationEntry.cumulativeInterest e =
      fold_left (fun acc x => acc + x)
        (map AmortizationEntry.interestPayment (firstn (S k) table)) ci
    /\ AmortizationEntry.cumulativePrincipal e =
       fold_left (fun acc x => acc + x)
         (map AmortizationEntry.principalPayment (firstn (S k) table)) cp.
Proof.
  induction fuel as [|fuel IH]; intros i b ci cp table k e H; [discriminate|].
  turn H.
  - destruct k; discriminate.
  - destruct k as [|k]; [|destruct k; discriminate].
    intros [= <-]. split; reflexivity.
  - destruct k as [|k].
    + intros [= <-]. split; reflexivity.
    + intros He. cbn [nth_error] in He.
      destruct (IH _ _ _ _ _ _ _ H He) as [Hi Hp].
      rewrite Hi, Hp. split; reflexivity.
Qed.

(** An entry whose ending balance is at most 0.01 is the last one. *)
Lemma loop_stops (fuel : nat) :
  forall i b ci cp table k e,
    loop fuel i b ci cp = Some table ->
    nth_error table k = Some e ->
    (AmortizationEntry.endingBalance e <=? 0.01) = true ->
    List.length table = S k.
Proof.
  induction fuel as [|fuel IH]; intros i b ci cp table k e H; [discriminate|].
  turn H.
  - destruct k; discriminate.
  - destruct k as [|k]; [reflexivity | destruct k; discriminate].
  - destruct k as [|k].
    + intros [= <-] Hpaid. congruence.
    + intros He Hpaid. cbn [nth_error] in He. cbn [List.length].
      f_equal. eapply IH; eassumption.
Qed.

(** The table is empty exactly when the first test of the loop fails. *)
Lemma loop_empty (fuel : nat) (i : Z) (b ci cp : number)
    (table : list AmortizationEntry.t) :
  loop fuel i b ci cp = Some table ->
  (table = [] <-> (of_Z i <=? numPayments) = false).
Proof.
  destruct fuel as [|fuel]; [discriminate|]. intros H.
  turn H.
  - split; auto.
  - split; [discriminate | congruence].
  - split; [discriminate | congruence].
Qed.

(** A counter value that fails the test bounds the number of entries. *)
Lemma loop_length_bound (fuel : nat) :
  forall i K b ci cp table,
    (of_Z K <=? numPayments) = false ->
    (i <= K)%Z ->
    loop fuel i b ci cp = Some table ->
    (Z.of_nat (List.length table) <= K - i)%Z.
Proof.
  induction fuel as [|fuel IH]; intros i K b ci cp table HK Hi H;
    [discriminate|].
  turn H.
  - simpl. lia.
  - assert (i <> K) by congruence. simpl. lia.
  - assert (i <> K) by congruence.
    assert (Hrest := IH (i + 1)%Z K _ _ _ rest HK ltac:(lia) H).
    cbn [List.length]. lia.
Qed.
End ScheduleLoop.

(** ** More on the amortization table *)

Section ScheduleProperties.
Local Open Scope float_scope.
Import JS.

Variable pow : number -> number -> number.
Variable Date : Type.
Variable getMonth : Date -> Z.
Variable setMonth : Date -> Z -> Date.
Variable toISOString : Date -> string.

Local Abbreviation generate :=
  (generateAmortizationTable pow getMonth setMonth toISOString).

(** X6. The entries of the table are numbered 1, 2, 3, ... and entry
    number [n] is dated [n] months after the start date (as [setMonth]
    counts months, cut to [YYYY-MM-DD]): the first payment falls one month
    after the start date, not on it. *)
Theorem payment_numbers_and_dates (fuel : nat) (inputs : MortgageInputs.t)
    (startDate : Date) (table : list AmortizationEntry.t) :
  generate fuel inputs startDate = Some table ->
  forall k e,
    nth_error table k = Some e ->
    AmortizationEntry.paymentNumber e = of_Z (Z.of_nat k + 1)
    /\ AmortizationEntry.paymentDate e =
       beforeT (toISOString
                  (setMonth startDate
                     (getMonth startDate + (Z.of_nat k + 1))%Z)).
Proof.
  intros H k e He. unfold generateAmortizationTable in H.
  replace (Z.of_nat k + 1)%Z with (1 + Z.of_nat k)%Z by lia. split.
  - eapply loop_numbers; eassumption.
  - eapply loop_dates; eassumption.
Qed.

(** X7. In every entry the cumulative interest is the sum of the interest
    payments of the entries so far, and the cumulative principal the sum of
    their principal payments, each added up from 0 in the order of the
    table. *)
Theorem cumulative_totals_are_running_sums (fuel : nat)
    (inputs : MortgageInputs.t) (startDate : Date)
    (table : list AmortizationEntry.t) :
  generate fuel inputs startDate = Some table ->
  forall k e,
    nth_error table k = Some e ->
    AmortizationEntry.cumulativeInterest e =
      fold_left (fun acc x => acc + x)
        (map AmortizationEntry.interestPayment (firstn (S k) table)) 0
    /\ AmortizationEntry.cumulativePrincipal e =
       fold_left (fun acc x => acc + x)
         (map AmortizationEntry.principalPayment (firstn (S k) table)) 0.
Proof.
  intros H k e He. unfold generateAmortizationTable in H.
  eapply loop_cumulative; eassumption.
Qed.

(** What [Math.max(0, ...)] makes of an ending balance. *)
Lemma entryStep_balance (mp r : number) (e : AmortizationEntry.t) :
  entryStep mp r e ->
  is_nan (AmortizationEntry.endingBalance e) =
    is_nan (AmortizationEntry.beginningBalance e
            - AmortizationEntry.principalPayment e)
  /\ (AmortizationEntry.endingBalance e <? 0) = false
  /\ (is_nan (AmortizationEntry.endingBalance e) = false ->
      (0 <=? AmortizationEntry.endingBalance e) = true).
Proof.
  intros (_ & _ & _ & Hmax).
  rewrite Hmax, Math_max_zero_nan.
  assert (Hge : is_nan (AmortizationEntry.beginningBalance e
                        - AmortizationEntry.principalPayment e) = false ->
                (0 <=? Math_max 0 (AmortizationEntry.beginningBalance e
                                   - AmortizationEntry.principalPayment e))
                = true) by apply Math_max_zero_nonneg.
  split; [reflexivity|]. split; [|exact Hge].
  destruct (is_nan (AmortizationEntry.beginningBalance e
                    - AmortizationEntry.principalPayment e)) eqn:Hn.
  - apply nan_ltb_l. now rewrite Math_max_zero_nan.
  - specialize (Hge eq_refl).
    destruct (Math_max 0 _ <? 0) eqn:Hlt; [|reflexivity].
    apply ltb_not_geb in Hlt. unfold geb in Hlt. congruence.
Qed.

(** X8. No entry ends below zero: an ending balance is [NaN] exactly when
    the beginning balance less the principal payment is, and is at least 0
    otherwise; so every entry after the first begins with a balance that is
    [NaN] or at least 0. *)
Theorem balances_never_negative (fuel : nat) (inputs : MortgageInputs.t)
    (startDate : Date) (table : list AmortizationEntry.t) :
  generate fuel inputs startDate = Some table ->
  (forall e, In e table ->
     is_nan (AmortizationEntry.endingBalance e) =
       is_nan (AmortizationEntry.beginningBalance e
               - AmortizationEntry.principalPayment e)
     /\ (AmortizationEntry.endingBalance e <? 0) = false
     /\ (is_nan (AmortizationEntry.endingBalance e) = false ->
         (0 <=? AmortizationEntry.endingBalance e) = true))
  /\ (forall k e,
        nth_error table (S k) = Some e ->
        is_nan (AmortizationEntry.beginningBalance e) = false ->
        (0 <=? AmortizationEntry.beginningBalance e) = true).
Proof.
  intros H. unfold generateAmortizationTable in H.
  assert (Hend : forall e, In e table ->
            is_nan (AmortizationEntry.endingBalance e) =
              is_nan (AmortizationEntry.beginningBalance e
                      - AmortizationEntry.principalPayment e)
            /\ (AmortizationEntry.endingBalance e <? 0) = false
            /\ (is_nan (AmortizationEntry.endingBalance e) = false ->
                (0 <=? AmortizationEntry.endingBalance e) = true)).
  { intros e He. pose proof (loop_entries _ _ _ _ _ _ _ _ _ _ _ _ _ _ H) as Hall.
    rewrite Forall_forall in Hall. eapply entryStep_balance. exact (Hall e He). }
  split; [exact Hend|].
  intros k e He Hn.
  destruct (nth_error table k) as [e0|] eqn:He0.
  - assert (Hchain := loop_chain _ _ _ _ _ _ _ _ _ _ _ _ _ _ _ _ _ H He0 He).
    rewrite <- Hchain in *.
    apply (Hend e0); [eapply nth_error_In; eassumption | exact Hn].
  - apply nth_error_None in He0.
    assert (nth_error table (S k) <> None) by congruence.
    apply nth_error_Some in H0. lia.
Qed.

(** X9. The table stops at the first entry whose ending balance is at most
    0.01: such an entry is the last one, so every entry before the last
    ends with a balance that is not at most 0.01. *)
Theorem table_stops_when_paid_off (fuel : nat) (inputs : MortgageInputs.t)
    (startDate : Date) (table : list AmortizationEntry.t) :
  generate fuel inputs startDate = Some table ->
  forall k e,
    nth_error table k = Some e ->
    (AmortizationEntry.endingBalance e <=? 0.01) = true ->
    List.length table = S k.
Proof.
  intros H k e He Hpaid. unfold generateAmortizationTable in H.
  eapply loop_stops; eassumption.
Qed.

(** X10. The table is empty exactly when [loanTermYears * 12] is not at
    least 1: a term below a twelfth of a year, a negative term or a term of
    [NaN] gives no entry at all, and every other term gives at least
    one. *)
Theorem table_empty_iff_no_payment (fuel : nat) (inputs : MortgageInputs.t)
    (startDate : Date) (table : list AmortizationEntry.t) :
  generate fuel inputs startDate = Some table ->
  (table = [] <-> (1 <=? MortgageInputs.loanTermYears inputs * 12) = false).
Proof.
  intros H. unfold generateAmortizationTable in H.
  apply loop_empty in H. exact H.
Qed.
(** X11. For a loan amount of at least 0, the balance
    [calculateRemainingBalance] returns is never below zero: it is the loan
    amount when no payment has the target date, and otherwise an ending
    balance, which is [NaN] or at least 0. *)
Theorem remaining_balance_never_negative (fuel : nat)
    (inputs : MortgageInputs.t) (targetDate startDate : Date)
    (remaining : number) :
  (0 <=? MortgageInputs.loanAmount inputs) = true ->
  calculateRemainingBalance pow getMonth setMonth toISOString fuel inputs
    targetDate startDate = Some remaining ->
  (remaining <? 0) = false
  /\ (is_nan remaining = false -> (0 <=? remaining) = true).
Proof.
  intros Hloan. unfold calculateRemainingBalance.
  destruct (generate fuel inputs startDate) as [table|] eqn:H; [|discriminate].
  cbv zeta. unfold findByDate.
  destruct (find _ table) as [entry|] eqn:Hfind; intros [= <-].
  - apply find_some in Hfind. destruct Hfind as [Hin _].
    unfold generateAmortizationTable in H.
    pose proof (loop_entries _ _ _ _ _ _ _ _ _ _ _ _ _ _ H) as Hall.
    rewrite Forall_forall in Hall.
    destruct (entryStep_balance _ _ _ (Hall entry Hin)) as (_ & Hlt & Hge).
    split; assumption.
  - split; [|intros _; exact Hloan].
    destruct (MortgageInputs.loanAmount inputs <? 0) eqn:Hlt; [|reflexivity].
    apply ltb_not_geb in Hlt. unfold geb in Hlt. congruence.
Qed.
End ScheduleProperties.

(** ** How close rounding stays to a product *)

Section MoreMagnitude.
Local Open Scope Z_scope.

(** A mantissa of at least [prec] digits is cut to [prec] digits and
    raised by at most one; when that fills a further digit the exponent
    goes up by one. *)
Lemma binary_round_aux_near (s : bool) (M : positive) (E : Z) (l : location) :
  let d := Zpos (digits2_pos M) in
  let q := Zpos M / 2 ^ (d - prec) in
  emin <= d + E - prec ->
  prec <= d ->
  exists m' e',
    binary_round_aux prec emax s (Zpos M) E l =
      (if Z.leb e' (emax - prec) then S754_finite s m' e'
       else S754_infinity s)
    /\ ((e' = d + E - prec /\ Zpos m' <= q + 1)
        \/ (e' = d + E - prec + 1 /\ Zpos m' = 2 ^ (prec - 1)
            /\ q + 1 = 2 ^ prec)).
Proof.
  intros d q Hmin Hd. unfold binary_round_aux.
  destruct (shr_fexp_exact M E l Hmin) as (mrs & -> & Hm1). fold d in Hm1 |- *.
  replace (Z.max 0 (d - prec)) with (d - prec) in Hm1 by lia. fold q in Hm1.
  replace (Z.max E (d + E - prec)) with (d + E - prec) by lia.
  destruct (digits2_pos_bounds M) as [Hlow Hup]. fold d in Hlow, Hup.
  assert (Hq : 2 ^ (prec - 1) <= q).
  { apply Z.div_le_lower_bound; [apply Z.pow_pos_nonneg; lia|].
    rewrite <- Z.pow_add_r by (unfold prec in *; lia).
    replace (d - prec + (prec - 1)) with (d - 1) by lia. exact Hlow. }
  assert (Hq' : q < 2 ^ prec).
  { apply Z.div_lt_upper_bound; [apply Z.pow_pos_nonneg; lia|].
    rewrite <- Z.pow_add_r by (unfold prec in *; lia).
    replace (d - prec + prec) with d by lia. exact Hup. }
  assert (Hpos : 0 < 2 ^ (prec - 1))
    by (apply Z.pow_pos_nonneg; unfold prec; lia).
  assert (Hdouble : 2 ^ prec = 2 * 2 ^ (prec - 1)).
  { replace prec with (1 + (prec - 1)) at 1 by lia.
    rewrite Z.pow_add_r by (unfold prec; lia). reflexivity. }
  destruct (shr_m mrs) as [|m1|m1] eqn:Em1; try lia.
  destruct (round_nearest_even_pos m1 (loc_of_shr_record mrs))
    as (m2 & Hr & Hm2).
  destruct (round_nearest_even_upper (Zpos m1) (loc_of_shr_record mrs))
    as [_ Hm2']; [lia|].
  rewrite Hr in Hm2' |- *.
  set (d2 := Zpos (digits2_pos m2)).
  assert (Hd2 : prec <= d2).
  { assert (H := digits2_pos_lower m2 (prec - 1)). unfold d2. lia. }
  assert (Hd2' : d2 <= prec + 1).
  { apply digits2_pos_upper.
    rewrite Z.pow_add_r by (unfold prec; lia). change (2 ^ 1) with 2. lia. }
  assert (Hmin2 : emin <= d2 + (d + E - prec) - prec) by lia.
  destruct (shr_fexp_exact m2 (d + E - prec) loc_Exact Hmin2)
    as (mrs' & -> & Hm3). fold d2 in Hm3 |- *.
  destruct (Z.eq_dec d2 prec) as [Heq|Hne].
  - replace (Z.max 0 (d2 - prec)) with 0 in Hm3 by lia.
    rewrite Z.div_1_r in Hm3. rewrite Hm3.
    replace (Z.max (d + E - prec) (d2 + (d + E - prec) - prec))
      with (d + E - prec) by lia.
    exists m2, (d + E - prec). split; [reflexivity|]. left. split; lia.
  - assert (Hd2'' : d2 = prec + 1) by lia.
    destruct (digits2_pos_bounds m2) as [Hlow2 _]. fold d2 in Hlow2.
    replace (d2 - 1) with prec in Hlow2 by lia.
    assert (Hm2eq : Zpos m2 = 2 ^ prec) by lia.
    replace (Z.max 0 (d2 - prec)) with 1 in Hm3 by lia.
    assert (Hm3' : shr_m mrs' = 2 ^ (prec - 1)).
    { rewrite Hm3, Hm2eq, Hdouble. change (2 ^ 1) with 2.
      rewrite Z.mul_comm. apply Z.div_mul. lia. }
    rewrite Hm3'.
    replace (Z.max (d + E - prec) (d2 + (d + E - prec) - prec))
      with (d + E - prec + 1) by lia.
    destruct (2 ^ (prec - 1)) as [|m3|m3] eqn:Em3; try lia.
    exists m3, (d + E - prec + 1). split; [reflexivity|]. right.
    split; [reflexivity|]. split; [reflexivity|]. lia.
Qed.

(** A term that is not above 50 years has fewer than 601 payments. *)
Lemma mul_twelve_below_601 (t : number) :
  JS.gtb t 50%float = false -> (601 <=? t * 12)%float = false.
Proof.
  unfold JS.gtb. rewrite ltb_spec, leb_spec, mul_spec.
  pose proof (Prim2SF_valid t) as Hvalid.
  change (Prim2SF 50) with (S754_finite false 7036874417766400 (-47)).
  change (Prim2SF 12) with (S754_finite false 6755399441055744 (-49)).
  change (Prim2SF 601) with (S754_finite false 5286451906347008 (-43)).
  destruct (Prim2SF t) as [s | s | | s m e]; try reflexivity.
  - destruct s; [reflexivity | discriminate].
  - intros Hle. unfold SF64mul, SFmul.
    destruct s; cbn [xorb].
    + unfold binary_round_aux.
      destruct (shr_fexp _ _ _ _ _) as [mrs1 e1].
      destruct (shr_fexp _ _ _ _ _) as [mrs2 e2].
      destruct (shr_m mrs2); [reflexivity| |reflexivity].
      destruct (Z.leb _ _); reflexivity.
    + assert (He : e < -47 \/ (e = -47 /\ Zpos m <= 7036874417766400)).
      { unfold SFltb in Hle. cbn [SFcompare] in Hle.
        destruct (Z.compare_spec (-47) e) as [Heq|Hlt|Hgt];
          [|discriminate|left; lia].
        right. split; [lia|].
        change (Pos.compare_cont Eq 7036874417766400 m)
          with (Zpos 7036874417766400 ?= Zpos m) in Hle.
        destruct (Z.compare_spec (Zpos 7036874417766400) (Zpos m));
          try lia; discriminate. }
      cbn [valid_binary] in Hvalid.
      unfold bounded, canonical_mantissa, fexp in Hvalid.
      apply andb_prop in Hvalid. destruct Hvalid as [Hcanon _].
      apply Z.eqb_eq in Hcanon. unfold emin, prec, emax in Hcanon.
      assert (Hd : Zpos (digits2_pos m) <= 53) by lia.
      destruct (digits2_pos_bounds m) as [Hmlow Hm].
      set (M := (m * 6755399441055744)%positive).
      assert (HMval : Zpos M = Zpos m * 6755399441055744)
        by (unfold M; apply Pos2Z.inj_mul).
      assert (Hm53 : Zpos m < 9007199254740992).
      { apply Z.lt_le_trans with (2 ^ Zpos (digits2_pos m)); [exact Hm|].
        change 9007199254740992 with (2 ^ 53).
        apply Z.pow_le_mono_r; lia. }
      assert (HM : Zpos (digits2_pos M) <= 106).
      { apply digits2_pos_upper.
        change (2 ^ 106) with 81129638414606681695789005144064. lia. }
      assert (Hsmall : forall m' e',
                 e' < -43 \/ (e' = -43 /\ Zpos m' < 5286451906347008) ->
                 SFleb (S754_finite false 5286451906347008 (-43))
                   (S754_finite false m' e') = false).
      { intros m' e' Hcase. unfold SFleb. cbn [SFcompare].
        destruct (Z.compare_spec (-43) e') as [Heq|Hlt|Hgt]; try lia;
          try reflexivity.
        change (Pos.compare_cont Eq 5286451906347008 m')
          with (Zpos 5286451906347008 ?= Zpos m').
        destruct (Z.compare_spec (Zpos 5286451906347008) (Zpos m'));
          try lia; reflexivity. }
      destruct (Z.le_gt_cases e (-49)) as [Hfar|Hnear].
      * destruct (binary_round_aux_upper false M (e + -49) loc_Exact)
          as [-> | (m' & e' & -> & He')].
        -- unfold emin, prec, emax. lia.
        -- reflexivity.
        -- apply Hsmall. left. unfold emin, prec, emax in He'. lia.
      * assert (Hd53 : Zpos (digits2_pos m) = 53) by lia.
        rewrite Hd53 in Hmlow.
        change (2 ^ (53 - 1)) with 4503599627370496 in Hmlow.
        assert (HM' : 105 <= Zpos (digits2_pos M)).
        { assert (H := digits2_pos_lower M 104).
          change (2 ^ 104) with 20282409603651670423947251286016 in H. lia. }
        destruct (binary_round_aux_near false M (e + -49) loc_Exact)
          as (m' & e' & -> & Hcase).
        -- unfold emin, prec, emax. lia.
        -- unfold prec. lia.
        -- unfold prec, emax in *.
           assert (He' : e' <= -42) by (destruct Hcase as [[-> _]|[-> _]]; lia).
           replace (e' <=? 1024 - 53) with true
             by (symmetry; apply Z.leb_le; lia).
           apply Hsmall.
           change (2 ^ (53 - 1)) with 4503599627370496 in Hcase.
           change (2 ^ 53) with 9007199254740992 in Hcase.
           destruct (Z.eq_dec (Zpos (digits2_pos M)) 106) as [D106|ND106].
           ++ rewrite D106 in Hcase.
              change (2 ^ (106 - 53)) with 9007199254740992 in Hcase.
              assert (Hquot : e = -47 ->
                        Zpos M / 9007199254740992 <= 5277655813324800).
              { intros E47. destruct He as [He|[_ He]]; [lia|].
                apply Z.div_le_upper_bound; [reflexivity|]. lia. }
              destruct (Z.eq_dec e (-47)) as [E47|N47].
              ** specialize (Hquot E47).
                 destruct Hcase as [[-> Hm']|[_ [_ Hcarry]]]; [|lia].
                 right. split; lia.
              ** destruct Hcase as [[-> _]|[-> [Hm' _]]].
                 --- left. lia.
                 --- destruct (Z.eq_dec e (-48)) as [E48|N48]; [|left; lia].
                     right. split; lia.
           ++ assert (D105 : Zpos (digits2_pos M) = 105) by lia.
              rewrite D105 in Hcase.
              destruct Hcase as [[-> _]|[-> [Hm' _]]].
              ** left. lia.
              ** destruct (Z.eq_dec e (-47)) as [E47|N47]; [|left; lia].
                 right. split; lia.
Qed.
End MoreMagnitude.

(** ** The calculator component and the calculator page *)

Section ComponentProperties.
Local Open Scope float_scope.
Import JS MortgageUtils.

Variable pow : number -> number -> number.
Variable Date : Type.
Variable getMonth : Date -> Z.
Variable setMonth : Date -> Z -> Date.
Variable toISOString : Date -> string.

Local Abbreviation generate :=
  (generateAmortizationTable pow getMonth setMonth toISOString).
Local Abbreviation memo :=
  (calculationResult pow getMonth setMonth toISOString).

(** Inputs that pass validation have a term that is not above 50. *)
Lemma validated_term (inputs : MortgageInputs.t) :
  validateInputs inputs = [] ->
  gtb (MortgageInputs.loanTermYears inputs) 50 = false.
Proof.
  intros Hnil.
  destruct (validateInputs_includes inputs) as (_ & _ & H2 & _).
  rewrite Hnil in H2. simpl in H2. symmetry in H2.
  apply orb_false_iff in H2. apply H2.
Qed.

(** X12. What the calculator component computes: [null] when
    [validateInputs] reports an error, and otherwise the calculation with
    its table, which the loop always delivers (601 tests of its condition
    are enough) and which has at most 600 entries. *)
Theorem component_result_is_bounded (fuel : nat) (today : Date)
    (inputs : MortgageInputs.t) :
  (601 <= fuel)%nat ->
  (validateInputs inputs <> []
   /\ memo fuel today inputs = Some CalculationResult.Null)
  \/ (validateInputs inputs = []
      /\ exists table,
           generate fuel inputs today = Some table
           /\ memo fuel today inputs =
              Some (CalculationResult.Result (calculateMortgage pow inputs)
                      table)
           /\ (List.length table <= 600)%nat).
Proof.
  intros Hfuel. unfold calculationResult.
  destruct (validateInputs inputs) as [|msg errors] eqn:Herrors.
  - right. split; [reflexivity|].
    assert (Hover : (of_Z 601 <=? MortgageInputs.loanTermYears inputs * 12)
                    = false).
    { change (of_Z 601) with 601. apply mul_twelve_below_601.
      now apply validated_term. }
    destruct (generateAmortizationTable_returns pow Date getMonth setMonth
                toISOString fuel 601 inputs today Hover)
      as [table Htable]; [lia | lia |].
    exists table. split; [exact Htable|]. cbn [List.length Nat.ltb Nat.leb].
    rewrite Htable. split; [reflexivity|].
    unfold generateAmortizationTable in Htable.
    pose proof (loop_length_bound _ _ _ _ _ _ _ _ _ 1%Z 601%Z _ _ _ _ Hover
                  ltac:(lia) Htable).
    lia.
  - left. split; [discriminate | reflexivity].
Qed.

(** X13. The inputs the calculator page keeps beside a calculation, to be
    saved with it, are rebuilt from the calculation: they keep the loan
    amount, the rate, the term and the down payment, and they carry no
    closing costs.  Calculating again from them gives the same purchase
    price, monthly rate, principal-and-interest payment, total interest and
    HOA fees, and the same amortization table. *)
Theorem saved_inputs_regenerate_schedule (fuel : nat)
    (inputs : MortgageInputs.t) (startDate : Date) :
  let calculation := calculateMortgage pow inputs in
  let saved := handleCalculationComplete calculation in
  let again := calculateMortgage pow saved in
  MortgageInputs.loanAmount saved = MortgageInputs.loanAmount inputs
  /\ MortgageInputs.interestRate saved = MortgageInputs.interestRate inputs
  /\ MortgageInputs.loanTermYears saved = MortgageInputs.loanTermYears inputs
  /\ MortgageInputs.downPayment saved = MortgageInputs.downPayment inputs
  /\ MortgageInputs.closingCosts saved = None
  /\ MortgageCalculation.purchasePrice again =
     MortgageCalculation.purchasePrice calculation
  /\ MortgageCalculation.monthlyRate again =
     MortgageCalculation.monthlyRate calculation
  /\ MortgageCalculation.principalAndInterest again =
     MortgageCalculation.principalAndInterest calculation
  /\ MortgageCalculation.totalInterest again =
     MortgageCalculation.totalInterest calculation
  /\ MortgageCalculation.hoaFeesMonthly again =
     MortgageCalculation.hoaFeesMonthly calculation
  /\ generate fuel saved startDate = generate fuel inputs startDate.
Proof.
  intros calculation saved again.
  repeat (split; [reflexivity|]).
  split; [|reflexivity].
  subst again saved calculation.
  cbn [calculateMortgage handleCalculationComplete
       MortgageCalculation.hoaFeesMonthly MortgageInputs.hoaFees].
  destruct (MortgageInputs.hoaFees inputs) as [fees|]; [|reflexivity].
  destruct (truthy fees) eqn:Hfees; [now rewrite Hfees | reflexivity].
Qed.
End ComponentProperties.

(** ** More on scenario storage *)

Section MoreStorage.
Variables Inputs Calculation Amortization : Type.
Variable jsonInputs : Inputs -> Inputs.
Variable jsonCalculation : Calculation -> Calculation.
Variable jsonAmortization : Amortization -> Amortization.
Variable quota : list (SavedScenario.t Inputs Calculation Amortization) -> bool.

Local Abbreviation Scenario := (SavedScenario.t Inputs Calculation Amortization).
Local Abbreviation Store := (Item Inputs Calculation Amortization).
Local Abbreviation json :=
  (jsonScenario jsonInputs jsonCalculation jsonAmortization).
Local Abbreviation hasId id :=
  (fun s : Scenario => String.eqb (SavedScenario.id s) id).
Local Abbreviation otherId id :=
  (fun s : Scenario => negb (String.eqb (SavedScenario.id s) id)).
Local Abbreviation save :=
  (saveScenario jsonInputs jsonCalculation jsonAmortization quota).
Local Abbreviation update :=
  (updateScenario jsonInputs jsonCalculation jsonAmortization quota).
Local Abbreviation delete :=
  (deleteScenario jsonInputs jsonCalculation jsonAmortization quota).

(** A filter that keeps the length keeps the list. *)
Lemma filter_same_length {A : Type} (p : A -> bool) (l : list A) :
  List.length (filter p l) = List.length l <-> filter p l = l.
Proof.
  split; [|now intros ->].
  induction l as [|x l IH]; simpl; [reflexivity|].
  destruct (p x); simpl.
  - intros [= H]. now rewrite IH.
  - intros H. pose proof (filter_length_le p l). lia.
Qed.

Lemma filter_otherId_absent (id : string) (scenarios : list Scenario) :
  find (hasId id) scenarios = None <->
  filter (otherId id) scenarios = scenarios.
Proof.
  induction scenarios as [|s rest IH]; simpl; [tauto|].
  destruct (String.eqb (SavedScenario.id s) id); simpl.
  - split; [discriminate|]. intros H.
    assert (Hlen := filter_length_le (otherId id) rest).
    rewrite H in Hlen. simpl in Hlen. lia.
  - rewrite IH. split; [now intros -> | now intros [= ->]].
Qed.

Lemma find_hasId_filtered (id : string) (scenarios : list Scenario) :
  find (hasId id) (filter (otherId id) scenarios) = None.
Proof.
  apply find_absent. intros s Hs. apply filter_In in Hs.
  destruct Hs as [_ Hs]. now apply negb_true_iff in Hs.
Qed.

Lemma find_hasId_other_filtered (id id' : string) (scenarios : list Scenario) :
  id' <> id ->
  find (hasId id') (filter (otherId id) scenarios) = find (hasId id') scenarios.
Proof.
  intros Hne. induction scenarios as [|s rest IH]; simpl; [reflexivity|].
  destruct (String.eqb (SavedScenario.id s) id) eqn:E; simpl.
  - apply String.eqb_eq in E.
    rewrite (proj2 (String.eqb_neq _ _)) by congruence. exact IH.
  - destruct (String.eqb (SavedScenario.id s) id'); [reflexivity | exact IH].
Qed.

Lemma map_json_ids (scenarios : list Scenario) :
  map (@SavedScenario.id _ _ _) (map json scenarios) =
  map (@SavedScenario.id _ _ _) scenarios.
Proof.
  rewrite map_map. apply map_ext. reflexivity.
Qed.

(** X14. [deleteScenario] on an id that no stored scenario has returns
    [false] and writes nothing, so the storage is left as it was, corrupt
    or missing items included; and [false] is returned for no other id. *)
Theorem deleteScenario_unknown_id (storage : Store) (id : string) :
  getScenario storage id = None <->
  delete storage id = Some (false, storage).
Proof.
  unfold getScenario, deleteScenario. rewrite filter_otherId_absent.
  rewrite <- filter_same_length. split.
  - intros H. now rewrite (proj2 (Nat.eqb_eq _ _) H).
  - destruct (Nat.eqb _ _) eqn:E; [intros _; now apply Nat.eqb_eq|].
    unfold setItem. destruct (quota _); discriminate.
Qed.

(** X15. [deleteScenario] on an id that is stored returns [true] whenever
    it returns, and removes every scenario with that id: a lookup of the id
    then finds nothing, the list is shorter, and every other id still
    resolves to the scenario it resolved to before, as JSON carries it. *)
Theorem deleteScenario_removes_id (storage storage' : Store) (id : string)
    (old : Scenario) (result : bool) :
  getScenario storage id = Some old ->
  delete storage id = Some (result, storage') ->
  result = true
  /\ getScenario storage' id = None
  /\ (forall s, In s (getAllScenarios storage') -> SavedScenario.id s <> id)
  /\ (List.length (getAllScenarios storage')
      < List.length (getAllScenarios storage))%nat
  /\ (forall id', id' <> id ->
        getScenario storage' id' = option_map json (getScenario storage id')).
Proof.
  intros Hold Hdelete.
  assert (Hpresent : getScenario storage id <> None) by congruence.
  unfold getScenario in Hold, Hpresent. rewrite filter_otherId_absent in Hpresent.
  rewrite <- filter_same_length in Hpresent.
  unfold deleteScenario, setItem in Hdelete.
  rewrite (proj2 (Nat.eqb_neq _ _) Hpresent) in Hdelete.
  destruct (quota _); [|discriminate].
  injection Hdelete as <- <-.
  unfold getScenario. cbn [getAllScenarios].
  split; [reflexivity|]. split; [|split; [|split]].
  - rewrite find_hasId_json, find_hasId_filtered. reflexivity.
  - intros s Hs. apply in_map_iff in Hs. destruct Hs as (s0 & <- & Hs0).
    apply filter_In in Hs0. destruct Hs0 as [_ Hs0].
    apply negb_true_iff in Hs0. now apply String.eqb_neq in Hs0.
  - rewrite length_map.
    pose proof (filter_length_le (otherId id) (getAllScenarios storage)). lia.
  - intros id' Hne. rewrite find_hasId_json.
    now rewrite find_hasId_other_filtered.
Qed.

(** X16. A store that cannot be read is an empty store: with the item
    missing (as [clearAllScenarios] leaves it) or holding text that
    [JSON.parse] rejects, [getAllScenarios] returns the empty list; and on
    any store with no scenarios every lookup returns nothing,
    [updateScenario] returns [null] and [deleteScenario] returns [false],
    both without writing, and [saveScenario] leaves exactly the scenario it
    saved, replacing whatever the item held. *)
Theorem unreadable_storage_is_empty :
  (forall storage : Store, getAllScenarios (clearAllScenarios storage) = [])
  /\ getAllScenarios (Garbled Inputs Calculation Amortization) = []
  /\ (forall storage : Store,
        getAllScenarios storage = [] ->
        (forall id, getScenario storage id = None)
        /\ (forall now id name inputs calculation amortization,
              update storage now id name inputs calculation amortization
              = Some (None, storage))
        /\ (forall id, delete storage id = Some (false, storage))
        /\ (forall now nowMs name inputs calculation amortization
                   scenario storage',
              save storage now nowMs name inputs calculation amortization
              = Some (scenario, storage') ->
              getAllScenarios storage' = [json scenario])).
Proof.
  split; [reflexivity|]. split; [reflexivity|].
  intros storage Hempty. split; [|split; [|split]].
  - intros id. unfold getScenario. now rewrite Hempty.
  - intros. unfold updateScenario. now rewrite Hempty.
  - intros id. unfold deleteScenario. now rewrite Hempty.
  - intros now nowMs name inputs calculation amortization scenario storage'.
    unfold saveScenario, setItem. rewrite Hempty.
    destruct (quota _); [|discriminate].
    now intros [= <- <-].
Qed.

(** X17. [saveScenario] puts the new scenario after the stored ones: the
    list grows by one, and every id that resolved to a scenario before
    resolves to the same scenario afterwards, as JSON carries it, the id of
    the new scenario included if it was already in use. *)
Theorem saveScenario_appends (storage storage' : Store) (now : string)
    (nowMs : Z) (name : string) (inputs : Inputs) (calculation : Calculation)
    (amortization : Amortization) (scenario : Scenario) :
  save storage now nowMs name inputs calculation amortization
  = Some (scenario, storage') ->
  getAllScenarios storage' = map json (getAllScenarios storage ++ [scenario])
  /\ List.length (getAllScenarios storage')
     = S (List.length (getAllScenarios storage))
  /\ (forall id old,
        getScenario storage id = Some old ->
        getScenario storage' id = Some (json old)).
Proof.
  unfold saveScenario, setItem. destruct (quota _); [|discriminate].
  intros [= <- <-]. cbn [getAllScenarios]. split; [reflexivity|]. split.
  - rewrite length_map, length_app. simpl. lia.
  - intros id old Hold. unfold getScenario in *. cbn [getAllScenarios].
    rewrite find_hasId_json.
    induction (getAllScenarios storage) as [|s rest IH]; [discriminate|].
    simpl in *. destruct (String.eqb (SavedScenario.id s) id).
    + now injection Hold as <-.
    + now apply IH.
Qed.

Lemma findIndex_none (id : string) (scenarios : list Scenario) :
  find (hasId id) scenarios = None ->
  findIndex (hasId id) scenarios = None.
Proof.
  induction scenarios as [|s rest IH]; simpl; [reflexivity|].
  destruct (String.eqb (SavedScenario.id s) id); [discriminate|].
  intros H. now rewrite IH.
Qed.

Lemma assignAt_length (index : nat) (s : Scenario) (scenarios : list Scenario) :
  List.length (assignAt index s scenarios) = List.length scenarios.
Proof.
  revert index. induction scenarios as [|s0 rest IH]; intros index;
    [destruct index; reflexivity|].
  destruct index as [|index]; simpl; [reflexivity | now rewrite IH].
Qed.

Lemma assignAt_ids (index : nat) (s old : Scenario) (scenarios : list Scenario) :
  nth_error scenarios index = Some old ->
  SavedScenario.id s = SavedScenario.id old ->
  map (@SavedScenario.id _ _ _) (assignAt index s scenarios) =
  map (@SavedScenario.id _ _ _) scenarios.
Proof.
  revert index. induction scenarios as [|s0 rest IH]; intros index;
    [destruct index; reflexivity|].
  destruct index as [|index]; simpl.
  - intros [= ->] ->. reflexivity.
  - intros Hnth Hid. now rewrite IH.
Qed.

Lemma find_assignAt_other (id id' : string) (index : nat) (s : Scenario)
    (scenarios : list Scenario) :
  findIndex (hasId id) scenarios = Some index ->
  SavedScenario.id s = id ->
  id' <> id ->
  find (hasId id') (assignAt index s scenarios) = find (hasId id') scenarios.
Proof.
  intros Hidx Hs Hne. revert index Hidx.
  induction scenarios as [|s0 rest IH]; simpl; intros index; [discriminate|].
  destruct (String.eqb (SavedScenario.id s0) id) eqn:E0.
  - intros [= <-]. simpl. apply String.eqb_eq in E0.
    rewrite !(proj2 (String.eqb_neq _ _)) by congruence. reflexivity.
  - destruct (findIndex _ rest) as [n|]; [|discriminate].
    intros [= <-]. simpl.
    destruct (String.eqb (SavedScenario.id s0) id'); [reflexivity|].
    now apply IH.
Qed.

(** X18. [updateScenario] touches one scenario only.  On an id that is not
    stored it returns [null] and writes nothing.  On an id that is stored,
    the list it writes has the same length and the same ids in the same
    order, and every other id resolves to the scenario it resolved to
    before, as JSON carries it. *)
Theorem updateScenario_touches_one (storage : Store) (now id name : string)
    (inputs : Inputs) (calculation : Calculation)
    (amortization : Amortization) :
  (getScenario storage id = None ->
     update storage now id name inputs calculation amortization
     = Some (None, storage))
  /\ (forall old result storage',
        getScenario storage id = Some old ->
        update storage now id name inputs calculation amortization
        = Some (result, storage') ->
        List.length (getAllScenarios storage')
        = List.length (getAllScenarios storage)
        /\ map (@SavedScenario.id _ _ _) (getAllScenarios storage')
           = map (@SavedScenario.id _ _ _) (getAllScenarios storage)
        /\ (forall id', id' <> id ->
              getScenario storage' id'
              = option_map json (getScenario storage id'))).
Proof.
  split.
  - intros Hnone. unfold getScenario in Hnone. unfold updateScenario.
    now rewrite (findIndex_none _ _ Hnone).
  - intros old result storage' Hold Hupdate.
    unfold getScenario in Hold.
    destruct (findIndex_find _ _ _ _ _ _ Hold) as (index & Hidx & Hnth).
    assert (Hid : SavedScenario.id old = id).
    { apply find_some in Hold. now apply String.eqb_eq. }
    unfold updateScenario, setItem in Hupdate.
    rewrite Hidx, Hnth in Hupdate.
    destruct (quota _); [|discriminate].
    injection Hupdate as <- <-. cbn [getAllScenarios].
    split; [|split].
    + now rewrite length_map, assignAt_length.
    + rewrite map_json_ids. now apply assignAt_ids with old.
    + intros id' Hne. unfold getScenario. cbn [getAllScenarios].
      rewrite find_hasId_json. f_equal.
      now apply find_assignAt_other with id.
Qed.
(** X19. Exported scenarios can be imported again: whatever the target
    store holds, [importScenarios] on the text [exportScenarios] produced
    returns [true] when the write goes through and replaces the target's
    list by the exported one, so that every id resolves to the scenario it
    resolved to in the source, as JSON carries it; when the write throws it
    returns [false] and the target is left as it was. *)
Theorem export_import_round_trip (source target : Store) :
  let jsonData :=
    exportScenarios jsonInputs jsonCalculation jsonAmortization source in
  let exported := map json (getAllScenarios source) in
  (quota exported = true ->
   exists target',
     importScenarios jsonInputs jsonCalculation jsonAmortization quota target
       jsonData = (true, target')
     /\ getAllScenarios target' = map json exported
     /\ (forall id,
           getScenario target' id
           = option_map json (option_map json (getScenario source id))))
  /\ (quota exported = false ->
      importScenarios jsonInputs jsonCalculation jsonAmortization quota target
        jsonData = (false, target)).
Proof.
  intros jsonData exported. subst jsonData.
  unfold importScenarios, exportScenarios, setItem. fold exported. split.
  - intros ->. eexists. split; [reflexivity|]. split; [reflexivity|].
    intros id. unfold getScenario. cbn [getAllScenarios]. unfold exported.
    now rewrite !find_hasId_json.
  - intros ->. reflexivity.
Qed.
End MoreStorage.

(** ** The theme context *)

Section ThemeProperties.
Import ThemeContext.
Local Open Scope string_scope.

Lemma isValidTheme_cases (t : string) :
  isValidTheme t = true <->
  t = "caramellatte" \/ t = "luxury" \/ t = "halloween".
Proof.
  unfold isValidTheme, THEMES. cbn [existsb].
  rewrite !orb_true_iff, !String.eqb_eq. intuition discriminate.
Qed.

Lemma isValidTheme_In (t : string) : isValidTheme t = true <-> In t THEMES.
Proof.
  rewrite isValidTheme_cases. simpl. intuition congruence.
Qed.

Lemma valid_theme_not_empty (t : string) :
  isValidTheme t = true -> String.eqb t EmptyString = false.
Proof.
  intros H. apply isValidTheme_cases in H.
  destruct H as [-> | [-> | ->]]; reflexivity.
Qed.

Lemma getSystemTheme_valid (window : option Browser) :
  isValidTheme (getSystemTheme window) = true.
Proof.
  destruct window as [[stored ok [[|]|]]|]; reflexivity.
Qed.

Lemma getStoredTheme_valid (window : option Browser) (t : string) :
  getStoredTheme window = Some t -> isValidTheme t = true.
Proof.
  destruct window as [[stored ok dark]|]; [|discriminate].
  cbn [getStoredTheme readable item].
  destruct ok; [|discriminate]. destruct stored as [s|]; [|discriminate].
  destruct (negb (String.eqb s EmptyString) && isValidTheme s) eqn:E;
    [|discriminate].
  intros [= <-]. now apply andb_prop in E.
Qed.

(** What a provider holds when it has mounted. *)
Lemma mount_some (browser : Browser) (p : Provider) :
  mount browser = Some p ->
  theme p = match getStoredTheme (Some browser) with
            | Some storedTheme => storedTheme
            | None => getSystemTheme (Some browser)
            end
  /\ dataTheme p = theme p
  /\ storedItem p = item browser
  /\ hasUserSetTheme p = false.
Proof.
  unfold mount. cbv zeta.
  destruct (prefersDark browser) eqn:E; [|discriminate].
  intros [= <-]. repeat split.
Qed.

Lemma mount_valid (browser : Browser) (p : Provider) :
  mount browser = Some p -> isValidTheme (theme p) = true.
Proof.
  intros (-> & _)%mount_some.
  destruct (getStoredTheme (Some browser)) as [t|] eqn:E.
  - now apply getStoredTheme_valid in E.
  - apply getSystemTheme_valid.
Qed.

(** X20. Whatever [localStorage] holds and whatever the browser throws,
    [getStoredTheme] returns [null] or one of the three themes, and then the
    stored item itself; [getSystemTheme] returns ["luxury"] or
    ["caramellatte"]; and the theme a provider starts with is the stored
    theme when there is one and the system theme otherwise, so it is always
    one of the three, and the [data-theme] attribute is set to it. *)
Theorem initial_theme_is_valid (browser : Browser) :
  (forall window t,
     getStoredTheme window = Some t ->
     In t THEMES
     /\ exists b, window = Some b /\ item b = Some t /\ readable b = true)
  /\ (forall window,
        getSystemTheme window = "luxury"
        \/ getSystemTheme window = "caramellatte")
  /\ (forall p, mount browser = Some p ->
        (forall t, getStoredTheme (Some browser) = Some t -> theme p = t)
        /\ (getStoredTheme (Some browser) = None ->
            theme p = getSystemTheme (Some browser))
        /\ In (theme p) THEMES
        /\ dataTheme p = theme p).
Proof.
  split; [|split].
  - intros window t H. split.
    + apply isValidTheme_In. now apply getStoredTheme_valid in H.
    + destruct window as [[stored ok dark]|]; [|discriminate].
      cbn [getStoredTheme readable item] in H.
      destruct ok; [|discriminate]. destruct stored as [s|]; [|discriminate].
      destruct (negb (String.eqb s EmptyString) && isValidTheme s);
        [|discriminate].
      injection H as <-. eexists. repeat split.
  - intros [[stored ok [[|]|]]|]; simpl; tauto.
  - intros p Hmount.
    destruct (mount_some _ _ Hmount) as (Htheme & Hdom & _).
    split; [|split; [|split]].
    + intros t H. now rewrite Htheme, H.
    + intros H. now rewrite Htheme, H.
    + apply isValidTheme_In. now apply mount_valid with browser.
    + exact Hdom.
Qed.

(** X21. Setting a theme and reading it back: [setTheme] with one of the
    three themes makes it the current theme and the [data-theme] attribute,
    and when the write to [localStorage] goes through, [getStoredTheme]
    returns it afterwards, a provider mounted later starts with it whatever
    the system prefers, and the listener for the system colour scheme does
    not replace it.  When the write throws, the stored item and the
    [hasUserSetTheme] flag stay as they were.  [setTheme] with any other
    string changes nothing. *)
Theorem setTheme_round_trip (p : Provider) (newTheme : string) :
  (isValidTheme newTheme = false ->
     forall writable, setTheme writable newTheme p = p)
  /\ (isValidTheme newTheme = true ->
      (forall writable,
         theme (setTheme writable newTheme p) = newTheme
         /\ dataTheme (setTheme writable newTheme p) = newTheme)
      /\ (forall dark,
            let later := mkBrowser (storedItem (setTheme true newTheme p))
                           true (Returns dark) in
            getStoredTheme (Some later) = Some newTheme
            /\ exists p', mount later = Some p' /\ theme p' = newTheme)
      /\ (forall matches,
            handleChange matches (setTheme true newTheme p)
            = setTheme true newTheme p)
      /\ storedItem (setTheme false newTheme p) = storedItem p
      /\ hasUserSetTheme (setTheme false newTheme p) = hasUserSetTheme p).
Proof.
  split.
  - intros H writable. unfold setTheme. now rewrite H.
  - intros H. unfold setTheme. rewrite H. cbn [negb].
    split; [|split; [|split; [|split]]].
    + intros [|]; split; reflexivity.
    + intros dark. cbv zeta.
      assert (Hstored : getStoredTheme
                          (Some (mkBrowser (Some newTheme) true
                                   (Returns dark)))
                        = Some newTheme).
      { cbn [getStoredTheme readable item storedItem].
        now rewrite H, (valid_theme_not_empty _ H). }
      cbn [storedItem]. split; [exact Hstored|].
      unfold mount. rewrite Hstored. cbn [prefersDark].
      eexists. split; reflexivity.
    + reflexivity.
    + reflexivity.
    + reflexivity.
Qed.

(** X22. Through every sequence of [setTheme] calls and calls of the
    listener for the system colour scheme, a mounted provider's theme stays
    one of the three themes and the [data-theme] attribute stays equal to
    it; and once [hasUserSetTheme] is set, a valid theme is stored. *)
Theorem provider_invariant (browser : Browser) (mounted : Provider)
    (events : list Event) :
  mount browser = Some mounted ->
  let p := run mounted events in
  In (theme p) THEMES
  /\ dataTheme p = theme p
  /\ (hasUserSetTheme p = true ->
      exists t, storedItem p = Some t /\ In t THEMES).
Proof.
  intros Hmount p.
  assert (Hinv : isValidTheme (theme p) = true
                 /\ dataTheme p = theme p
                 /\ (hasUserSetTheme p = true ->
                     exists t, storedItem p = Some t
                               /\ isValidTheme t = true)).
  { subst p. unfold run.
    assert (Hstart : isValidTheme (theme mounted) = true
                     /\ dataTheme mounted = theme mounted
                     /\ (hasUserSetTheme mounted = true ->
                         exists t, storedItem mounted = Some t
                                   /\ isValidTheme t = true)).
    { destruct (mount_some _ _ Hmount) as (_ & Hdom & _ & Huser).
      split; [now apply mount_valid with browser|].
      split; [exact Hdom|]. rewrite Huser. discriminate. }
    clear Hmount. revert Hstart. generalize mounted as q.
    induction events as [|ev events IH]; intros q Hq; [exact Hq|].
    cbn [fold_left]. apply IH.
    destruct Hq as (Hvalid & Hdom & Hset).
    destruct ev as [writable newTheme | matches]; cbn [step].
    - unfold setTheme.
      destruct (isValidTheme newTheme) eqn:Hnew; cbn [negb];
        [|now repeat split].
      destruct writable; cbn [theme dataTheme storedItem hasUserSetTheme].
      + split; [exact Hnew|]. split; [reflexivity|]. eauto.
      + split; [exact Hnew|]. split; [reflexivity | exact Hset].
    - unfold handleChange.
      destruct (hasUserSetTheme q) eqn:Huser; cbn [negb];
        [split; [exact Hvalid | split; [exact Hdom | intros _; now apply Hset]]|].
      cbn [theme dataTheme storedItem hasUserSetTheme].
      split; [now destruct matches|]. split; [reflexivity|].
      intros Hu. congruence. }
  destruct Hinv as (Hvalid & Hdom & Hset).
  split; [|split; [exact Hdom|]].
  - now apply isValidTheme_In.
  - intros Huser. destruct (Hset Huser) as (t & Ht & Hvalid').
    exists t. split; [exact Ht | now apply isValidTheme_In].
Qed.
End ThemeProperties.

(** ** The export of a schedule *)

Section ExportProperties.
Import GoogleSheetsExportService.

Lemma row_length (entry : AmortizationEntry.t) : List.length (row entry) = 8%nat.
Proof. reflexivity. Qed.

(** X23. What [populateAmortizationSheet] writes: the header row first; then
    the first 100 entries of the table and no more, one row of eight cells
    for each, in a range whose last row is 30 plus their number, and nothing
    when the table is empty; then, only for a table of more than 100
    entries, a note in row 131.  A table of at most 100 entries is written
    whole.  Every row written has eight cells, the columns [A] to [H]. *)
Theorem populateAmortizationSheet_rows (sheetName : string)
    (table : list AmortizationEntry.t) :
  let writes := populateAmortizationSheet sheetName table in
  let rows := map row (firstn 100 table) in
  let shown := Nat.min (List.length table) 100 in
  hd_error writes = Some (mkWrite (sheetName ++ "!A30:H30")%string headers)
  /\ List.length rows = shown
  /\ (table = [] -> writes = [mkWrite (sheetName ++ "!A30:H30")%string headers])
  /\ (table <> [] ->
      nth_error writes 1 =
      Some (mkWrite (sheetName ++ "!A31:H" ++ decimal (30 + shown))%string rows))
  /\ ((List.length table <= 100)%nat ->
      rows = map row table /\ (List.length writes <= 2)%nat)
  /\ ((100 < List.length table)%nat ->
      nth_error writes 2 = Some (mkWrite (sheetName ++ "!A131:H131")%string note)
      /\ List.length writes = 3%nat)
  /\ Forall (fun w => Forall (fun cells => List.length cells = 8%nat) (values w))
       writes.
Proof.
  intros writes rows shown.
  assert (Hrows : List.length rows = shown).
  { unfold rows, shown. rewrite length_map, length_firstn. lia. }
  assert (Hcells : Forall (fun cells => List.length cells = 8%nat) rows).
  { unfold rows. apply Forall_forall. intros cells Hin.
    apply in_map_iff in Hin. destruct Hin as (entry & <- & _). reflexivity. }
  subst writes. unfold populateAmortizationSheet. fold rows. rewrite Hrows.
  split; [reflexivity|]. split; [reflexivity|].
  split; [|split; [|split; [|split]]].
  - intros ->. reflexivity.
  - intros Hne.
    assert (Hpos : (0 < shown)%nat).
    { unfold shown. destruct table; [contradiction|]. simpl. lia. }
    rewrite (proj2 (Nat.ltb_lt _ _) Hpos). reflexivity.
  - intros Hle. split.
    + unfold rows. now rewrite firstn_all2.
    + rewrite (proj2 (Nat.ltb_ge _ _) Hle), app_nil_r.
      destruct (0 <? shown)%nat; simpl; lia.
  - intros Hgt. assert (Hshown : shown = 100%nat) by (unfold shown; lia).
    rewrite (proj2 (Nat.ltb_lt _ _) Hgt), Hshown. split; reflexivity.
  - repeat (apply Forall_app; split).
    + repeat constructor.
    + destruct (0 <? shown)%nat; repeat constructor. exact Hcells.
    + destruct (100 <? List.length table)%nat; repeat constructor.
Qed.
End ExportProperties.

(** ** Start dates and scenario ids *)

Section StartDates.
Local Open Scope float_scope.
Import JS.

Variable pow : number -> number -> number.
Variable Date : Type.
Variable getMonth : Date -> Z.
Variable setMonth : Date -> Z -> Date.
Variable toISOString : Date -> string.

Lemma loop_amounts (monthlyPayment monthlyRate numPayments : number)
    (d1 d2 : Date) (fuel : nat) :
  forall i b ci cp table,
    amortizationLoop getMonth setMonth toISOString monthlyPayment monthlyRate
      numPayments d1 fuel i b ci cp = Some table ->
    exists table',
      amortizationLoop getMonth setMonth toISOString monthlyPayment monthlyRate
        numPayments d2 fuel i b ci cp = Some table'
      /\ map amounts table' = map amounts table.
Proof.
  induction fuel as [|fuel IH]; intros i b ci cp table H; [discriminate|].
  rewrite loop_unfold in *.
  destruct (of_Z i <=? numPayments); [|injection H as <-; now exists []].
  cbv zeta in *.
  change (AmortizationEntry.endingBalance
            (entryOf getMonth setMonth toISOString monthlyPayment monthlyRate
               d2 i b ci cp))
    with (AmortizationEntry.endingBalance
            (entryOf getMonth setMonth toISOString monthlyPayment monthlyRate
               d1 i b ci cp)).
  destruct (AmortizationEntry.endingBalance _ <=? 0.01).
  - injection H as <-. eexists. split; reflexivity.
  - destruct (amortizationLoop _ _ _ _ _ _ d1 _ _ _ _ _) as [rest|] eqn:Hrest;
      [|discriminate].
    injection H as <-.
    destruct (IH _ _ _ _ _ Hrest) as (rest' & Hrest' & Hamounts).
    change (AmortizationEntry.cumulativeInterest
              (entryOf getMonth setMonth toISOString monthlyPayment monthlyRate
                 d2 i b ci cp))
      with (AmortizationEntry.cumulativeInterest
              (entryOf getMonth setMonth toISOString monthlyPayment monthlyRate
                 d1 i b ci cp)).
    change (AmortizationEntry.cumulativePrincipal
              (entryOf getMonth setMonth toISOString monthlyPayment monthlyRate
                 d2 i b ci cp))
      with (AmortizationEntry.cumulativePrincipal
              (entryOf getMonth setMonth toISOString monthlyPayment monthlyRate
                 d1 i b ci cp)).
    rewrite Hrest'. eexists. split; [reflexivity|].
    cbn [map]. now rewrite Hamounts.
Qed.

(** X24. The start date decides the payment dates and nothing else: from
    any other start date [generateAmortizationTable] returns a table with
    the same number of entries and, entry by entry, the same payment number,
    balances, payment, principal, interest and cumulative totals. *)
Theorem start_date_changes_dates_only (fuel : nat) (inputs : MortgageInputs.t)
    (startDate otherDate : Date) (table : list AmortizationEntry.t) :
  generateAmortizationTable pow getMonth setMonth toISOString fuel inputs
    startDate = Some table ->
  exists table',
    generateAmortizationTable pow getMonth setMonth toISOString fuel inputs
      otherDate = Some table'
    /\ List.length table' = List.length table
    /\ map amounts table' = map amounts table.
Proof.
  unfold generateAmortizationTable. intros H.
  destruct (loop_amounts _ _ _ startDate otherDate _ _ _ _ _ _ H)
    as (table' & Htable' & Hamounts).
  exists table'. split; [exact Htable'|]. split; [|exact Hamounts].
  apply (f_equal (@List.length _)) in Hamounts.
  now rewrite !length_map in Hamounts.
Qed.
End StartDates.

Section ScenarioIds.
Variables Inputs Calculation Amortization : Type.
Variable jsonInputs : Inputs -> Inputs.
Variable jsonCalculation : Calculation -> Calculation.
Variable jsonAmortization : Amortization -> Amortization.
Variable quota : list (SavedScenario.t Inputs Calculation Amortization) -> bool.

Local Abbreviation Scenario := (SavedScenario.t Inputs Calculation Amortization).
Local Abbreviation Store := (Item Inputs Calculation Amortization).
Local Abbreviation json :=
  (jsonScenario jsonInputs jsonCalculation jsonAmortization).
Local Abbreviation save :=
  (saveScenario jsonInputs jsonCalculation jsonAmortization quota).

Lemma to_int_not_nil (z : Z) :
  Z.to_int z <> Decimal.Pos Decimal.Nil
  /\ Z.to_int z <> Decimal.Neg Decimal.Nil.
Proof.
  destruct z as [|p|p]; simpl; split; try discriminate;
    intros [= H]; now apply DecimalPos.Unsigned.to_uint_nonnil in H.
Qed.

(** Clock readings that differ give ids that differ. *)
Lemma scenarioId_inj (a b : Z) : scenarioId a = scenarioId b -> a = b.
Proof.
  unfold scenarioId. intros H. injection H as H.
  apply DecimalZ.to_int_inj.
  destruct (to_int_not_nil a) as [Ha Ha'], (to_int_not_nil b) as [Hb Hb'].
  pose proof (DecimalString.NilZero.isi _ Ha Ha') as Ea.
  pose proof (DecimalString.NilZero.isi _ Hb Hb') as Eb.
  rewrite H in Ea. congruence.
Qed.

(** X25. Two scenarios saved at different readings of [Date.now()] get
    different ids, and when neither id was in use both can be read back
    after the second save, each as JSON carries it (the first has by then
    been written twice). *)
Theorem saves_at_different_times_coexist (storage storage1 storage2 : Store)
    (now1 now2 : string) (nowMs1 nowMs2 : Z) (name1 name2 : string)
    (inputs1 inputs2 : Inputs) (calculation1 calculation2 : Calculation)
    (amortization1 amortization2 : Amortization) (first second : Scenario) :
  nowMs1 <> nowMs2 ->
  (forall s, In s (getAllScenarios storage) ->
             SavedScenario.id s <> scenarioId nowMs1
             /\ SavedScenario.id s <> scenarioId nowMs2) ->
  save storage now1 nowMs1 name1 inputs1 calculation1 amortization1
  = Some (first, storage1) ->
  save storage1 now2 nowMs2 name2 inputs2 calculation2 amortization2
  = Some (second, storage2) ->
  SavedScenario.id first <> SavedScenario.id second
  /\ getScenario storage2 (SavedScenario.id first) = Some (json (json first))
  /\ getScenario storage2 (SavedScenario.id second) = Some (json second).
Proof.
  intros Hms Hfresh Hsave1 Hsave2.
  unfold saveScenario, setItem in Hsave1, Hsave2.
  destruct (quota _); [|discriminate]. injection Hsave1 as <- <-.
  cbn [getAllScenarios] in Hsave2.
  destruct (quota _); [|discriminate]. injection Hsave2 as <- <-.
  cbn [SavedScenario.id].
  assert (Hids : scenarioId nowMs1 <> scenarioId nowMs2)
    by (intros E; now apply scenarioId_inj in E).
  split; [exact Hids|].
  unfold getScenario. cbn [getAllScenarios].
  rewrite !find_hasId_json. split.
  - rewrite map_app, <- app_assoc.
    match goal with
    | |- option_map _ (find ?p (?l ++ ?r)) = _ =>
        assert (Hfind : find p (l ++ r) = find p r)
    end.
    { induction (getAllScenarios storage) as [|s rest IH]; [reflexivity|].
      cbn [map app find]. cbn [jsonScenario SavedScenario.id].
      destruct (Hfresh s (or_introl eq_refl)) as [Hs _].
      rewrite (proj2 (String.eqb_neq _ _) Hs).
      apply IH. intros s0 H0. apply Hfresh. now right. }
    rewrite Hfind. cbn [map app find jsonScenario SavedScenario.id].
    rewrite String.eqb_refl. reflexivity.
  - rewrite find_hasId_fresh; [reflexivity | | reflexivity].
    intros s Hs. apply in_map_iff in Hs. destruct Hs as (s0 & <- & Hs0).
    cbn [jsonScenario SavedScenario.id].
    apply in_app_or in Hs0. destruct Hs0 as [Hs0|[<-|[]]].
    + now apply Hfresh.
    + exact Hids.
Qed.
End ScenarioIds.

(** ** The further properties on concrete inputs *)

Section MoreConcrete.
Local Open Scope float_scope.
Import JS MortgageUtils.

(** X1 on the worked example with a rate of 55 % and a term of 0 years:
    both messages, and no third. *)
Lemma validateInputs_reports_witness :
  In interestRateError (validateInputs Sample.twoErrors)
  /\ In loanTermError (validateInputs Sample.twoErrors)
  /\ ~ In pmiRateError (validateInputs Sample.twoErrors).
Proof.
  destruct (validateInputs_reports Sample.twoErrors)
    as (_ & Hrate & Hterm & _ & _ & _ & _ & Hpmi & _).
  split; [|split].
  - apply Hrate. right. reflexivity.
  - apply Hterm. left. reflexivity.
  - intros Hin. apply Hpmi in Hin. destruct Hin as (rate & Hsome & Hout).
    injection Hsome as <-. destruct Hout; discriminate.
Defined.

(** X2 on inputs whose every number is [NaN]: they pass validation. *)
Lemma validateInputs_silent_on_nan_witness :
  validateInputs Sample.allNaN = [].
Proof.
  apply (proj2 (proj2 (proj2 (proj2 (proj2 (proj2 (proj2 (proj2 (proj2
           (validateInputs_silent_on_nan Sample.allNaN))))))))));
    try reflexivity; intros x [= <-]; reflexivity.
Defined.

(** X3 on the worked example with a rate of [NaN]. *)
Lemma nan_interest_rate_reaches_every_total_witness :
  ~ In interestRateError (validateInputs Sample.nanRate)
  /\ is_nan (MortgageCalculation.principalAndInterest
               (calculateMortgage Host.pow Sample.nanRate)) = true.
Proof.
  destruct (nan_interest_rate_reaches_every_total Host.pow Sample.nanRate
              eq_refl) as (Hsilent & _ & Hpayment & _).
  split; assumption.
Defined.

(** X4 on the cash purchase. *)
Lemma cash_purchase_not_reported_witness :
  ~ In downPaymentTooLargeError (validateInputs Sample.cashPurchase).
Proof.
  apply cash_purchase_not_reported. reflexivity.
Defined.

(** X5 on a loan of 300000 against a purchase price of 0, and on no loan
    against it. *)
Lemma ratios_over_zero_witness :
  is_infinity (calculateLTV 300000 0) = true
  /\ is_nan (calculateLTV 0 0) = true.
Proof.
  split.
  - rewrite (proj2 (proj2 (proj2 (ratios_over_zero 300000 0 eq_refl)))).
    reflexivity.
  - rewrite (proj1 (proj2 (proj2 (ratios_over_zero 0 0 eq_refl)))).
    reflexivity.
Defined.

(** X6 on the one-year schedule from 31 January 2024: the third entry is
    number 3 and is dated three months on, which [setMonth] makes the first
    of May, April having no 31st. *)
Lemma payment_numbers_and_dates_witness :
  exists e,
    nth_error Sample.oneYearTable 2 = Some e
    /\ AmortizationEntry.paymentNumber e = 3
    /\ AmortizationEntry.paymentDate e = "2024-05-01"%string.
Proof.
  eexists. split; [reflexivity|].
  exact (payment_numbers_and_dates Host.pow Host.Date Host.getMonth
           Host.setMonth Host.toISOString 13 Sample.oneYear Sample.startDate
           Sample.oneYearTable oneYearTable_generated 2 _ eq_refl).
Defined.

(** X7 on the one-year schedule: the cumulative interest of the second
    entry is the interest of the first two entries, added from 0. *)
Lemma cumulative_totals_are_running_sums_witness :
  exists e1 e2,
    nth_error Sample.oneYearTable 0 = Some e1
    /\ nth_error Sample.oneYearTable 1 = Some e2
    /\ AmortizationEntry.cumulativeInterest e2 =
       0 + AmortizationEntry.interestPayment e1
         + AmortizationEntry.interestPayment e2.
Proof.
  eexists. eexists. split; [reflexivity|]. split; [reflexivity|].
  exact (proj1 (cumulative_totals_are_running_sums Host.pow Host.Date
                  Host.getMonth Host.setMonth Host.toISOString 13
                  Sample.oneYear Sample.startDate Sample.oneYearTable
                  oneYearTable_generated 1 _ eq_refl)).
Defined.

(** X8 on the one-year schedule: its last entry ends at 0, not below. *)
Lemma balances_never_negative_witness :
  exists e,
    nth_error Sample.oneYearTable 11 = Some e
    /\ (AmortizationEntry.endingBalance e <? 0) = false
    /\ (0 <=? AmortizationEntry.beginningBalance e) = true.
Proof.
  eexists. split; [reflexivity|].
  destruct (balances_never_negative Host.pow Host.Date Host.getMonth
              Host.setMonth Host.toISOString 13 Sample.oneYear
              Sample.startDate Sample.oneYearTable oneYearTable_generated)
    as [Hend Hbegin].
  split.
  - apply Hend. do 11 right. left. reflexivity.
  - apply (Hbegin 10%nat); reflexivity.
Defined.

(** X9 on the schedule of a cash purchase: its first entry ends at 0, and
    the table has that entry only, of the 360 the term allows. *)
Lemma table_stops_when_paid_off_witness :
  List.length Sample.cashTable = 1%nat.
Proof.
  eapply (table_stops_when_paid_off Host.pow Host.Date Host.getMonth
            Host.setMonth Host.toISOString 2 Sample.cashPurchase
            Sample.startDate Sample.cashTable cashTable_generated 0);
    reflexivity.
Defined.

Lemma shortTerm_generated :
  Sample.generate 1 Sample.shortTerm Sample.startDate = Some [].
Proof. vm_compute. reflexivity. Qed.

(** X10 on a term of 0.05 years, which [validateInputs] accepts: 0.6
    payments, an empty table; and on the one-year schedule, which is not
    empty. *)
Lemma table_empty_iff_no_payment_witness :
  (1 <=? MortgageInputs.loanTermYears Sample.shortTerm * 12) = false
  /\ validateInputs Sample.shortTerm = []
  /\ Sample.oneYearTable <> [].
Proof.
  split; [|split; [reflexivity|]].
  - apply (proj1 (table_empty_iff_no_payment Host.pow Host.Date Host.getMonth
                    Host.setMonth Host.toISOString 1 Sample.shortTerm
                    Sample.startDate [] shortTerm_generated)).
    reflexivity.
  - intros Hempty.
    apply (proj1 (table_empty_iff_no_payment Host.pow Host.Date Host.getMonth
                    Host.setMonth Host.toISOString 13 Sample.oneYear
                    Sample.startDate Sample.oneYearTable
                    oneYearTable_generated)) in Hempty.
    discriminate Hempty.
Defined.

(** X11 on the one-year schedule: what is owed on the first of May 2024,
    after three payments. *)
Lemma remaining_balance_never_negative_witness :
  exists remaining,
    calculateRemainingBalance Host.pow Host.getMonth Host.setMonth
      Host.toISOString 13 Sample.oneYear (Host.mkDate 2024 4 1)
      Sample.startDate = Some remaining
    /\ (0 <=? remaining) = true.
Proof.
  eexists. split; [vm_compute; reflexivity|].
  apply (remaining_balance_never_negative Host.pow Host.Date Host.getMonth
           Host.setMonth Host.toISOString 13 Sample.oneYear
           (Host.mkDate 2024 4 1) Sample.startDate);
    vm_compute; reflexivity.
Defined.

(** X12 on the worked example: the component computes a result, its table
    within the 600 entries. *)
Lemma component_result_is_bounded_witness :
  exists table,
    calculationResult Host.pow Host.getMonth Host.setMonth Host.toISOString
      601 Sample.startDate Sample.knownGood
    = Some (CalculationResult.Result
              (calculateMortgage Host.pow Sample.knownGood) table)
    /\ (List.length table <= 600)%nat.
Proof.
  destruct (component_result_is_bounded Host.pow Host.Date Host.getMonth
              Host.setMonth Host.toISOString 601 Sample.startDate
              Sample.knownGood (le_n 601))
    as [[Herrors _] | (_ & table & _ & Hresult & Hlength)].
  - exfalso. apply Herrors. reflexivity.
  - exists table. split; assumption.
Defined.

(** X14 on a store that holds one scenario, asked to delete another. *)
Lemma deleteScenario_unknown_id_witness :
  Sample.delete Sample.oneScenario "scenario_0"
  = Some (false, Sample.oneScenario).
Proof.
  apply (proj1 (deleteScenario_unknown_id _ _ _
                  (fun x : MortgageInputs.t => x)
                  (fun x : MortgageCalculation.t => x)
                  (fun x : list AmortizationEntry.t => x)
                  (fun _ => true) Sample.oneScenario "scenario_0")).
  reflexivity.
Defined.

(** X15 on a store that holds one scenario: deleting it leaves none. *)
Lemma deleteScenario_removes_id_witness :
  Sample.delete Sample.oneScenario "scenario_1706702400000"
  = Some (true, Sample.emptied)
  /\ getScenario Sample.emptied "scenario_1706702400000" = None.
Proof.
  split; [reflexivity|].
  refine (proj1 (proj2 (deleteScenario_removes_id _ _ _
                          (fun x : MortgageInputs.t => x)
                          (fun x : MortgageCalculation.t => x)
                          (fun x : list AmortizationEntry.t => x)
                          (fun _ => true)
                          Sample.oneScenario Sample.emptied
                          "scenario_1706702400000" Sample.savedScenario true
                          _ _))); reflexivity.
Defined.

(** X16 on a store whose item is not JSON: nothing is found, nothing is
    deleted, and a save leaves the saved scenario alone. *)
Lemma unreadable_storage_is_empty_witness :
  getScenario (Garbled _ _ _ : Sample.Store) "scenario_1706702400000" = None
  /\ Sample.delete (Garbled _ _ _) "scenario_1706702400000"
     = Some (false, Garbled _ _ _)
  /\ forall scenario storage',
       Sample.save (Garbled _ _ _) Sample.clock Sample.clockMs "Starter home"
         Sample.oneYear (calculateMortgage Host.pow Sample.oneYear)
         Sample.oneYearTable
       = Some (scenario, storage') ->
       getAllScenarios storage' = [scenario].
Proof.
  destruct (unreadable_storage_is_empty _ _ _
              (fun x : MortgageInputs.t => x)
              (fun x : MortgageCalculation.t => x)
              (fun x : list AmortizationEntry.t => x)
              (fun _ => true)) as (_ & _ & Hempty).
  destruct (Hempty (Garbled _ _ _) eq_refl) as (Hget & _ & Hdelete & Hsave).
  split; [apply Hget|]. split; [apply Hdelete|].
  intros scenario storage' H. rewrite (Hsave _ _ _ _ _ _ _ _ H).
  destruct scenario. reflexivity.
Defined.

(** X17 on a store that holds one scenario: saving a second scenario puts
    it after the first, which its id still finds. *)
Lemma saveScenario_appends_witness :
  Sample.save Sample.oneScenario Sample.secondClock Sample.secondClockMs
    "Cash offer" Sample.cashPurchase
    (calculateMortgage Host.pow Sample.cashPurchase) Sample.cashTable
  = Some (Sample.secondScenario, Sample.twoScenarios)
  /\ getAllScenarios Sample.twoScenarios
     = [Sample.savedScenario; Sample.secondScenario]
  /\ getScenario Sample.twoScenarios "scenario_1706702400000"
     = Some Sample.savedScenario.
Proof.
  assert (Hsave : Sample.save Sample.oneScenario Sample.secondClock
                    Sample.secondClockMs "Cash offer" Sample.cashPurchase
                    (calculateMortgage Host.pow Sample.cashPurchase)
                    Sample.cashTable
                  = Some (Sample.secondScenario, Sample.twoScenarios))
    by reflexivity.
  split; [exact Hsave|].
  destruct (saveScenario_appends _ _ _ _ _ _ _ _ _ _ _ _ _ _ _ _ Hsave)
    as (Hall & _ & Hkept).
  split; [exact Hall|].
  exact (Hkept "scenario_1706702400000"%string Sample.savedScenario eq_refl).
Defined.

(** X18 on the store of two scenarios: renaming the first keeps the ids
    and leaves the second as it was; an id that is not stored changes
    nothing. *)
Lemma updateScenario_touches_one_witness :
  Sample.update Sample.twoScenarios Sample.laterClock "scenario_0"
    "First home" Sample.oneYear (calculateMortgage Host.pow Sample.oneYear)
    Sample.oneYearTable
  = Some (None, Sample.twoScenarios)
  /\ forall result storage',
       Sample.update Sample.twoScenarios Sample.laterClock
         "scenario_1706702400000" "First home" Sample.oneYear
         (calculateMortgage Host.pow Sample.oneYear) Sample.oneYearTable
       = Some (result, storage') ->
       List.length (getAllScenarios storage') = 2%nat
       /\ getScenario storage' "scenario_1706702401000"
          = Some Sample.secondScenario.
Proof.
  split.
  - apply (proj1 (updateScenario_touches_one _ _ _
                    (fun x : MortgageInputs.t => x)
                    (fun x : MortgageCalculation.t => x)
                    (fun x : list AmortizationEntry.t => x)
                    (fun _ => true) Sample.twoScenarios Sample.laterClock
                    "scenario_0" "First home" Sample.oneYear
                    (calculateMortgage Host.pow Sample.oneYear)
                    Sample.oneYearTable)).
    reflexivity.
  - intros result storage' H.
    destruct (proj2 (updateScenario_touches_one _ _ _
                       (fun x : MortgageInputs.t => x)
                       (fun x : MortgageCalculation.t => x)
                       (fun x : list AmortizationEntry.t => x)
                       (fun _ => true) Sample.twoScenarios Sample.laterClock
                       "scenario_1706702400000" "First home" Sample.oneYear
                       (calculateMortgage Host.pow Sample.oneYear)
                       Sample.oneYearTable)
                Sample.savedScenario result storage' eq_refl H)
      as (Hlength & _ & Hother).
    split; [exact Hlength|].
    rewrite (Hother "scenario_1706702401000"%string) by discriminate.
    reflexivity.
Defined.

(** X19 on the store of two scenarios, exported and imported into a store
    whose item is not JSON. *)
Lemma export_import_round_trip_witness :
  exists target',
    Sample.import (Garbled _ _ _) (Sample.export Sample.twoScenarios)
    = (true, target')
    /\ getAllScenarios target'
       = [Sample.savedScenario; Sample.secondScenario].
Proof.
  destruct (proj1 (export_import_round_trip _ _ _
                     (fun x : MortgageInputs.t => x)
                     (fun x : MortgageCalculation.t => x)
                     (fun x : list AmortizationEntry.t => x)
                     (fun _ => true) Sample.twoScenarios (Garbled _ _ _))
              eq_refl) as (target' & Himport & Hall & _).
  exists target'. split; [exact Himport | exact Hall].
Defined.

(** X20 on a browser that prefers dark: a stored ["halloween"] is the
    theme the provider starts with, and a stored ["neon"] is passed over
    for the system's ["luxury"]. *)
Lemma initial_theme_is_valid_witness :
  (forall p, ThemeContext.mount Sample.browser = Some p ->
             ThemeContext.theme p = "halloween"%string)
  /\ ThemeContext.theme Sample.mounted = "luxury"%string.
Proof.
  split.
  - intros p Hp.
    apply (proj1 (proj2 (proj2 (initial_theme_is_valid Sample.browser))
                    p Hp)).
    reflexivity.
  - rewrite (proj1 (proj2 (proj2 (proj2 (initial_theme_is_valid
                                            Sample.strangeBrowser))
                             Sample.mounted eq_refl)));
      reflexivity.
Defined.

(** X21 on the provider that started with ["luxury"]: ["halloween"] is
    set and stored, and found again by a later provider; ["neon"] is
    refused. *)
Lemma setTheme_round_trip_witness :
  ThemeContext.getStoredTheme
    (Some (ThemeContext.mkBrowser
             (ThemeContext.storedItem
                (ThemeContext.setTheme true "halloween" Sample.mounted))
             true (ThemeContext.Returns false)))
  = Some "halloween"%string
  /\ ThemeContext.setTheme true "neon" Sample.mounted = Sample.mounted.
Proof.
  destruct (setTheme_round_trip Sample.mounted "halloween") as [_ Hvalid].
  destruct (setTheme_round_trip Sample.mounted "neon") as [Hinvalid _].
  split.
  - destruct (Hvalid eq_refl) as (_ & Hlater & _).
    apply (Hlater false).
  - apply Hinvalid. reflexivity.
Defined.

(** X22 on that provider, through four events. *)
Lemma provider_invariant_witness :
  In (ThemeContext.theme (ThemeContext.run Sample.mounted Sample.events))
     ThemeContext.THEMES
  /\ ThemeContext.dataTheme (ThemeContext.run Sample.mounted Sample.events)
     = "halloween"%string.
Proof.
  destruct (provider_invariant Sample.strangeBrowser Sample.mounted
              Sample.events eq_refl)
    as (Hvalid & Hdom & _).
  split; [exact Hvalid|]. rewrite Hdom. reflexivity.
Defined.

(** X23 on the one-year schedule: twelve rows, in rows 31 to 42. *)
Lemma populateAmortizationSheet_rows_witness :
  nth_error
    (GoogleSheetsExportService.populateAmortizationSheet "Mortgage_home_1"
       Sample.oneYearTable) 1
  = Some (GoogleSheetsExportService.mkWrite "Mortgage_home_1!A31:H42"
            (map GoogleSheetsExportService.row Sample.oneYearTable)).
Proof.
  apply (proj1 (proj2 (proj2 (proj2
           (populateAmortizationSheet_rows "Mortgage_home_1"
              Sample.oneYearTable))))).
  discriminate.
Defined.

(** X24 on the one-year schedule, started in June 2025 instead. *)
Lemma start_date_changes_dates_only_witness :
  exists table',
    Sample.generate 13 Sample.oneYear Sample.otherDate = Some table'
    /\ List.length table' = 12%nat
    /\ map amounts table' = map amounts Sample.oneYearTable.
Proof.
  exact (start_date_changes_dates_only Host.pow Host.Date Host.getMonth
           Host.setMonth Host.toISOString 13 Sample.oneYear Sample.startDate
           Sample.otherDate Sample.oneYearTable oneYearTable_generated).
Defined.

(** X25 on two scenarios saved a second apart into an empty store. *)
Lemma saves_at_different_times_coexist_witness :
  getScenario Sample.twoScenarios "scenario_1706702400000"
  = Some Sample.savedScenario
  /\ getScenario Sample.twoScenarios "scenario_1706702401000"
     = Some Sample.secondScenario.
Proof.
  refine (proj2 (saves_at_different_times_coexist _ _ _
                   (fun x : MortgageInputs.t => x)
                   (fun x : MortgageCalculation.t => x)
                   (fun x : list AmortizationEntry.t => x)
                   (fun _ => true)
                   Sample.emptied Sample.oneScenario Sample.twoScenarios
                   Sample.clock Sample.secondClock
                   Sample.clockMs Sample.secondClockMs
                   "Starter home" "Cash offer"
                   Sample.oneYear Sample.cashPurchase
                   (calculateMortgage Host.pow Sample.oneYear)
                   (calculateMortgage Host.pow Sample.cashPurchase)
                   Sample.oneYearTable Sample.cashTable
                   Sample.savedScenario Sample.secondScenario
                   _ _ _ _)).
  - discriminate.
  - intros s [].
  - reflexivity.
  - reflexivity.
Defined.
End MoreConcrete.
